(** * Natural Selection: the ledger, the screen view and two view helpers

    A shallow embedding of

    - [EnvironmentModelViewTransform] (js/common/model), the 3D-to-2D
      projection of the environment;
    - [PopulationGenerationScroller] (js/common/view/population), the back and
      forward buttons of the Population graph;
    - [NaturalSelectionScreenView], the listeners of its constructor that
      show a graph, end the simulation and start it again;
    - [ProportionsModel] with [ProportionsCounts], the ledger of start and end
      counts per generation;
    - [PedigreeBranchNode] (js/common/view/pedigree), a branch of the Pedigree
      graph;
    - [ProportionsBarNode] (js/common/view/proportions), a bar of the
      Proportions graph;
    - [AllelesPanel] (js/common/view/pedigree), the rows of the alleles.

    Conventions.  JavaScript numbers are exact rationals ([Q]) where the code
    computes with fractions, and integers ([Z], [nat]) where the code counts
    generations: what is stated of the projection holds in exact arithmetic,
    without the rounding of binary floating point.  A call that throws is a
    value [inl] of a sum; stateful code is a function from the state to an
    outcome and the state at that point, so that the state an exception
    leaves behind stays visible.

    Every check of the sources has the form [assert && assert( c, msg )]: it
    only runs when the global [assert] is defined.  The embedding keeps that
    gate as the boolean [assertEnabled]. *)

From Stdlib Require Import ZArith QArith Qround Qminmax Qpower Qabs Lqa Lia List Bool String.
Import ListNotations.

Set Implicit Arguments.

(* ------------------------------------------------------------------------- *)
(** ** What a JavaScript call can do: return or throw *)

Module JS.

(** The two kinds of exception that the modelled code can raise. *)
Inductive Thrown : Type :=
| AssertionFailed (message : string)
| TypeError (message : string).

(** A pure computation: it throws or it returns. *)
Definition result (A : Type) : Type := (Thrown + A)%type.

Definition ret {A} (a : A) : result A := inr a.
Definition throw {A} (e : Thrown) : result A := inl e.

Definition bind {A B} (c : result A) (k : A -> result B) : result B :=
  match c with
  | inl e => inl e
  | inr a => k a
  end.

(** [assert && assert( condition, message )] *)
Definition assert (assertEnabled condition : bool) (message : string)
  : result unit :=
  if assertEnabled
  then if condition then ret tt else throw (AssertionFailed message)
  else ret tt.

(** A stateful computation over a store [S]: the outcome together with the
    store as the call left it, also when the call threw. *)
Definition Eff (S A : Type) : Type := S -> result A * S.

Definition unit_ {S A} (a : A) : Eff S A := fun s => (inr a, s).
Definition raise {S A} (e : Thrown) : Eff S A := fun s => (inl e, s).
Definition lift {S A} (r : result A) : Eff S A := fun s => (r, s).
Definition get {S} : Eff S S := fun s => (inr s, s).
Definition modify {S} (f : S -> S) : Eff S unit := fun s => (inr tt, f s).

Definition seq {S A B} (c : Eff S A) (k : A -> Eff S B) : Eff S B :=
  fun s =>
    match c s with
    | (inl e, s') => (inl e, s')
    | (inr a, s') => k a s'
    end.

(** The state a call leaves behind, and whether it returned. *)
Definition after {S A} (c : Eff S A) (s : S) : S := snd (c s).
Definition returns {S A} (c : Eff S A) (s : S) : bool :=
  match fst (c s) with inr _ => true | inl _ => false end.

End JS.

Declare Scope js_scope.
Delimit Scope js_scope with js.
Notation "x <-? c ; k" := (JS.bind c (fun x => k))
  (at level 61, c at next level, right associativity) : js_scope.
Notation "x <- c ;; k" := (JS.seq c (fun x => k))
  (at level 61, c at next level, right associativity) : js_scope.
Notation "c ;; k" := (JS.seq c (fun _ => k))
  (at level 61, right associativity) : js_scope.

(* ------------------------------------------------------------------------- *)
(** ** dot/Range, as far as the sources use it *)

Module Dot.

Record Range : Type := mkRange { min : Q; max : Q }.

(** [new Range( min, max )]; the constructor asserts [min <= max]. *)
Definition newRange (assertEnabled : bool) (lo hi : Q) : JS.result Range :=
  (_ <-? JS.assert assertEnabled (Qle_bool lo hi) "max must be >= min" ;
   JS.ret (mkRange lo hi))%js.

Definition getLength (r : Range) : Q := max r - min r.

Definition contains (r : Range) (v : Q) : bool :=
  Qle_bool (min r) v && Qle_bool v (max r).

End Dot.

(* ------------------------------------------------------------------------- *)
(** ** EnvironmentModelViewTransform *)

Module EnvironmentModelViewTransform.

Record Dimension2 : Type := mkDimension2 { width : Q; height : Q }.
Record Vector3 : Type := mkVector3 { x : Q; y : Q; z : Q }.

Definition NEAR_SCALE : Q := 1.
Definition Z_MARGIN_MODEL : Q := 1.

Record Transform : Type := mkTransform {
  viewSize : Dimension2;
  yHorizonView : Q;
  zNearModel : Q;
  zFarModel : Q;
  riseModel : Q;
  xyScaleFactor : Q
}.

(** The constructor: the sizes are those of the background images. *)
Definition constructor : Transform :=
  let viewSize := mkDimension2 770 310 in
  let yHorizonView := 95 in
  let zNearModel := 150 in
  let zFarModel := 300 in
  let riseModel := 100 in
  mkTransform viewSize yHorizonView zNearModel zFarModel riseModel
    (zNearModel * (height viewSize - yHorizonView) / riseModel).

Section Methods.
Variable assertEnabled : bool.
Variable this : Transform.

Local Open Scope js_scope.

Definition getGroundY (zModel : Q) : JS.result Q :=
  _ <-? JS.assert assertEnabled
          (Qle_bool (zNearModel this) zModel && Qle_bool zModel (zFarModel this))
          "invalid zModel" ;
  let scale := - (zFarModel this - zModel) / (zFarModel this - zNearModel this) in
  JS.ret (scale * riseModel this).

Definition getGroundPosition (xModel zModel : Q) : JS.result Vector3 :=
  _ <-? JS.assert assertEnabled
          (Qle_bool (zNearModel this) zModel && Qle_bool zModel (zFarModel this))
          "invalid zModel" ;
  yModel <-? getGroundY zModel ;
  JS.ret (mkVector3 xModel yModel zModel).

Definition getMaximumX (zModel : Q) : JS.result Q :=
  _ <-? JS.assert assertEnabled (negb (Qle_bool zModel 0)) "invalid zModel" ;
  JS.ret (zModel * width (viewSize this) * (1 # 2) / xyScaleFactor this).

Definition getMinimumX (zModel : Q) : JS.result Q :=
  m <-? getMaximumX zModel ;
  JS.ret (- m).

Definition getMinimumZ : Q := zNearModel this.
Definition getMaximumZ : Q := zFarModel this.

Definition getViewScale (zModel : Q) : JS.result Q :=
  _ <-? JS.assert assertEnabled (negb (Qle_bool zModel 0)) "invalid zModel" ;
  JS.ret (NEAR_SCALE * zNearModel this / zModel).

Definition modelToViewX (position : Vector3) : JS.result Q :=
  _ <-? JS.assert assertEnabled (negb (Qeq_bool (z position) 0)) "z cannot be zero" ;
  JS.ret ((width (viewSize this) / 2) + (x position / z position) * xyScaleFactor this).

Definition modelToViewY (position : Vector3) : JS.result Q :=
  _ <-? JS.assert assertEnabled (negb (Qeq_bool (z position) 0)) "z cannot be zero" ;
  JS.ret (yHorizonView this - (y position / z position) * xyScaleFactor this).

Definition viewToModelZ (yView : Q) : JS.result Q :=
  _ <-? JS.assert assertEnabled
          (Qle_bool (yHorizonView this) yView && Qle_bool yView (height (viewSize this)))
          "invalid yView" ;
  JS.ret ((zNearModel this * zFarModel this * (yHorizonView this - height (viewSize this))) /
          (zFarModel this * (yHorizonView this - yView) +
           zNearModel this * (yView - height (viewSize this)))).

Definition viewToModelX (xView zModel : Q) : Q :=
  zModel * (xView - width (viewSize this) / 2) / xyScaleFactor this.

Definition viewToModelGroundPosition (xView yView : Q) : JS.result Vector3 :=
  _ <-? JS.assert assertEnabled
          (Qle_bool 0 xView && Qle_bool xView (width (viewSize this)))
          "invalid xView" ;
  _ <-? JS.assert assertEnabled
          (Qle_bool (yHorizonView this) yView && Qle_bool yView (height (viewSize this)))
          "invalid yView" ;
  zModel <-? viewToModelZ yView ;
  let xModel := viewToModelX xView zModel in
  yModel <-? getGroundY zModel ;
  JS.ret (mkVector3 xModel yModel zModel).

Definition viewToModelDistance (distanceView zModel : Q) : Q :=
  distanceView * zModel / xyScaleFactor this.

Definition dispose : JS.result unit :=
  JS.assert assertEnabled false "EnvironmentModelViewTransform does not support dispose".

(** [a >= b && c <= d] evaluates [d] only when the first test holds. *)
Definition isGroundX (position : Vector3) : JS.result bool :=
  xMin <-? getMinimumX (z position) ;
  if Qle_bool xMin (x position)
  then xMax <-? getMaximumX (z position) ;
       JS.ret (Qle_bool (x position) xMax)
  else JS.ret false.

Definition isGroundY (position : Vector3) : JS.result bool :=
  yGround <-? getGroundY (z position) ;
  JS.ret (Qeq_bool (y position) yGround).

Definition isGroundZ (position : Vector3) : bool :=
  Qle_bool (zNearModel this) (z position) && Qle_bool (z position) (zFarModel this).

(** z is checked first, and x and y only for a z on the ground. *)
Definition isGroundPosition (position : Vector3) : JS.result bool :=
  if isGroundZ position
  then onX <-? isGroundX position ;
       if onX then isGroundY position else JS.ret false
  else JS.ret false.

(** [dotRandom] belongs to dot, which is not among the sources.  The state
    of the generator is a value of [Random], and
    [dotRandom.nextDoubleBetween( min, max )] is a call on that state: it
    returns a number and leaves the next state, or it throws. *)
Variable Random : Type.
Variable nextDoubleBetween : Q -> Q -> JS.Eff Random Q.

(** [getRandomGroundPosition( xMargin )].  The position is only checked
    when assertions run. *)
Definition getRandomGroundPosition (xMargin : Q) : JS.Eff Random Vector3 :=
  zModel <- nextDoubleBetween (zNearModel this + Z_MARGIN_MODEL)
                              (zFarModel this - Z_MARGIN_MODEL) ;;
  xMin <- JS.lift (getMinimumX zModel) ;;
  let xMinModel := xMin + xMargin in
  xMax <- JS.lift (getMaximumX zModel) ;;
  let xMaxModel := xMax - xMargin in
  xModel <- nextDoubleBetween xMinModel xMaxModel ;;
  yModel <- JS.lift (getGroundY zModel) ;;
  let position := mkVector3 xModel yModel zModel in
  JS.lift (if assertEnabled
           then onGround <-? isGroundPosition position ;
                JS.assert true onGround "unexpected position"
           else JS.ret tt) ;;
  JS.unit_ position.

End Methods.

End EnvironmentModelViewTransform.

(* ------------------------------------------------------------------------- *)
(** ** PopulationGenerationScroller *)

Module PopulationGenerationScroller.

(** The Properties the scroller is given, and its two buttons. *)
Record State : Type := mkState {
  rangeProperty : Dot.Range;
  maxProperty : Q;
  isPlayingProperty : bool;
  backButtonEnabled : bool;
  forwardButtonEnabled : bool
}.

Definition withRange (r : Dot.Range) (s : State) : State :=
  mkState r (maxProperty s) (isPlayingProperty s)
          (backButtonEnabled s) (forwardButtonEnabled s).
Definition withMax (m : Q) (s : State) : State :=
  mkState (rangeProperty s) m (isPlayingProperty s)
          (backButtonEnabled s) (forwardButtonEnabled s).
Definition withIsPlaying (b : bool) (s : State) : State :=
  mkState (rangeProperty s) (maxProperty s) b
          (backButtonEnabled s) (forwardButtonEnabled s).
Definition withButtons (back forward : bool) (s : State) : State :=
  mkState (rangeProperty s) (maxProperty s) (isPlayingProperty s) back forward.

(** What the constructor keeps in its closure: [options.step] and the
    length of the range at construction. *)
Record Closure : Type := mkClosure { step : Q; rangeLength : Q }.

Definition ceil (q : Q) : Q := inject_Z (Qceiling q).
Definition floor (q : Q) : Q := inject_Z (Qfloor q).

Section Callbacks.
Variable assertEnabled : bool.
Local Open Scope js_scope.

(** The multilink on [rangeProperty] and [maxProperty]. *)
Definition enableButtons : JS.Eff State unit :=
  JS.modify (fun s =>
    withButtons (negb (Qle_bool (Dot.min (rangeProperty s)) 0))
                (negb (Qle_bool (maxProperty s) (Dot.max (rangeProperty s)))) s).

(** [rangeProperty.value = range]: a new Range instance is a new value. *)
Definition setRange (range : Dot.Range) : JS.Eff State unit :=
  JS.modify (withRange range) ;; enableButtons.

Definition setMax (m : Q) : JS.Eff State unit :=
  JS.modify (withMax m) ;; enableButtons.

Definition constructor (options_step : Q) : JS.Eff State Closure :=
  s <- JS.get ;;
  let rangeLength := Dot.getLength (rangeProperty s) in
  enableButtons ;;
  JS.unit_ (mkClosure options_step rangeLength).

Variable this : Closure.

Definition back : JS.Eff State unit :=
  JS.modify (withIsPlaying false) ;;
  s <- JS.get ;;
  let max := ceil (Dot.max (rangeProperty s) - step this) in
  let min := max - rangeLength this in
  range <- JS.lift (Dot.newRange assertEnabled min max) ;;
  setRange range.

Definition forward : JS.Eff State unit :=
  s <- JS.get ;;
  let max := Qmin (maxProperty s) (floor (Dot.max (rangeProperty s) + step this)) in
  let min := max - rangeLength this in
  range <- JS.lift (Dot.newRange assertEnabled min max) ;;
  setRange range.

(** What can happen to the scroller: one of its buttons is pressed, or the
    owner of one of the three Properties sets it.  A number that is set to
    the value it has notifies no listener. *)
Inductive Action : Type :=
| PressBack
| PressForward
| RangeIsSet (range : Dot.Range)
| MaxIsSet (max : Q)
| IsPlayingIsSet (isPlaying : bool).

Definition act (a : Action) : JS.Eff State unit :=
  match a with
  | PressBack => back
  | PressForward => forward
  | RangeIsSet range => setRange range
  | MaxIsSet m =>
      s <- JS.get ;;
      if Qeq_bool (maxProperty s) m then JS.unit_ tt else setMax m
  | IsPlayingIsSet b => JS.modify (withIsPlaying b)
  end.

Fixpoint run (actions : list Action) (s : State) : State :=
  match actions with
  | [] => s
  | a :: rest => run rest (JS.after (act a) s)
  end.

End Callbacks.

(** The back button is enabled when the range starts after 0, the forward
    button when it ends before [maxProperty.value]. *)
Definition buttonsFollowRange (s : State) : Prop :=
  backButtonEnabled s = negb (Qle_bool (Dot.min (rangeProperty s)) 0) /\
  forwardButtonEnabled s = negb (Qle_bool (maxProperty s) (Dot.max (rangeProperty s))).

(** A number that is an integer. *)
Definition isInteger (q : Q) : Prop := exists n : Z, q == inject_Z n.

End PopulationGenerationScroller.

(* ------------------------------------------------------------------------- *)
(** ** NaturalSelectionScreenView: ending and restarting the simulation *)

Module NaturalSelectionScreenView.

(** Modelled from the spec: SimulationMode.js is not among the sources. The
    clock is staged, then active, then completed; the view names
    [SimulationMode.COMPLETED] and ProportionsModel names
    [SimulationMode.ACTIVE]. *)
Inductive SimulationMode : Type := STAGED | ACTIVE | COMPLETED.

Inductive GraphChoice : Type := POPULATION | PROPORTIONS | PEDIGREE.

Definition SimulationMode_eqb (a b : SimulationMode) : bool :=
  match a, b with
  | STAGED, STAGED | ACTIVE, ACTIVE | COMPLETED, COMPLETED => true
  | _, _ => false
  end.

Definition GraphChoice_eqb (a b : GraphChoice) : bool :=
  match a, b with
  | POPULATION, POPULATION | PROPORTIONS, PROPORTIONS | PEDIGREE, PEDIGREE => true
  | _, _ => false
  end.

(** The four controls that the simulation mode enables. *)
Record Controls : Type := mkControls {
  addMutationsPanelContentEnabled : bool;
  environmentalFactorsPanelContentEnabled : bool;
  timeControlNodeEnabled : bool;
  environmentRadioButtonGroupEnabled : bool
}.

Record Dialogs : Type := mkDialogs {
  diedDialogShowing : bool;
  worldDialogShowing : bool;
  memoryLimitDialogShowing : bool
}.

Record State : Type := mkState {
  simulationModeProperty : SimulationMode;  (* model.simulationModeProperty *)
  isPlayingProperty : bool;                 (* model.isPlayingProperty *)
  graphChoiceProperty : GraphChoice;
  populationNodeVisible : bool;
  proportionsNodeVisible : bool;
  pedigreeNodeVisible : bool;
  controls : Controls;
  dialogs : Dialogs;
  inputInterrupts : nat;       (* calls of interruptSubtreeInput *)
  bunniesMovedToGround : nat;  (* calls of bunnyCollection.moveBunniesToGround *)
  spriteUpdates : nat          (* calls of environmentNode.updateSprites *)
}.

Definition withMode (m : SimulationMode) (s : State) : State :=
  mkState m (isPlayingProperty s) (graphChoiceProperty s) (populationNodeVisible s)
          (proportionsNodeVisible s) (pedigreeNodeVisible s) (controls s) (dialogs s)
          (inputInterrupts s) (bunniesMovedToGround s) (spriteUpdates s).
Definition withIsPlaying (b : bool) (s : State) : State :=
  mkState (simulationModeProperty s) b (graphChoiceProperty s) (populationNodeVisible s)
          (proportionsNodeVisible s) (pedigreeNodeVisible s) (controls s) (dialogs s)
          (inputInterrupts s) (bunniesMovedToGround s) (spriteUpdates s).
Definition withGraph (g : GraphChoice) (pop prop ped : bool) (s : State) : State :=
  mkState (simulationModeProperty s) (isPlayingProperty s) g pop prop ped
          (controls s) (dialogs s)
          (inputInterrupts s) (bunniesMovedToGround s) (spriteUpdates s).
Definition withControls (c : Controls) (s : State) : State :=
  mkState (simulationModeProperty s) (isPlayingProperty s) (graphChoiceProperty s)
          (populationNodeVisible s) (proportionsNodeVisible s) (pedigreeNodeVisible s)
          c (dialogs s)
          (inputInterrupts s) (bunniesMovedToGround s) (spriteUpdates s).
Definition withDialogs (d : Dialogs) (s : State) : State :=
  mkState (simulationModeProperty s) (isPlayingProperty s) (graphChoiceProperty s)
          (populationNodeVisible s) (proportionsNodeVisible s) (pedigreeNodeVisible s)
          (controls s) d
          (inputInterrupts s) (bunniesMovedToGround s) (spriteUpdates s).
Definition withCounters (i b u : nat) (s : State) : State :=
  mkState (simulationModeProperty s) (isPlayingProperty s) (graphChoiceProperty s)
          (populationNodeVisible s) (proportionsNodeVisible s) (pedigreeNodeVisible s)
          (controls s) (dialogs s) i b u.

Local Open Scope js_scope.

Definition interruptSubtreeInput : JS.Eff State unit :=
  JS.modify (fun s => withCounters (S (inputInterrupts s)) (bunniesMovedToGround s)
                                   (spriteUpdates s) s).
Definition moveBunniesToGround : JS.Eff State unit :=
  JS.modify (fun s => withCounters (inputInterrupts s) (S (bunniesMovedToGround s))
                                   (spriteUpdates s) s).
Definition updateSprites : JS.Eff State unit :=
  JS.modify (fun s => withCounters (inputInterrupts s) (bunniesMovedToGround s)
                                   (S (spriteUpdates s)) s).

(** The listener linked to [graphChoiceProperty]. *)
Definition showGraph (graph : GraphChoice) : JS.Eff State unit :=
  JS.modify (withGraph graph (GraphChoice_eqb graph POPULATION)
                             (GraphChoice_eqb graph PROPORTIONS)
                             (GraphChoice_eqb graph PEDIGREE)).

Definition setGraphChoice (graph : GraphChoice) : JS.Eff State unit :=
  s <- JS.get ;;
  if GraphChoice_eqb (graphChoiceProperty s) graph then JS.unit_ tt
  else showGraph graph.

(** The listener linked to [model.simulationModeProperty]. *)
Definition enableControls (simulationMode : SimulationMode) : JS.Eff State unit :=
  let enabled := negb (SimulationMode_eqb simulationMode COMPLETED) in
  JS.modify (withControls (mkControls enabled enabled enabled enabled)).

(** [model.simulationModeProperty.value = mode]: listeners run when the
    value changes. *)
Definition setSimulationMode (mode : SimulationMode) : JS.Eff State unit :=
  s <- JS.get ;;
  if SimulationMode_eqb (simulationModeProperty s) mode then JS.unit_ tt
  else JS.modify (withMode mode) ;; enableControls mode.

Definition endSimulation : JS.Eff State unit :=
  interruptSubtreeInput ;;
  setSimulationMode COMPLETED ;;
  moveBunniesToGround ;;
  updateSprites.

Definition showDied : JS.Eff State unit :=
  JS.modify (fun s => withDialogs (mkDialogs true (worldDialogShowing (dialogs s))
                                             (memoryLimitDialogShowing (dialogs s))) s).
Definition showWorld : JS.Eff State unit :=
  JS.modify (fun s => withDialogs (mkDialogs (diedDialogShowing (dialogs s)) true
                                             (memoryLimitDialogShowing (dialogs s))) s).
Definition showMemoryLimit : JS.Eff State unit :=
  JS.modify (fun s => withDialogs (mkDialogs (diedDialogShowing (dialogs s))
                                             (worldDialogShowing (dialogs s)) true) s).

(** The listeners of the three emitters of the model. *)
Definition allBunniesHaveDied : JS.Eff State unit := endSimulation ;; showDied.
Definition bunniesHaveTakenOverTheWorld : JS.Eff State unit := endSimulation ;; showWorld.
Definition memoryLimit : JS.Eff State unit := endSimulation ;; showMemoryLimit.

(** [reset()] and [step( dt )] of the view. *)
Definition reset : JS.Eff State unit := setGraphChoice POPULATION.

(** NaturalSelectionModel.js is not among the sources.  What a method of the
    model does to the view goes through the two Properties of the model that
    the view reads: a call of [model.reset()] or [model.startOver()] is the
    list of the values it writes to them, in the order it writes them. *)
Inductive ModelWrite : Type :=
| WriteSimulationMode (mode : SimulationMode)
| WriteIsPlaying (isPlaying : bool).

Definition modelWrite (w : ModelWrite) : JS.Eff State unit :=
  match w with
  | WriteSimulationMode mode => setSimulationMode mode
  | WriteIsPlaying isPlaying => JS.modify (withIsPlaying isPlaying)
  end.

Fixpoint modelWrites (writes : list ModelWrite) : JS.Eff State unit :=
  match writes with
  | [] => JS.unit_ tt
  | w :: rest => modelWrite w ;; modelWrites rest
  end.

(** Lines 457-462, the listener of the Reset All button. *)
Definition resetAllListener (model_reset : list ModelWrite) : JS.Eff State unit :=
  interruptSubtreeInput ;;
  modelWrites model_reset ;;
  reset.

(** Lines 484-490, the callback of the Start Over button; the time that
    [model.startOver()] took goes to [timeToStartOverProperty], which only
    the performance display reads. *)
Definition startOver (model_startOver : list ModelWrite) : JS.Eff State unit :=
  interruptSubtreeInput ;;
  modelWrites model_startOver.

Definition step : JS.Eff State unit :=
  s <- JS.get ;;
  if isPlayingProperty s then updateSprites else JS.unit_ tt.

(** The part of the constructor that the listeners above belong to: the
    graph choice starts at POPULATION, and both links call their listener
    at once. *)
Definition constructor (mode : SimulationMode) (isPlaying : bool) : State :=
  let s0 := mkState mode isPlaying POPULATION false false false
                    (mkControls true true true true)
                    (mkDialogs false false false) 0 0 0 in
  JS.after (showGraph POPULATION ;; enableControls mode) s0.

(** What can happen to the view: one of the three terminal events of the
    model fires, the model moves the simulation mode or the play state, the
    view is reset or stepped, the user picks a graph, presses Reset All or
    presses Start Over.  The callback of Add a Mate (line 480) only calls the
    model: what the model writes then are writes of the model. *)
Inductive Event : Type :=
| AllBunniesHaveDied
| BunniesHaveTakenOverTheWorld
| MemoryLimit
| ModelSetsSimulationMode (mode : SimulationMode)
| ModelSetsIsPlaying (isPlaying : bool)
| UserPicksGraph (graph : GraphChoice)
| ResetView
| StepView
| ResetAllPressed (model_reset : list ModelWrite)
| StartOverPressed (model_startOver : list ModelWrite).

Definition isTerminal (e : Event) : bool :=
  match e with
  | AllBunniesHaveDied | BunniesHaveTakenOverTheWorld | MemoryLimit => true
  | _ => false
  end.

Definition handle (e : Event) : JS.Eff State unit :=
  match e with
  | AllBunniesHaveDied => allBunniesHaveDied
  | BunniesHaveTakenOverTheWorld => bunniesHaveTakenOverTheWorld
  | MemoryLimit => memoryLimit
  | ModelSetsSimulationMode mode => setSimulationMode mode
  | ModelSetsIsPlaying b => JS.modify (withIsPlaying b)
  | UserPicksGraph graph => setGraphChoice graph
  | ResetView => reset
  | StepView => step
  | ResetAllPressed model_reset => resetAllListener model_reset
  | StartOverPressed model_startOver => startOver model_startOver
  end.

Fixpoint run (events : list Event) (s : State) : State :=
  match events with
  | [] => s
  | e :: rest => run rest (JS.after (handle e) s)
  end.

Definition allDisabled (c : Controls) : Prop :=
  addMutationsPanelContentEnabled c = false /\
  environmentalFactorsPanelContentEnabled c = false /\
  timeControlNodeEnabled c = false /\
  environmentRadioButtonGroupEnabled c = false.

Definition allEnabled (c : Controls) : Prop :=
  addMutationsPanelContentEnabled c = true /\
  environmentalFactorsPanelContentEnabled c = true /\
  timeControlNodeEnabled c = true /\
  environmentRadioButtonGroupEnabled c = true.

(** The controls are enabled exactly when the mode is not COMPLETED. *)
Definition controlsFollowMode (s : State) : Prop :=
  controls s =
  let enabled := negb (SimulationMode_eqb (simulationModeProperty s) COMPLETED) in
  mkControls enabled enabled enabled enabled.

(** The graphs that are visible. *)
Definition visibleGraphs (s : State) : list GraphChoice :=
  ((if populationNodeVisible s then [POPULATION] else []) ++
   (if proportionsNodeVisible s then [PROPORTIONS] else []) ++
   (if pedigreeNodeVisible s then [PEDIGREE] else []))%list.

(** The terminal events among the events, and the steps among them. *)
Definition terminalEvents (events : list Event) : list Event := filter isTerminal events.

Definition isStep (e : Event) : bool :=
  match e with StepView => true | _ => false end.

(** The presses of Reset All and of Start Over. *)
Definition isRestart (e : Event) : bool :=
  match e with ResetAllPressed _ | StartOverPressed _ => true | _ => false end.

(** The simulation modes that the model writes in an event, in the order
    it writes them. *)
Definition modesWritten (writes : list ModelWrite) : list SimulationMode :=
  flat_map (fun w => match w with
                     | WriteSimulationMode mode => [mode]
                     | WriteIsPlaying _ => []
                     end) writes.

Definition modelModes (e : Event) : list SimulationMode :=
  match e with
  | ModelSetsSimulationMode mode => [mode]
  | ResetAllPressed model_reset => modesWritten model_reset
  | StartOverPressed model_startOver => modesWritten model_startOver
  | _ => []
  end.

End NaturalSelectionScreenView.

(* ------------------------------------------------------------------------- *)
(** ** ProportionsModel, the ledger behind the Proportions graph *)

Module ProportionsModel.

(** Modelled from the spec: NaturalSelectionUtils.isNonNegativeInteger is not
    among the sources; a generation number is a non-negative integer. *)
Definition isNonNegativeInteger (value : Z) : bool := (0 <=? value)%Z.

Section Model.

(** BunnyCounts.js is not among the sources.  A value of [BunnyCounts] is
    an instance of that class, [===] on instances is the decidable
    equality, and [withZero] is what [BunnyCounts.withZero()] returns. *)
Variable BunnyCounts : Type.
Variable BunnyCounts_eq_dec : forall a b : BunnyCounts, {a = b} + {a <> b}.
Variable withZero : BunnyCounts.

Variable assertEnabled : bool.

Local Open Scope js_scope.
Local Open Scope Z_scope.

(** *** ProportionsCounts

    A start count is [None] for JavaScript's [null]; the constructor only
    rejects it when assertions run. *)
Record ProportionsCounts : Type := mkProportionsCounts {
  generation : Z;
  startCounts : option BunnyCounts;
  endCounts : BunnyCounts
}.

Definition instanceofBunnyCounts (v : option BunnyCounts) : bool :=
  match v with Some _ => true | None => false end.

Definition newProportionsCounts (generation : Z) (startCounts : option BunnyCounts)
           (endCounts : BunnyCounts) : JS.result ProportionsCounts :=
  _ <-? JS.assert assertEnabled (isNonNegativeInteger generation) "invalid generation" ;
  _ <-? JS.assert assertEnabled (instanceofBunnyCounts startCounts) "invalid startCounts" ;
  _ <-? JS.assert assertEnabled (instanceofBunnyCounts (Some endCounts)) "invalid endCounts" ;
  JS.ret (mkProportionsCounts generation startCounts endCounts).

(** *** The state: three Properties of the environment, and the model's own *)
Record State : Type := mkState {
  liveBunnyCountsProperty : BunnyCounts;
  clockGenerationProperty : nat;
  isPlayingProperty : bool;
  valuesVisibleProperty : bool;
  proportionsGenerationProperty : Z;
  proportionsGenerationRange : Dot.Range;
  startCountsProperty : option BunnyCounts;
  endCountsProperty : BunnyCounts;
  currentStartCountsProperty : option BunnyCounts;
  previousCounts : list ProportionsCounts;
  furVisibleProperty : bool;
  earsVisibleProperty : bool;
  teethVisibleProperty : bool;
  (* liveBunnyCountsProperty.hasListener( updateEndCounts ) *)
  updateEndCountsLinked : bool
}.

Definition withLive (v : BunnyCounts) (s : State) : State :=
  mkState v (clockGenerationProperty s) (isPlayingProperty s) (valuesVisibleProperty s)
    (proportionsGenerationProperty s) (proportionsGenerationRange s)
    (startCountsProperty s) (endCountsProperty s) (currentStartCountsProperty s)
    (previousCounts s) (furVisibleProperty s) (earsVisibleProperty s)
    (teethVisibleProperty s) (updateEndCountsLinked s).
Definition withClock (v : nat) (s : State) : State :=
  mkState (liveBunnyCountsProperty s) v (isPlayingProperty s) (valuesVisibleProperty s)
    (proportionsGenerationProperty s) (proportionsGenerationRange s)
    (startCountsProperty s) (endCountsProperty s) (currentStartCountsProperty s)
    (previousCounts s) (furVisibleProperty s) (earsVisibleProperty s)
    (teethVisibleProperty s) (updateEndCountsLinked s).
Definition withIsPlaying (v : bool) (s : State) : State :=
  mkState (liveBunnyCountsProperty s) (clockGenerationProperty s) v (valuesVisibleProperty s)
    (proportionsGenerationProperty s) (proportionsGenerationRange s)
    (startCountsProperty s) (endCountsProperty s) (currentStartCountsProperty s)
    (previousCounts s) (furVisibleProperty s) (earsVisibleProperty s)
    (teethVisibleProperty s) (updateEndCountsLinked s).
Definition withVisible (values fur ears teeth : bool) (s : State) : State :=
  mkState (liveBunnyCountsProperty s) (clockGenerationProperty s) (isPlayingProperty s)
    values
    (proportionsGenerationProperty s) (proportionsGenerationRange s)
    (startCountsProperty s) (endCountsProperty s) (currentStartCountsProperty s)
    (previousCounts s) fur ears teeth (updateEndCountsLinked s).
Definition withProportionsGeneration (v : Z) (r : Dot.Range) (s : State) : State :=
  mkState (liveBunnyCountsProperty s) (clockGenerationProperty s) (isPlayingProperty s)
    (valuesVisibleProperty s) v r
    (startCountsProperty s) (endCountsProperty s) (currentStartCountsProperty s)
    (previousCounts s) (furVisibleProperty s) (earsVisibleProperty s)
    (teethVisibleProperty s) (updateEndCountsLinked s).
Definition withStartCounts (v : option BunnyCounts) (s : State) : State :=
  mkState (liveBunnyCountsProperty s) (clockGenerationProperty s) (isPlayingProperty s)
    (valuesVisibleProperty s)
    (proportionsGenerationProperty s) (proportionsGenerationRange s)
    v (endCountsProperty s) (currentStartCountsProperty s)
    (previousCounts s) (furVisibleProperty s) (earsVisibleProperty s)
    (teethVisibleProperty s) (updateEndCountsLinked s).
Definition withEndCounts (v : BunnyCounts) (s : State) : State :=
  mkState (liveBunnyCountsProperty s) (clockGenerationProperty s) (isPlayingProperty s)
    (valuesVisibleProperty s)
    (proportionsGenerationProperty s) (proportionsGenerationRange s)
    (startCountsProperty s) v (currentStartCountsProperty s)
    (previousCounts s) (furVisibleProperty s) (earsVisibleProperty s)
    (teethVisibleProperty s) (updateEndCountsLinked s).
Definition withCurrentStartCounts (v : option BunnyCounts) (s : State) : State :=
  mkState (liveBunnyCountsProperty s) (clockGenerationProperty s) (isPlayingProperty s)
    (valuesVisibleProperty s)
    (proportionsGenerationProperty s) (proportionsGenerationRange s)
    (startCountsProperty s) (endCountsProperty s) v
    (previousCounts s) (furVisibleProperty s) (earsVisibleProperty s)
    (teethVisibleProperty s) (updateEndCountsLinked s).
Definition withPreviousCounts (v : list ProportionsCounts) (s : State) : State :=
  mkState (liveBunnyCountsProperty s) (clockGenerationProperty s) (isPlayingProperty s)
    (valuesVisibleProperty s)
    (proportionsGenerationProperty s) (proportionsGenerationRange s)
    (startCountsProperty s) (endCountsProperty s) (currentStartCountsProperty s)
    v (furVisibleProperty s) (earsVisibleProperty s)
    (teethVisibleProperty s) (updateEndCountsLinked s).
Definition withLinked (v : bool) (s : State) : State :=
  mkState (liveBunnyCountsProperty s) (clockGenerationProperty s) (isPlayingProperty s)
    (valuesVisibleProperty s)
    (proportionsGenerationProperty s) (proportionsGenerationRange s)
    (startCountsProperty s) (endCountsProperty s) (currentStartCountsProperty s)
    (previousCounts s) (furVisibleProperty s) (earsVisibleProperty s)
    (teethVisibleProperty s) v.

(** [===] on a nullable BunnyCounts. *)
Definition sameCounts (a b : option BunnyCounts) : bool :=
  match a, b with
  | Some x, Some y => if BunnyCounts_eq_dec x y then true else false
  | None, None => true
  | _, _ => false
  end.

(** *** The two DerivedProperties *)
Definition clockGeneration (s : State) : Z := Z.of_nat (clockGenerationProperty s).

Definition isDisplayingCurrentGenerationProperty (s : State) : bool :=
  proportionsGenerationProperty s =? clockGeneration s.

Definition hasDataProperty (s : State) : bool :=
  instanceofBunnyCounts (currentStartCountsProperty s).

(** [previousCounts[ i ]]: [undefined] outside the array. *)
Definition previousCountsAt (s : State) (i : Z) : option ProportionsCounts :=
  if i <? 0 then None else nth_error (previousCounts s) (Z.to_nat i).

(** *** axon's Property, as far as the model uses it

    [property.value = v] stores [v] and calls the listeners when [v] is
    not the value held. *)
Definition setProperty {A} (same : A -> A -> bool) (read : State -> A)
           (write : A -> State -> State) (listeners : JS.Eff State unit) (v : A)
  : JS.Eff State unit :=
  s <- JS.get ;;
  if same (read s) v then JS.unit_ tt
  else JS.modify (write v) ;; listeners.

(** [startCountsProperty.value = v]; the Property has
    [valueType: BunnyCounts], which is validated when assertions run. *)
Definition setStartCounts (v : option BunnyCounts) : JS.Eff State unit :=
  JS.modify (withStartCounts v) ;;
  JS.lift (JS.assert assertEnabled (instanceofBunnyCounts v) "invalid value for valueType").

(** [NumberProperty.setValueAndRange( value, range )]: both are stored,
    then the listeners of the value run if the value changed. *)
Definition setValueAndRange (listeners : JS.Eff State unit) (value : Z) (range : Dot.Range)
  : JS.Eff State unit :=
  JS.lift (JS.assert assertEnabled (Dot.contains range (inject_Z value))
                     "value is not in range") ;;
  s <- JS.get ;;
  JS.modify (withProportionsGeneration value range) ;;
  if proportionsGenerationProperty s =? value then JS.unit_ tt else listeners.

(** *** The listeners of the constructor *)

(** Lines 129-135: when the sim starts playing or the clock's generation
    changes, show the current generation. *)
Definition showCurrentGeneration (setValueAndRange : Z -> Dot.Range -> JS.Eff State unit)
  : JS.Eff State unit :=
  s <- JS.get ;;
  if isPlayingProperty s
  then range <- JS.lift (Dot.newRange assertEnabled 0 (inject_Z (clockGeneration s))) ;;
       setValueAndRange (clockGeneration s) range
  else JS.unit_ tt.

(** Lines 109-114: pause the sim when another generation than the current
    one is viewed.  [isPlayingListeners] are the listeners of
    [isPlayingProperty] at that moment. *)
Definition pauseUnlessCurrent (isPlayingListeners : JS.Eff State unit)
  : JS.Eff State unit :=
  s <- JS.get ;;
  if negb (proportionsGenerationProperty s =? clockGeneration s)
  then setProperty Bool.eqb isPlayingProperty withIsPlaying isPlayingListeners false
  else JS.unit_ tt.

(** Lines 137-139. *)
Definition updateEndCounts : JS.Eff State unit :=
  JS.modify (fun s => withEndCounts (liveBunnyCountsProperty s) s).

(** Lines 141-176: decide what data to display. *)
Definition determineDisplayedData : JS.Eff State unit :=
  s <- JS.get ;;
  (if updateEndCountsLinked s then JS.modify (withLinked false) else JS.unit_ tt) ;;
  match currentStartCountsProperty s with
  | Some currentStartCounts =>
      if proportionsGenerationProperty s =? clockGeneration s
      then
        setStartCounts (Some currentStartCounts) ;;
        (* link: the listener is added and called at once *)
        JS.modify (withLinked true) ;;
        updateEndCounts
      else
        match previousCountsAt s (proportionsGenerationProperty s) with
        | None => JS.raise (JS.TypeError "counts is undefined")
        | Some counts =>
            JS.lift (JS.assert assertEnabled
                       (generation counts =? proportionsGenerationProperty s)
                       "unexpected generation") ;;
            setStartCounts (startCounts counts) ;;
            JS.modify (withEndCounts (endCounts counts))
        end
  | None =>
      setStartCounts (Some withZero) ;;
      JS.modify (withEndCounts withZero)
  end.

(** *** The wiring of listeners

    Setting the play state from the pausing listener notifies
    [showCurrentGeneration], which does nothing for [false]; the setter it
    is given is where axon would detect a reentrant notification. *)
Definition reentry (_ : Z) (_ : Dot.Range) : JS.Eff State unit :=
  JS.raise (JS.AssertionFailed "reentry detected").

Definition proportionsGenerationListeners : JS.Eff State unit :=
  pauseUnlessCurrent (showCurrentGeneration reentry) ;;
  determineDisplayedData.

Definition isPlayingListeners : JS.Eff State unit :=
  showCurrentGeneration (setValueAndRange proportionsGenerationListeners).

Definition clockGenerationListeners : JS.Eff State unit :=
  showCurrentGeneration (setValueAndRange proportionsGenerationListeners).

Definition currentStartCountsListeners : JS.Eff State unit :=
  determineDisplayedData.

Definition liveBunnyCountsListeners : JS.Eff State unit :=
  s <- JS.get ;;
  if updateEndCountsLinked s then updateEndCounts else JS.unit_ tt.

(** *** The constructor

    The listeners are called as they are linked: the pausing one before
    the other two exist. *)
Definition constructor (liveBunnyCounts : BunnyCounts) (clockGeneration : nat)
           (isPlaying : bool) : JS.result unit * State :=
  let s0 := mkState liveBunnyCounts clockGeneration isPlaying true
                    0 (Dot.mkRange 0 0) (Some withZero) withZero None []
                    true true true false in
  (pauseUnlessCurrent (JS.unit_ tt) ;;
   showCurrentGeneration (setValueAndRange (pauseUnlessCurrent (JS.unit_ tt))) ;;
   determineDisplayedData) s0.

(** *** The methods *)

Definition reset : JS.Eff State unit :=
  JS.modify (fun s => withVisible true (furVisibleProperty s) (earsVisibleProperty s)
                                  (teethVisibleProperty s) s) ;;
  setValueAndRange proportionsGenerationListeners 0 (Dot.mkRange 0 0) ;;
  setStartCounts (Some withZero) ;;
  JS.modify (withEndCounts withZero) ;;
  setProperty sameCounts currentStartCountsProperty withCurrentStartCounts
              currentStartCountsListeners None ;;
  JS.modify (withPreviousCounts []) ;;
  JS.modify (fun s => withVisible (valuesVisibleProperty s) true true true s).

Definition recordStartCounts (clockGeneration' : Z) (startCounts : BunnyCounts)
  : JS.Eff State unit :=
  JS.lift (JS.assert assertEnabled (isNonNegativeInteger clockGeneration')
                     "invalid clockGeneration") ;;
  JS.lift (JS.assert assertEnabled (instanceofBunnyCounts (Some startCounts))
                     "invalid startCounts") ;;
  s <- JS.get ;;
  JS.lift (JS.assert assertEnabled (clockGeneration' =? clockGeneration s)
                     "is not the current generation") ;;
  setProperty sameCounts currentStartCountsProperty withCurrentStartCounts
              currentStartCountsListeners (Some startCounts).

Definition recordEndCounts (generation : Z) (endCounts : BunnyCounts)
  : JS.Eff State unit :=
  JS.lift (JS.assert assertEnabled (isNonNegativeInteger generation)
                     "invalid generation") ;;
  JS.lift (JS.assert assertEnabled (instanceofBunnyCounts (Some endCounts))
                     "invalid endCounts") ;;
  s <- JS.get ;;
  JS.lift (JS.assert assertEnabled (generation =? clockGeneration s - 1)
                     "is not the previous generation") ;;
  JS.lift (JS.assert assertEnabled (Z.of_nat (List.length (previousCounts s)) =? generation)
                     "unexpected generation") ;;
  let startCounts := currentStartCountsProperty s in
  counts <- JS.lift (newProportionsCounts generation startCounts endCounts) ;;
  JS.modify (fun s => withPreviousCounts (previousCounts s ++ [counts])%list s).

(** *** Everything that can be done to the model *)
Inductive Call : Type :=
| CallRecordStartCounts (generation : Z) (startCounts : BunnyCounts)
| CallRecordEndCounts (generation : Z) (endCounts : BunnyCounts)
| CallReset
| ClockGenerationChanges (clockGeneration : nat)
| IsPlayingChanges (isPlaying : bool)
| LiveBunnyCountsChange (liveBunnyCounts : BunnyCounts)
| ProportionsGenerationChanges (proportionsGeneration : Z)
| VisibilityChanges (values fur ears teeth : bool).

Definition perform (c : Call) : JS.Eff State unit :=
  match c with
  | CallRecordStartCounts g startCounts => recordStartCounts g startCounts
  | CallRecordEndCounts g endCounts => recordEndCounts g endCounts
  | CallReset => reset
  | ClockGenerationChanges n =>
      setProperty Nat.eqb clockGenerationProperty withClock clockGenerationListeners n
  | IsPlayingChanges b =>
      setProperty Bool.eqb isPlayingProperty withIsPlaying isPlayingListeners b
  | LiveBunnyCountsChange c =>
      setProperty (fun a b => sameCounts (Some a) (Some b)) liveBunnyCountsProperty
                  withLive liveBunnyCountsListeners c
  | ProportionsGenerationChanges g =>
      setProperty Z.eqb proportionsGenerationProperty
                  (fun v s => withProportionsGeneration v (proportionsGenerationRange s) s)
                  proportionsGenerationListeners g
  | VisibilityChanges values fur ears teeth =>
      JS.modify (withVisible values fur ears teeth)
  end.

(** A run of calls, each started in the state the one before left behind,
    whether that one returned or threw.  Next to the state the run keeps
    the generations whose [recordEndCounts] returned since the ledger was
    last cleared. *)
Definition completedAfter (c : Call) (outcome : JS.result unit) (completed : list Z)
  : list Z :=
  match c, outcome with
  | CallRecordEndCounts g _, inr _ => (completed ++ [g])%list
  | CallReset, inr _ => []
  | _, _ => completed
  end.

Fixpoint run (calls : list Call) (s : State) (completed : list Z) : State * list Z :=
  match calls with
  | [] => (s, completed)
  | c :: rest =>
      let (outcome, s') := perform c s in
      run rest s' (completedAfter c outcome completed)
  end.

Definition history (s : State) : list ProportionsCounts := previousCounts s.

(** The ledger has one place for start counts, [currentStartCountsProperty].
    A run can also keep the start record that was stored last, with the
    generation it was given for: [recordStartCounts] stores its counts at
    line 225 when the checks of lines 221-223 pass or do not run, whether or
    not a listener throws afterwards, and a [reset] that returns clears the
    place. *)
Definition passesStartChecks (generation : Z) (s : State) : bool :=
  negb assertEnabled ||
  (isNonNegativeInteger generation && (generation =? clockGeneration s)).

Definition startAfter (c : Call) (s : State) (outcome : JS.result unit)
           (latest : option (Z * BunnyCounts)) : option (Z * BunnyCounts) :=
  match c, outcome with
  | CallRecordStartCounts g startCounts, _ =>
      if passesStartChecks g s then Some (g, startCounts) else latest
  | CallReset, inr _ => None
  | _, _ => latest
  end.

Fixpoint latestStart (calls : list Call) (s : State) (latest : option (Z * BunnyCounts))
  : option (Z * BunnyCounts) :=
  match calls with
  | [] => latest
  | c :: rest =>
      let (outcome, s') := perform c s in
      latestStart rest s' (startAfter c s outcome latest)
  end.

(** A state is reachable when calls lead to it from a constructed model. *)
Definition reachable (s : State) : Prop :=
  exists liveBunnyCounts clockGeneration isPlaying calls completed,
    run calls (snd (constructor liveBunnyCounts clockGeneration isPlaying)) []
    = (s, completed).

(** *** Predicates and traces that the statements below use *)

(** While the sim plays, the graph shows the clock's generation. *)
Definition playingShowsCurrent (s : State) : Prop :=
  isPlayingProperty s = true ->
  proportionsGenerationProperty s = clockGeneration s.

(** The generation numbers of the records, in the order of the array. *)
Definition generations (s : State) : list Z := map generation (previousCounts s).

(** [0, 1, ..., n-1] *)
Definition upTo (n : nat) : list Z := map Z.of_nat (seq 0 n).

(** Every record sits at the index of its generation and has start
    counts. *)
Definition recordsWellFormed (s : State) : Prop :=
  forall i counts,
    nth_error (previousCounts s) i = Some counts ->
    generation counts = Z.of_nat i /\ startCounts counts <> None.

(** While [updateEndCounts] is linked, the display shows the current start
    counts and the live counts. *)
Definition liveDisplay (s : State) : Prop :=
  updateEndCountsLinked s = true ->
  endCountsProperty s = liveBunnyCountsProperty s /\
  currentStartCountsProperty s <> None /\
  startCountsProperty s = currentStartCountsProperty s.

(** The display is the one that [determineDisplayedData] decides for the
    displayed generation and the current start counts of the state: on the
    clock's generation the current start counts and the live counts, kept up
    to date by the linked listener; on another generation the start and end
    counts of its record. *)
Definition displayDecided (s : State) : Prop :=
  match currentStartCountsProperty s with
  | None => True
  | Some current =>
      if proportionsGenerationProperty s =? clockGeneration s
      then startCountsProperty s = Some current /\
           endCountsProperty s = liveBunnyCountsProperty s /\
           updateEndCountsLinked s = true
      else exists counts,
             previousCountsAt s (proportionsGenerationProperty s) = Some counts /\
             startCountsProperty s = startCounts counts /\
             endCountsProperty s = endCounts counts /\
             updateEndCountsLinked s = false
  end.



(** The states from which [reset] is shown to return. *)
Definition resetSafe (s : State) : Prop :=
  proportionsGenerationProperty s = 0 \/
  currentStartCountsProperty s = None \/
  clockGenerationProperty s = 0%nat \/
  exists counts,
    nth_error (previousCounts s) 0 = Some counts /\
    (assertEnabled = true -> generation counts = 0 /\ startCounts counts <> None).

(** Without data the graph shows the zero counts, and the listener of the
    live counts is not linked. *)
Definition noDataDisplay (s : State) : Prop :=
  currentStartCountsProperty s = None ->
  startCountsProperty s = Some withZero /\
  endCountsProperty s = withZero /\
  updateEndCountsLinked s = false.

(** While the sim plays, the displayed generation ranges from 0 to the
    clock's generation. *)
Definition playingRange (s : State) : Prop :=
  isPlayingProperty s = true ->
  proportionsGenerationRange s = Dot.mkRange 0 (inject_Z (clockGeneration s)).

(** A ledger with a record has start counts. *)
Definition historyHasData (s : State) : Prop :=
  previousCounts s <> [] -> currentStartCountsProperty s <> None.


(** [n] generations pass: the clock moves on and the end counts of the
    generation that ended are recorded. *)
Fixpoint boundaries (n : nat) (counts : BunnyCounts) : list Call :=
  match n with
  | O => []
  | S k => (boundaries k counts ++
            [ClockGenerationChanges (S k); CallRecordEndCounts (Z.of_nat k) counts])%list
  end.

Definition manyGenerations (n : nat) (counts : BunnyCounts) : list Call :=
  CallRecordStartCounts 0 counts :: boundaries n counts.

End Model.

Arguments withLive {BunnyCounts} v s /.
Arguments withClock {BunnyCounts} v s /.
Arguments withIsPlaying {BunnyCounts} v s /.
Arguments withVisible {BunnyCounts} values fur ears teeth s /.
Arguments withProportionsGeneration {BunnyCounts} v r s /.
Arguments withStartCounts {BunnyCounts} v s /.
Arguments withEndCounts {BunnyCounts} v s /.
Arguments withCurrentStartCounts {BunnyCounts} v s /.
Arguments withPreviousCounts {BunnyCounts} v s /.
Arguments withLinked {BunnyCounts} v s /.
Arguments clockGeneration {BunnyCounts} s /.
Arguments CallReset {BunnyCounts}.
Arguments ClockGenerationChanges {BunnyCounts} clockGeneration.
Arguments IsPlayingChanges {BunnyCounts} isPlaying.
Arguments ProportionsGenerationChanges {BunnyCounts} proportionsGeneration.
Arguments VisibilityChanges {BunnyCounts} values fur ears teeth.

End ProportionsModel.

(* ------------------------------------------------------------------------- *)
(** ** PedigreeBranchNode, a branch of the Pedigree graph *)

Module PedigreeBranchNode.

Definition PARENTS_SCALE : Q := 9 # 10.
Definition DEFAULT_X_SPACING : Q := 156.
Definition DEFAULT_Y_SPACING : Q := 68.
Definition X_SPACING_SCALE : Q := 55 # 100.
Definition T_HEIGHT : Q := 16.
Definition T_X_OFFSET : Q := 28.
Definition T_Y_OFFSET : Q := 14.

Section Branch.

(** Bunny.js is not among the sources.  A value of [Bunny] is an instance
    of that class, [father] and [mother] read its two fields, which are null
    for a bunny without parents, and [===] on instances is the decidable
    equality. *)
Variable Bunny : Type.
Variable Bunny_eq_dec : forall a b : Bunny, {a = b} + {a <> b}.
Variable father : Bunny -> option Bunny.
Variable mother : Bunny -> option Bunny.

(** PedigreeBunnyNode.js is not among the sources either: a bunny node is
    what the constructor is called with, and scenery lays it out, which
    gives it a [centerX] and a [bottom]. *)
Record PedigreeBunnyNode : Type := mkPedigreeBunnyNode {
  bunny : Bunny;
  bunnyIsSelected : bool
}.
Variable centerX : PedigreeBunnyNode -> Q.
Variable bottom : PedigreeBunnyNode -> Q.

(** The options that a caller can pass; [None] is a missing key. *)
Record ProvidedOptions : Type := mkProvidedOptions {
  provided_xSpacing : option Q;
  provided_ySpacing : option Q;
  provided_scale : option Q;
  provided_x : option Q;
  provided_bottom : option Q
}.

Definition noOptions : ProvidedOptions := mkProvidedOptions None None None None None.

(** [merge( { xSpacing: DEFAULT_X_SPACING, ySpacing: DEFAULT_Y_SPACING }, options )]. *)
Record Options : Type := mkOptions {
  xSpacing : Q;
  ySpacing : Q;
  scale : option Q;
  x : option Q;
  bottom_ : option Q
}.

Definition merge (options : ProvidedOptions) : Options :=
  mkOptions
    (match provided_xSpacing options with Some v => v | None => DEFAULT_X_SPACING end)
    (match provided_ySpacing options with Some v => v | None => DEFAULT_Y_SPACING end)
    (provided_scale options) (provided_x options) (provided_bottom options).

(** The T that joins a child to its parents: two strokes, each from a
    [moveTo] to a [lineTo]. *)
Record Shape : Type := mkShape {
  barFrom : Q * Q;
  barTo : Q * Q;
  stemFrom : Q * Q;
  stemTo : Q * Q
}.

(** A constructed branch: its options and its children, which are the
    bunny node alone, or the bunny node, the branches of the father and of
    the mother, and the T. *)
Inductive Node : Type :=
| Alone (options : Options) (bunnyNode : PedigreeBunnyNode)
| WithParents (options : Options) (bunnyNode : PedigreeBunnyNode)
              (fatherNode motherNode : Node) (tShape : Shape).

Definition optionsOf (node : Node) : Options :=
  match node with
  | Alone options _ => options
  | WithParents options _ _ _ _ => options
  end.

(** [node.x] is the x that the options gave the node, 0 without one. *)
Definition nodeX (node : Node) : Q :=
  match x (optionsOf node) with Some v => v | None => 0 end.

(** [node.y] comes out of scenery's layout of a node that was given its
    [bottom]. *)
Variable nodeY : Node -> Q.

(** [selectedBunnyProperty.value === bunny]; the value is null when no
    bunny is selected. *)
Definition isSelected (selectedBunny : option Bunny) (bunny : Bunny) : bool :=
  match selectedBunny with
  | Some selected => if Bunny_eq_dec selected bunny then true else false
  | None => false
  end.

(** The constructor.  [branchDepth] is a natural number here: the callers
    pass the depth of the tree.  [branchDepth > 1] is the case of a
    successor of a successor, and the parents get [branchDepth - 1]. *)
Fixpoint constructor (branchDepth : nat) (bunny : Bunny) (selectedBunny : option Bunny)
         (providedOptions : ProvidedOptions) : Node :=
  let options := merge providedOptions in
  let bunnyNode := mkPedigreeBunnyNode bunny (isSelected selectedBunny bunny) in
  match branchDepth with
  | S (S _ as parentsDepth) =>
      match father bunny, mother bunny with
      | Some bunnyFather, Some bunnyMother =>
          let fatherNode :=
            constructor parentsDepth bunnyFather selectedBunny
              (mkProvidedOptions (Some (X_SPACING_SCALE * xSpacing options)) None
                 (Some PARENTS_SCALE)
                 (Some (centerX bunnyNode - xSpacing options))
                 (Some (bottom bunnyNode - ySpacing options))) in
          let motherNode :=
            constructor parentsDepth bunnyMother selectedBunny
              (mkProvidedOptions (Some (X_SPACING_SCALE * xSpacing options)) None
                 (Some PARENTS_SCALE)
                 (Some (centerX bunnyNode + xSpacing options))
                 (Some (bottom bunnyNode - ySpacing options))) in
          let tShape :=
            mkShape
              (nodeX fatherNode + T_X_OFFSET, nodeY fatherNode - T_Y_OFFSET)
              (nodeX motherNode - T_X_OFFSET, nodeY fatherNode - T_Y_OFFSET)
              (centerX bunnyNode, nodeY fatherNode - T_Y_OFFSET)
              (centerX bunnyNode, nodeY fatherNode - T_Y_OFFSET + T_HEIGHT) in
          WithParents options bunnyNode fatherNode motherNode tShape
      | _, _ => Alone options bunnyNode
      end
  | _ => Alone options bunnyNode
  end.

(** [dispose()]: the bunny nodes that are disposed, in that order. *)
Fixpoint dispose (node : Node) : list PedigreeBunnyNode :=
  match node with
  | Alone _ bunnyNode => [bunnyNode]
  | WithParents _ bunnyNode fatherNode motherNode _ =>
      (bunnyNode :: dispose fatherNode ++ dispose motherNode)%list
  end.

(** *** What the statements below speak of *)

(** The branches [level] generations above the bunny of a branch. *)
Fixpoint branchesAt (level : nat) (node : Node) : list Node :=
  match level with
  | O => [node]
  | S above =>
      match node with
      | Alone _ _ => []
      | WithParents _ _ fatherNode motherNode _ =>
          (branchesAt above fatherNode ++ branchesAt above motherNode)%list
      end
  end.

(** The ancestors of a bunny, [generations] generations up: the bunnies
    that [father] and [mother] lead to. *)
Fixpoint ancestor (generations : nat) (bunny ancestorBunny : Bunny) : Prop :=
  match generations with
  | O => ancestorBunny = bunny
  | S above =>
      exists parent,
        (father bunny = Some parent \/ mother bunny = Some parent) /\
        ancestor above parent ancestorBunny
  end.

(** The ancestors that a branch reaches: the bunny itself, and through a
    bunny that has both parents the ancestors that its father and its mother
    reach. *)
Fixpoint shownAncestor (generations : nat) (bunny ancestorBunny : Bunny) : Prop :=
  match generations with
  | O => ancestorBunny = bunny
  | S above =>
      exists bunnyFather bunnyMother,
        father bunny = Some bunnyFather /\ mother bunny = Some bunnyMother /\
        (shownAncestor above bunnyFather ancestorBunny \/
         shownAncestor above bunnyMother ancestorBunny)
  end.

End Branch.

End PedigreeBranchNode.

(* ------------------------------------------------------------------------- *)
(** ** ProportionsBarNode, a bar of the Proportions graph *)

Module ProportionsBarNode.

(** A JavaScript number that may be NaN: [None] is NaN.  The counts are
    natural numbers, so that the only division by zero is 0 / 0. *)
Definition Number : Type := option Q.

(** [value > 0] and [value < 1]: false for NaN. *)
Definition greaterThanZero (value : Number) : bool :=
  match value with Some q => negb (Qle_bool q 0) | None => false end.

Definition lessThanOne (value : Number) : bool :=
  match value with Some q => negb (Qle_bool 1 q) | None => false end.

(** [Math.round]: to the nearest integer, a half upwards. *)
Definition Math_round (q : Q) : Z := Qfloor (q + (1 # 2)).

(** dot's [Utils.roundSymmetric]:
    [( ( value < 0 ) ? -1 : 1 ) * Math.round( Math.abs( value ) )]. *)
Definition roundSymmetric (value : Number) : option Z :=
  match value with
  | Some q => Some ((if negb (Qle_bool 0 q) then -1 else 1) * Math_round (Qabs q))%Z
  | None => None
  end.

(** The text of a percentage node: one of the three patterns of the
    strings file with its value filled in, or the empty string that the
    node is created with. *)
Inductive PercentageText : Type :=
| emptyText
| greaterThanValuePercent (value : Z)
| lessThanValuePercent (value : Z)
| valuePercent (value : option Z).

Record State : Type := mkState {
  barWidth : Q;
  normalCount : nat;
  mutantCount : nat;
  valuesVisibleProperty : bool;
  normalRectangleVisible : bool;
  mutantRectangleVisible : bool;
  mutantRectangleRectWidth : Number;
  normalPercentageNodeVisible : bool;
  mutantPercentageNodeVisible : bool;
  normalPercentageNodeText : PercentageText;
  mutantPercentageNodeText : PercentageText
}.

Definition withCounts (normal mutant : nat) (s : State) : State :=
  mkState (barWidth s) normal mutant (valuesVisibleProperty s)
          (normalRectangleVisible s) (mutantRectangleVisible s)
          (mutantRectangleRectWidth s)
          (normalPercentageNodeVisible s) (mutantPercentageNodeVisible s)
          (normalPercentageNodeText s) (mutantPercentageNodeText s).
Definition withValuesVisible (visible : bool) (s : State) : State :=
  mkState (barWidth s) (normalCount s) (mutantCount s) visible
          (normalRectangleVisible s) (mutantRectangleVisible s)
          (mutantRectangleRectWidth s)
          (normalPercentageNodeVisible s) (mutantPercentageNodeVisible s)
          (normalPercentageNodeText s) (mutantPercentageNodeText s).
Definition withVisible (normalRectangle mutantRectangle normalPercentage mutantPercentage : bool)
           (s : State) : State :=
  mkState (barWidth s) (normalCount s) (mutantCount s) (valuesVisibleProperty s)
          normalRectangle mutantRectangle (mutantRectangleRectWidth s)
          normalPercentage mutantPercentage
          (normalPercentageNodeText s) (mutantPercentageNodeText s).
Definition withBar (rectWidth : Number) (normalText mutantText : PercentageText)
           (s : State) : State :=
  mkState (barWidth s) (normalCount s) (mutantCount s) (valuesVisibleProperty s)
          (normalRectangleVisible s) (mutantRectangleVisible s) rectWidth
          (normalPercentageNodeVisible s) (mutantPercentageNodeVisible s)
          normalText mutantText.

Section Methods.
Variable assertEnabled : bool.
Local Open Scope js_scope.

(** [100 * count / total]; [total] is the sum of the two counts, and 0 only
    when [count] is 0 too. *)
Definition percentage (count total : nat) : Number :=
  match total with
  | O => None
  | S _ => Some (100 * inject_Z (Z.of_nat count) / inject_Z (Z.of_nat total))
  end.

(** [setCounts( normalCount, mutantCount )], up to the width of the mutant
    rectangle and the two texts.  What follows in the source places the
    rectangle and the texts, from their bounds in scenery, and is left out;
    it writes none of the fields here. *)
Definition setCounts (normalCount mutantCount : nat) : JS.Eff State unit :=
  JS.lift (JS.assert assertEnabled
             (ProportionsModel.isNonNegativeInteger (Z.of_nat normalCount))
             "invalid normalCount") ;;
  JS.lift (JS.assert assertEnabled
             (ProportionsModel.isNonNegativeInteger (Z.of_nat mutantCount))
             "invalid mutantCount") ;;
  JS.modify (withCounts normalCount mutantCount) ;;
  let total := (normalCount + mutantCount)%nat in
  let normalPercentage := percentage normalCount total in
  let mutantPercentage := percentage mutantCount total in
  s <- JS.get ;;
  JS.modify (withVisible
               (greaterThanZero normalPercentage)
               (greaterThanZero mutantPercentage)
               (valuesVisibleProperty s && greaterThanZero normalPercentage)
               (valuesVisibleProperty s && greaterThanZero mutantPercentage)) ;;
  s <- JS.get ;;
  if greaterThanZero mutantPercentage && lessThanOne mutantPercentage
  then JS.modify (withBar (Some ((1 # 100) * barWidth s))
                          (greaterThanValuePercent 99) (lessThanValuePercent 1))
  else if greaterThanZero normalPercentage && lessThanOne normalPercentage
  then JS.modify (withBar (Some ((99 # 100) * barWidth s))
                          (lessThanValuePercent 1) (greaterThanValuePercent 99))
  else
    let rectWidth : Number :=
      if mutantRectangleVisible s
      then match roundSymmetric mutantPercentage with
           | Some rounded => Some (inject_Z rounded / 100 * barWidth s)
           | None => None
           end
      else Some 1 in
    JS.modify (withBar rectWidth
                       (valuePercent (roundSymmetric normalPercentage))
                       (valuePercent (roundSymmetric mutantPercentage))).

(** The listener linked to [valuesVisibleProperty]. *)
Definition valuesVisibleListener : JS.Eff State unit :=
  s <- JS.get ;;
  setCounts (normalCount s) (mutantCount s).

(** The constructor: both rectangles are created as wide as the bar and
    visible, the texts empty, and linking the listener calls it. *)
Definition constructor (normalCount mutantCount : nat) (valuesVisible : bool)
           (options_barWidth : Q) : JS.result unit * State :=
  (JS.lift (JS.assert assertEnabled
              (ProportionsModel.isNonNegativeInteger (Z.of_nat normalCount))
              "invalid normalCount") ;;
   JS.lift (JS.assert assertEnabled
              (ProportionsModel.isNonNegativeInteger (Z.of_nat mutantCount))
              "invalid mutantCount") ;;
   valuesVisibleListener)
    (mkState options_barWidth normalCount mutantCount valuesVisible
             true true (Some options_barWidth) true true emptyText emptyText).

(** [valuesVisibleProperty.value = visible]. *)
Definition setValuesVisible (visible : bool) : JS.Eff State unit :=
  s <- JS.get ;;
  if Bool.eqb (valuesVisibleProperty s) visible then JS.unit_ tt
  else JS.modify (withValuesVisible visible) ;; valuesVisibleListener.

Definition dispose : JS.result unit :=
  JS.assert assertEnabled false "dispose is not supported, exists for the lifetime of the sim".

End Methods.

(** The percentage that a text shows, where it shows one. *)
Definition shownPercent (text : PercentageText) : option Z :=
  match text with
  | valuePercent (Some value) => Some value
  | _ => None
  end.

End ProportionsBarNode.

(* ------------------------------------------------------------------------- *)
(** ** AllelesPanel, the rows of the alleles of the Pedigree graph *)

Module AllelesPanel.

Section Panel.

(** Gene.js and Allele.js are not among the sources.  A value of [Gene] or
    [Allele] is an instance, [===] on instances is the decidable equality,
    [normalAllele] and [mutantAllele] read the two fields of a gene, and
    [image] the field of an allele. *)
Variable Gene : Type.
Variable Gene_eq_dec : forall a b : Gene, {a = b} + {a <> b}.
Variable Allele : Type.
Variable Allele_eq_dec : forall a b : Allele, {a = b} + {a <> b}.
Variable Image : Type.
Variable normalAllele : Gene -> Allele.
Variable mutantAllele : Gene -> Allele.
Variable image : Allele -> Image.

(** [NaturalSelectionQueryParameters.allelesVisible]. *)
Variable allelesVisible : bool.

Variable assertEnabled : bool.

Local Open Scope js_scope.

(** A row, with the Property of its checkbox, [visibleProperty]. *)
Record Row : Type := mkRow {
  gene : Gene;
  visible : bool;
  visibleProperty : bool;
  checkboxEnabled : bool;
  hBoxVisible : bool;
  dominantAlleleNodeImage : Image;
  recessiveAlleleNodeImage : Image
}.

Definition withVisible (v : bool) (row : Row) : Row :=
  mkRow (gene row) v (visibleProperty row) (checkboxEnabled row) (hBoxVisible row)
        (dominantAlleleNodeImage row) (recessiveAlleleNodeImage row).
Definition withVisibleProperty (v : bool) (row : Row) : Row :=
  mkRow (gene row) (visible row) v (checkboxEnabled row) (hBoxVisible row)
        (dominantAlleleNodeImage row) (recessiveAlleleNodeImage row).
Definition withMutation (hasMutation : bool) (row : Row) : Row :=
  mkRow (gene row) (visible row) (visibleProperty row) hasMutation hasMutation
        (dominantAlleleNodeImage row) (recessiveAlleleNodeImage row).
Definition withImages (dominant recessive : Image) (row : Row) : Row :=
  mkRow (gene row) (visible row) (visibleProperty row) (checkboxEnabled row)
        (hBoxVisible row) dominant recessive.

(** The listener linked to [gene.dominantAlleleProperty], whose value is
    null until the gene has mutated.  [isSettingPhetioState] is the value of
    [phet.joist.sim.isSettingPhetioStateProperty] at the call. *)
Definition dominantAlleleListener (isSettingPhetioState : bool)
           (dominantAllele : option Allele) (row : Row) : Row :=
  let hasMutation := match dominantAllele with Some _ => true | None => false end in
  let row := withMutation hasMutation row in
  let row := if negb isSettingPhetioState then withVisibleProperty hasMutation row
             else row in
  match dominantAllele with
  | Some dominant =>
      let mutantIsDominant :=
        if Allele_eq_dec dominant (mutantAllele (gene row)) then true else false in
      withImages
        (if mutantIsDominant then image (mutantAllele (gene row))
         else image (normalAllele (gene row)))
        (if mutantIsDominant then image (normalAllele (gene row))
         else image (mutantAllele (gene row)))
        row
  | None => row
  end.

(** The constructor of a row: the checkbox and the icons are created
    enabled and visible, the dominant icon with the image of the normal
    allele; the listener is linked, and so called, only with the query
    parameter. *)
Definition newRow (gene : Gene) (visibleProperty : bool)
           (isSettingPhetioState : bool) (dominantAllele : option Allele) : Row :=
  let row := mkRow gene true visibleProperty true true
                   (image (normalAllele gene)) (image (mutantAllele gene)) in
  if allelesVisible then dominantAlleleListener isSettingPhetioState dominantAllele row
  else row.

(** The dominant allele of the gene of a row changes, one value after the
    other, each with the state of [isSettingPhetioStateProperty] then. *)
Fixpoint dominantAlleleChanges (changes : list (bool * option Allele)) (row : Row) : Row :=
  match changes with
  | [] => row
  | (isSettingPhetioState, dominantAllele) :: rest =>
      dominantAlleleChanges rest
        (if allelesVisible
         then dominantAlleleListener isSettingPhetioState dominantAllele row
         else row)
  end.

(** [this.rows] of the panel. *)
Definition Rows : Type := list Row.

(** The rows of the constructor, for the genes of the gene pool. *)
Definition constructor (furGene earsGene teethGene : Gene)
           (furAllelesVisible earsAllelesVisible teethAllelesVisible : bool)
           (isSettingPhetioState : bool)
           (furDominant earsDominant teethDominant : option Allele) : Rows :=
  [newRow furGene furAllelesVisible isSettingPhetioState furDominant;
   newRow earsGene earsAllelesVisible isSettingPhetioState earsDominant;
   newRow teethGene teethAllelesVisible isSettingPhetioState teethDominant].

(** [_.find( this.rows, row => ( row.gene === gene ) )] *)
Definition findRow (g : Gene) (rows : Rows) : option Row :=
  List.find (fun row => if Gene_eq_dec (gene row) g then true else false) rows.

(** [row.visible = visible] on the row that [_.find] returned, the first
    one of the gene. *)
Fixpoint setVisibleOfFirst (g : Gene) (v : bool) (rows : Rows) : Rows :=
  match rows with
  | [] => []
  | row :: rest =>
      if Gene_eq_dec (gene row) g then withVisible v row :: rest
      else row :: setVisibleOfFirst g v rest
  end.

Definition setGeneVisible (g : Gene) (v : bool) : JS.Eff Rows unit :=
  rows <- JS.get ;;
  let row := findRow g rows in
  JS.lift (JS.assert assertEnabled
             (match row with Some _ => true | None => false end)
             "row not found for gene") ;;
  match row with
  | Some _ => JS.modify (setVisibleOfFirst g v)
  | None => JS.raise (JS.TypeError "Cannot set properties of undefined")
  end.

Definition dispose : JS.result unit :=
  JS.assert assertEnabled false "dispose is not supported, exists for the lifetime of the sim".

(** *** What the statements below speak of *)

(** The allele of a gene that a dominant allele leaves as the recessive
    one. *)
Definition recessiveTo (g : Gene) (dominant : Allele) : Allele :=
  if Allele_eq_dec dominant (mutantAllele g) then normalAllele g else mutantAllele g.

(** The last dominant allele that was not null, if there was one. *)
Fixpoint lastMutation (changes : list (bool * option Allele)) (before : option Allele)
  : option Allele :=
  match changes with
  | [] => before
  | (_, Some dominant) :: rest => lastMutation rest (Some dominant)
  | (_, None) :: rest => lastMutation rest before
  end.

(** What a row shows for the value of the dominant-allele Property and the
    last mutation of its gene. *)
Definition shows (g : Gene) (row : Row) (current lastOne : option Allele) : Prop :=
  gene row = g /\ visible row = true /\
  checkboxEnabled row = (match current with Some _ => true | None => false end) /\
  hBoxVisible row = (match current with Some _ => true | None => false end) /\
  match lastOne with
  | Some dominant =>
      dominantAlleleNodeImage row = image dominant /\
      recessiveAlleleNodeImage row = image (recessiveTo g dominant)
  | None =>
      dominantAlleleNodeImage row = image (normalAllele g) /\
      recessiveAlleleNodeImage row = image (mutantAllele g)
  end.

End Panel.

End AllelesPanel.

(* ------------------------------------------------------------------------- *)
(** ** Two states of the ledger, used as examples

    In the examples a BunnyCounts instance is a natural number, and the zero
    counts are 0. *)

(** A model constructed at generation 0, not playing, in which the start
    counts of generation 0 are recorded and the clock has moved to 1. *)
Definition afterFirstGeneration : ProportionsModel.State nat :=
  fst (ProportionsModel.run Nat.eq_dec 0%nat true
         [ProportionsModel.CallRecordStartCounts 0 5%nat;
          ProportionsModel.ClockGenerationChanges 1]
         (snd (ProportionsModel.constructor 0%nat true 0%nat 0 false)) []).

(** Then the end counts of generation 0 and the start counts of generation 1
    are recorded and the live counts change, while the graph is still on
    generation 0. *)
Definition viewingGenerationZero : ProportionsModel.State nat :=
  fst (ProportionsModel.run Nat.eq_dec 0%nat true
         [ProportionsModel.CallRecordStartCounts 0 5%nat;
          ProportionsModel.ClockGenerationChanges 1;
          ProportionsModel.CallRecordEndCounts 0 4%nat;
          ProportionsModel.CallRecordStartCounts 1 4%nat;
          ProportionsModel.LiveBunnyCountsChange 3%nat]
         (snd (ProportionsModel.constructor 0%nat true 0%nat 0 false)) []).

(* ========================================================================= *)
(** * Properties *)

Unset Implicit Arguments.

(** One step of a case analysis: the innermost test of the goal. *)
Ltac case_step :=
  match goal with
  | |- context [match ?x with _ => _ end] =>
      lazymatch x with
      | context [match _ with _ => _ end] => fail
      | _ => destruct x eqn:?
      end
  end.

(** Checks that hold pass, whether assertions run or not. *)
Lemma assert_true (assertEnabled c : bool) (msg : string) :
  c = true -> JS.assert assertEnabled c msg = inr tt.
Proof. intros ->. unfold JS.assert. destruct assertEnabled; reflexivity. Qed.

Lemma Qle_bool_and (a b c : Q) : a <= b <= c -> Qle_bool a b && Qle_bool b c = true.
Proof.
  intros [H1 H2]. apply andb_true_intro. split; apply Qle_bool_iff; assumption.
Qed.

Lemma last_cons (A : Type) (l : list A) (a d : A) : last (a :: l) d = last l a.
Proof.
  revert a d. induction l as [|b l IH]; intros a d; [reflexivity|].
  change (last (a :: b :: l) d) with (last (b :: l) d). rewrite !IH. reflexivity.
Qed.

(* ------------------------------------------------------------------------- *)
(** ** The projection of the ground *)

Section TransformFacts.
Import EnvironmentModelViewTransform.
Variable assertEnabled : bool.

(** On the ground of the view, the depth is [64500 / (120 + yView)]. *)
Lemma viewToModelZ_value (yView : Q) :
  yHorizonView constructor <= yView <= height (viewSize constructor) ->
  exists zModel,
    viewToModelZ assertEnabled constructor yView = inr zModel /\
    zModel == 64500 / (120 + yView).
Proof.
  intros H. unfold viewToModelZ.
  rewrite (assert_true _ _ _ (Qle_bool_and _ _ _ H)). cbn in *.
  eexists. split; [reflexivity|]. field. split; lra.
Qed.

(** That depth lies between the near and the far plane, which is what
    [getGroundY] asserts. *)
Lemma groundZ_bounds (yView zModel : Q) :
  95 <= yView <= 310 -> zModel == 64500 / (120 + yView) -> 150 <= zModel <= 300.
Proof.
  intros [H1 H2] ->. split.
  - apply Qle_shift_div_l; lra.
  - apply Qle_shift_div_r; lra.
Qed.

(** C8. For a view point on the ground, [0 <= xView <= viewSize.width] and
    [yHorizonView <= yView <= viewSize.height], [viewToModelGroundPosition]
    returns a position (none of its assertions fails), and [modelToViewX]
    and [modelToViewY] take that position back to [xView] and [yView], as
    rational numbers. *)
Theorem ground_round_trip (xView yView : Q) :
  0 <= xView <= width (viewSize constructor) ->
  yHorizonView constructor <= yView <= height (viewSize constructor) ->
  exists position xView' yView',
    viewToModelGroundPosition assertEnabled constructor xView yView = inr position /\
    modelToViewX assertEnabled constructor position = inr xView' /\
    modelToViewY assertEnabled constructor position = inr yView' /\
    xView' == xView /\ yView' == yView.
Proof.
  intros Hx Hy.
  destruct (viewToModelZ_value yView Hy) as (zModel & HzEq & Hz).
  assert (Hb : 150 <= zModel <= 300)
    by (apply (groundZ_bounds yView); [exact Hy | exact Hz]).
  unfold viewToModelGroundPosition.
  rewrite (assert_true _ _ _ (Qle_bool_and _ _ _ Hx)), (assert_true _ _ _ (Qle_bool_and _ _ _ Hy)).
  cbn [JS.bind]. rewrite HzEq. cbn [JS.bind].
  unfold getGroundY. rewrite (assert_true _ _ _ (Qle_bool_and _ _ _ Hb)). cbn [JS.bind JS.ret].
  assert (Hnz : ~ zModel == 0)
    by (intro E; destruct Hb as [Hb1 Hb2]; rewrite E in Hb1; lra).
  assert (Hnzb : negb (Qeq_bool zModel 0) = true).
  { apply negb_true_iff. destruct (Qeq_bool zModel 0) eqn:E; [|reflexivity].
    apply Qeq_bool_iff in E. contradiction. }
  do 3 eexists. split; [reflexivity|].
  unfold modelToViewX, modelToViewY. cbn [z x y].
  rewrite !(assert_true _ _ _ Hnzb). cbn [JS.bind JS.ret].
  split; [reflexivity|]. split; [reflexivity|].
  unfold viewToModelX. cbn. split.
  - field. exact Hnz.
  - rewrite Hz. field. cbn in Hy. destruct Hy as [Hy1 Hy2]. intro E. lra.
Qed.

End TransformFacts.

(** The round trip at the view point (100, 200), with assertions running. *)
Lemma ground_round_trip_witness :
  exists position xView' yView',
    EnvironmentModelViewTransform.viewToModelGroundPosition true
      EnvironmentModelViewTransform.constructor 100 200 = inr position /\
    EnvironmentModelViewTransform.modelToViewX true
      EnvironmentModelViewTransform.constructor position = inr xView' /\
    EnvironmentModelViewTransform.modelToViewY true
      EnvironmentModelViewTransform.constructor position = inr yView' /\
    xView' == 100 /\ yView' == 200.
Proof.
  apply (ground_round_trip true 100 200); cbn; split; lra.
Defined.

(* ------------------------------------------------------------------------- *)
(** ** The scroller of the Population graph *)

Section ScrollerFacts.
Import PopulationGenerationScroller.
Variable assertEnabled : bool.

(** A range that ends [length] after it starts can be constructed when
    [length] is not negative. *)
Lemma newRange_of_length (hi length : Q) :
  0 <= length ->
  Dot.newRange assertEnabled (hi - length) hi = inr (Dot.mkRange (hi - length) hi).
Proof.
  intros H. unfold Dot.newRange.
  rewrite assert_true; [reflexivity|]. apply Qle_bool_iff. lra.
Qed.

(** C10. The scroller is constructed on a range whose [min] is at most its
    [max].  In whatever state a button is pressed later, the back and the
    forward callback return and leave in [rangeProperty] a range of the
    length that the range had at construction; the forward callback leaves
    its [max] at or below [maxProperty.value]. *)
Theorem scroller_keeps_range_length
        (options_step : Q) (s0 s1 : State) (this : Closure) (s : State) :
  Dot.min (rangeProperty s0) <= Dot.max (rangeProperty s0) ->
  constructor options_step s0 = (inr this, s1) ->
  (fst (back assertEnabled this s) = inr tt /\
   Dot.getLength (rangeProperty (JS.after (back assertEnabled this) s))
   == Dot.getLength (rangeProperty s0)) /\
  (fst (forward assertEnabled this s) = inr tt /\
   Dot.getLength (rangeProperty (JS.after (forward assertEnabled this) s))
   == Dot.getLength (rangeProperty s0) /\
   Dot.max (rangeProperty (JS.after (forward assertEnabled this) s)) <= maxProperty s /\
   maxProperty (JS.after (forward assertEnabled this) s) = maxProperty s).
Proof.
  intros Hvalid Hctor.
  unfold constructor, JS.seq, JS.get, enableButtons, JS.modify, JS.unit_ in Hctor.
  injection Hctor as Hthis _. subst this.
  assert (Hlen : 0 <= Dot.getLength (rangeProperty s0))
    by (unfold Dot.getLength; lra).
  split.
  - unfold back, JS.after, JS.seq, JS.modify, JS.get, JS.lift. cbn [rangeLength step].
    rewrite (newRange_of_length _ _ Hlen).
    unfold setRange, JS.seq, JS.modify, enableButtons. cbn.
    split; [reflexivity|]. unfold Dot.getLength. cbn. ring.
  - unfold forward, JS.after, JS.seq, JS.modify, JS.get, JS.lift. cbn [rangeLength step].
    rewrite (newRange_of_length _ _ Hlen).
    unfold setRange, JS.seq, JS.modify, enableButtons. cbn.
    split; [reflexivity|]. split; [unfold Dot.getLength; cbn; ring|].
    split; [apply Q.le_min_l | reflexivity].
Qed.

End ScrollerFacts.

(** The scroller on the range [0, 5] with step 1: scrolled from the range
    [7/2, 17/2] while the clock is at 8. *)
Lemma scroller_keeps_range_length_witness :
  let s0 := PopulationGenerationScroller.mkState (Dot.mkRange 0 5) 0 true false false in
  let s := PopulationGenerationScroller.mkState (Dot.mkRange (7 # 2) (17 # 2)) 8 true true false in
  let this := PopulationGenerationScroller.mkClosure 1 (5 - 0) in
  Dot.getLength
    (PopulationGenerationScroller.rangeProperty
       (JS.after (PopulationGenerationScroller.back true this) s)) == 5 - 0 /\
  Dot.max
    (PopulationGenerationScroller.rangeProperty
       (JS.after (PopulationGenerationScroller.forward true this) s)) <= 8.
Proof.
  intros s0 s this.
  assert (Hvalid : Dot.min (PopulationGenerationScroller.rangeProperty s0)
                   <= Dot.max (PopulationGenerationScroller.rangeProperty s0))
    by (cbn; lra).
  assert (Hctor : PopulationGenerationScroller.constructor 1 s0
                  = (inr this, JS.after (PopulationGenerationScroller.constructor 1) s0))
    by reflexivity.
  destruct (scroller_keeps_range_length true 1 s0 _ this s Hvalid Hctor)
    as [[_ Hback] [_ [_ [Hforward _]]]].
  split; [exact Hback | exact Hforward].
Defined.

(* ------------------------------------------------------------------------- *)
(** ** The end of the simulation *)

Section ScreenViewFacts.
Import NaturalSelectionScreenView.

Lemma constructor_controlsFollowMode (mode : SimulationMode) (isPlaying : bool) :
  controlsFollowMode (constructor mode isPlaying).
Proof. destruct mode; reflexivity. Qed.

Ltac view_cases :=
  unfold handle, allBunniesHaveDied, bunniesHaveTakenOverTheWorld, memoryLimit,
    endSimulation, setSimulationMode, enableControls, setGraphChoice, showGraph,
    reset, step, showDied, showWorld, showMemoryLimit, interruptSubtreeInput,
    moveBunniesToGround, updateSprites,
    JS.after, JS.seq, JS.get, JS.modify, JS.unit_;
  cbn; repeat (case_step; cbn).

(** What the writes of the model leave behind: the mode written last, and
    the view's own state as it was, but for the controls, which follow the
    mode. *)
Lemma modelWrites_effects (writes : list ModelWrite) :
  forall s : State,
    let s' := JS.after (modelWrites writes) s in
    modelWrites writes s = (inr tt, s') /\
    (controlsFollowMode s -> controlsFollowMode s') /\
    simulationModeProperty s' = last (modesWritten writes) (simulationModeProperty s) /\
    (modesWritten writes = [] -> controls s' = controls s) /\
    graphChoiceProperty s' = graphChoiceProperty s /\
    populationNodeVisible s' = populationNodeVisible s /\
    proportionsNodeVisible s' = proportionsNodeVisible s /\
    pedigreeNodeVisible s' = pedigreeNodeVisible s /\
    dialogs s' = dialogs s /\
    inputInterrupts s' = inputInterrupts s /\
    bunniesMovedToGround s' = bunniesMovedToGround s /\
    spriteUpdates s' = spriteUpdates s.
Proof.
  induction writes as [|w writes IH]; intros s; cbn zeta.
  - cbn. repeat split; auto.
  - assert (Hw : exists s1,
               modelWrite w s = (inr tt, s1) /\
               (controlsFollowMode s -> controlsFollowMode s1) /\
               simulationModeProperty s1
               = last (modesWritten [w]) (simulationModeProperty s) /\
               (modesWritten [w] = [] -> controls s1 = controls s) /\
               graphChoiceProperty s1 = graphChoiceProperty s /\
               populationNodeVisible s1 = populationNodeVisible s /\
               proportionsNodeVisible s1 = proportionsNodeVisible s /\
               pedigreeNodeVisible s1 = pedigreeNodeVisible s /\
               dialogs s1 = dialogs s /\
               inputInterrupts s1 = inputInterrupts s /\
               bunniesMovedToGround s1 = bunniesMovedToGround s /\
               spriteUpdates s1 = spriteUpdates s).
    { unfold controlsFollowMode.
      destruct w as [mode | isPlaying];
        unfold modelWrite, setSimulationMode, enableControls,
          JS.seq, JS.get, JS.modify, JS.unit_; cbn.
      - destruct (SimulationMode_eqb (simulationModeProperty s) mode) eqn:E; cbn;
          eexists; (split; [reflexivity|]); cbn.
        + repeat split; auto; try discriminate.
          destruct (simulationModeProperty s), mode; try discriminate E; reflexivity.
        + repeat split; auto; discriminate.
      - eexists; (split; [reflexivity|]); cbn. repeat split; auto. }
    destruct Hw as (s1 & Hret & Hc & Hm & Hk & Hg & Hv1 & Hv2 & Hv3 & Hd & Hi & Hb & Hu).
    specialize (IH s1). cbn zeta in IH.
    destruct IH as (IHret & IHc & IHm & IHk & IHg & IHv1 & IHv2 & IHv3 & IHd & IHi & IHb & IHu).
    assert (Eafter : JS.after (modelWrites (w :: writes)) s = JS.after (modelWrites writes) s1).
    { unfold JS.after. cbn [modelWrites]. unfold JS.seq at 1. rewrite Hret. reflexivity. }
    rewrite Eafter.
    split.
    { cbn [modelWrites]. unfold JS.seq at 1. rewrite Hret. exact IHret. }
    split; [auto|].
    split.
    { rewrite IHm, Hm. unfold modesWritten.
      destruct w as [mode | isPlaying]; cbn [flat_map app].
      - rewrite !last_cons. reflexivity.
      - reflexivity. }
    split.
    { intros Hnone. destruct w as [mode | isPlaying]; [discriminate Hnone|].
      rewrite IHk by exact Hnone. apply Hk. reflexivity. }
    repeat split; congruence.
Qed.

(** A press of Reset All or of Start Over, step by step. *)
Lemma resetAll_steps (writes : list ModelWrite) (s : State) :
  handle (ResetAllPressed writes) s
  = reset (JS.after (modelWrites writes) (JS.after interruptSubtreeInput s)).
Proof.
  destruct (modelWrites_effects writes (JS.after interruptSubtreeInput s)) as (E & _).
  set (s1 := JS.after (modelWrites writes) (JS.after interruptSubtreeInput s)) in *.
  unfold handle, resetAllListener. unfold JS.seq at 1.
  change (interruptSubtreeInput s) with (inr tt : JS.result unit, JS.after interruptSubtreeInput s).
  unfold JS.seq at 1. rewrite E. reflexivity.
Qed.

Lemma startOver_steps (writes : list ModelWrite) (s : State) :
  handle (StartOverPressed writes) s
  = (inr tt, JS.after (modelWrites writes) (JS.after interruptSubtreeInput s)).
Proof.
  destruct (modelWrites_effects writes (JS.after interruptSubtreeInput s)) as (E & _).
  set (s1 := JS.after (modelWrites writes) (JS.after interruptSubtreeInput s)) in *.
  unfold handle, startOver. unfold JS.seq at 1.
  change (interruptSubtreeInput s) with (inr tt : JS.result unit, JS.after interruptSubtreeInput s).
  exact E.
Qed.

Lemma resetAll_after (writes : list ModelWrite) (s : State) :
  JS.after (handle (ResetAllPressed writes)) s
  = JS.after reset
      (JS.after (modelWrites writes) (JS.after interruptSubtreeInput s)).
Proof. unfold JS.after at 1. rewrite resetAll_steps. reflexivity. Qed.

Lemma startOver_after (writes : list ModelWrite) (s : State) :
  JS.after (handle (StartOverPressed writes)) s
  = JS.after (modelWrites writes) (JS.after interruptSubtreeInput s).
Proof. unfold JS.after at 1. rewrite startOver_steps. reflexivity. Qed.


Lemma handle_controlsFollowMode (e : Event) (s : State) :
  controlsFollowMode s -> controlsFollowMode (JS.after (handle e) s).
Proof.
  intros H.
  destruct e as [ | | | mode | b | graph | | | writes | writes ].
  9: { rewrite resetAll_after.
       destruct (modelWrites_effects writes (JS.after interruptSubtreeInput s))
         as (_ & Hc & _).
       specialize (Hc H). revert Hc.
       generalize (JS.after (modelWrites writes) (JS.after interruptSubtreeInput s)).
       intros s1 Hc. unfold controlsFollowMode in *. view_cases; exact Hc. }
  9: { rewrite startOver_after.
       apply (modelWrites_effects writes (JS.after interruptSubtreeInput s)). exact H. }
  all: unfold controlsFollowMode in *; view_cases; try exact H; try reflexivity.
  all: try (destruct mode; try reflexivity).
  all: try (destruct (simulationModeProperty s); try reflexivity; discriminate).
  all: match goal with
       | Hq : SimulationMode_eqb _ _ = _ |- _ => rewrite Hq; exact H
       end.
Qed.

Lemma run_controlsFollowMode (events : list Event) (s : State) :
  controlsFollowMode s -> controlsFollowMode (run events s).
Proof.
  revert s. induction events as [|e events IH]; intros s H; cbn.
  - exact H.
  - apply IH, handle_controlsFollowMode, H.
Qed.

Lemma completed_allDisabled (s : State) :
  controlsFollowMode s -> simulationModeProperty s = COMPLETED -> allDisabled (controls s).
Proof.
  unfold controlsFollowMode. intros -> ->. repeat split.
Qed.


(** The mode after an event: COMPLETED after a terminal event, else the
    mode that the model wrote last in the event, else the mode before. *)
Lemma handle_mode (e : Event) (s : State) :
  simulationModeProperty (JS.after (handle e) s)
  = if isTerminal e then COMPLETED
    else last (modelModes e) (simulationModeProperty s).
Proof.
  destruct e as [ | | | mode | b | graph | | | writes | writes ].
  9: { rewrite resetAll_after.
       destruct (modelWrites_effects writes (JS.after interruptSubtreeInput s))
         as (_ & _ & Hm & _).
       change (simulationModeProperty (JS.after interruptSubtreeInput s))
         with (simulationModeProperty s) in Hm.
       cbn [isTerminal modelModes]. rewrite <- Hm.
       generalize (JS.after (modelWrites writes) (JS.after interruptSubtreeInput s)).
       intros s1. view_cases; reflexivity. }
  9: { rewrite startOver_after.
       destruct (modelWrites_effects writes (JS.after interruptSubtreeInput s))
         as (_ & _ & Hm & _).
       change (simulationModeProperty (JS.after interruptSubtreeInput s))
         with (simulationModeProperty s) in Hm.
       cbn [isTerminal modelModes]. rewrite Hm. reflexivity. }
  all: view_cases; try reflexivity.
  all: try (destruct (simulationModeProperty s); try reflexivity; discriminate).
  all: destruct (simulationModeProperty s), mode; try reflexivity; discriminate.
Qed.





End ScreenViewFacts.



(* ------------------------------------------------------------------------- *)
(** ** The ledger *)

Lemma zero_le_generation (n : nat) : Qle_bool 0 (inject_Z (Z.of_nat n)) = true.
Proof.
  apply Qle_bool_iff. change 0 with (inject_Z 0). rewrite <- Zle_Qle. lia.
Qed.

Lemma Qle_bool_refl (q : Q) : Qle_bool q q = true.
Proof. apply Qle_bool_iff. apply Qle_refl. Qed.

Section LedgerFacts.
Import ProportionsModel.
Variable BunnyCounts : Type.
Variable BunnyCounts_eq_dec : forall a b : BunnyCounts, {a = b} + {a <> b}.
Variable withZero : BunnyCounts.

Local Abbreviation State := (State BunnyCounts).
Local Abbreviation Call := (Call BunnyCounts).
Local Abbreviation perform := (perform BunnyCounts_eq_dec withZero).
Local Abbreviation run := (run BunnyCounts_eq_dec withZero).
Local Abbreviation constructor := (constructor withZero).
Local Abbreviation reachable := (reachable BunnyCounts_eq_dec withZero).
Local Abbreviation sameCounts := (sameCounts BunnyCounts_eq_dec).
Local Abbreviation latestStart := (latestStart BunnyCounts_eq_dec withZero).

Lemma sameCounts_true (a b : option BunnyCounts) : sameCounts a b = true -> a = b.
Proof.
  destruct a as [x|], b as [y|]; cbn; try discriminate; try reflexivity.
  destruct (BunnyCounts_eq_dec x y); [congruence | discriminate].
Qed.

Lemma sameCounts_false (a b : option BunnyCounts) : sameCounts a b = false -> a <> b.
Proof.
  destruct a as [x|], b as [y|]; cbn; try discriminate; try congruence.
  destruct (BunnyCounts_eq_dec x y); [discriminate | congruence].
Qed.

Ltac ledger_unfold :=
  unfold ProportionsModel.perform, ProportionsModel.constructor,
    reset, recordStartCounts, recordEndCounts, setProperty,
    clockGenerationListeners, isPlayingListeners, currentStartCountsListeners,
    liveBunnyCountsListeners, proportionsGenerationListeners, showCurrentGeneration,
    setValueAndRange, pauseUnlessCurrent, determineDisplayedData, setStartCounts,
    updateEndCounts, reentry, newProportionsCounts, Dot.newRange, Dot.contains,
    previousCountsAt, isNonNegativeInteger, instanceofBunnyCounts, clockGeneration,
    JS.after, JS.returns, JS.seq, JS.lift, JS.modify, JS.get, JS.unit_, JS.raise,
    JS.assert, JS.bind, JS.ret, JS.throw in *.

Ltac ledger_simpl := cbn; rewrite ?zero_le_generation, ?Qle_bool_refl; cbn.

Ltac ledger_cases := ledger_unfold; ledger_simpl; repeat (case_step; ledger_simpl).

Ltac tidy :=
  repeat match goal with
    | H : (_ =? _)%Z = true |- _ => apply Z.eqb_eq in H
    | H : (_ =? _)%Z = false |- _ => apply Z.eqb_neq in H
    | H : (_ <=? _)%Z = true |- _ => apply Z.leb_le in H
    | H : (_ <=? _)%Z = false |- _ => apply Z.leb_gt in H
    | H : (_ <? _)%Z = true |- _ => apply Z.ltb_lt in H
    | H : (_ <? _)%Z = false |- _ => apply Z.ltb_ge in H
    | H : negb _ = true |- _ => apply negb_true_iff in H
    | H : negb _ = false |- _ => apply negb_false_iff in H
    | H : Bool.eqb _ _ = true |- _ => apply Bool.eqb_prop in H
    | H : Bool.eqb _ _ = false |- _ => apply Bool.eqb_false_iff in H
    | H : (_ =? _)%nat = true |- _ => apply Nat.eqb_eq in H
    | H : (_ =? _)%nat = false |- _ => apply Nat.eqb_neq in H
    | H : ProportionsModel.sameCounts _ _ _ = true |- _ => apply sameCounts_true in H
    | H : ProportionsModel.sameCounts _ _ _ = false |- _ => apply sameCounts_false in H
    | H : Qle_bool 0 (inject_Z (Z.of_nat _)) = false |- _ =>
        rewrite zero_le_generation in H; discriminate H
    | H : Qle_bool ?q ?q = false |- _ => rewrite Qle_bool_refl in H; discriminate H
    | H : (_, _) = (_, _) |- _ => injection H as ? ?
    end.

(** *** The listener that decides what to display *)

(** What it leaves alone. *)
Lemma determineDisplayedData_frame (assertEnabled : bool) (s : State) :
  let s' := snd (determineDisplayedData withZero assertEnabled s) in
  proportionsGenerationProperty s' = proportionsGenerationProperty s /\
  clockGenerationProperty s' = clockGenerationProperty s /\
  currentStartCountsProperty s' = currentStartCountsProperty s /\
  previousCounts s' = previousCounts s /\
  liveBunnyCountsProperty s' = liveBunnyCountsProperty s /\
  isPlayingProperty s' = isPlayingProperty s.
Proof. ledger_cases; repeat split; congruence. Qed.

(** When it returns, the display is the decided one. *)
Lemma determineDisplayedData_decides (assertEnabled : bool) (s : State) :
  fst (determineDisplayedData withZero assertEnabled s) = inr tt ->
  displayDecided (snd (determineDisplayedData withZero assertEnabled s)).
Proof.
  unfold displayDecided.
  ledger_cases; tidy; intros Hr; try discriminate Hr; try exact I;
    try (repeat split; congruence); try congruence;
    match goal with
    | Hx : nth_error _ _ = Some ?p |- exists _, _ => exists p; repeat split; congruence
    end.
Qed.

(** Whether it returns or throws, the listener of the live counts is only
    linked with the current start counts and the live counts on display. *)
Lemma determineDisplayedData_liveDisplay (assertEnabled : bool) (s : State) :
  liveDisplay (snd (determineDisplayedData withZero assertEnabled s)).
Proof.
  unfold liveDisplay.
  ledger_cases; tidy; intros Hl; try discriminate Hl; repeat split; congruence.
Qed.

Opaque determineDisplayedData.

(** The cases of a call, with the listener above left folded. *)
Ltac call_unfold :=
  unfold ProportionsModel.perform,
    reset, recordStartCounts, recordEndCounts, setProperty,
    clockGenerationListeners, isPlayingListeners, currentStartCountsListeners,
    liveBunnyCountsListeners, proportionsGenerationListeners, showCurrentGeneration,
    setValueAndRange, pauseUnlessCurrent, setStartCounts,
    updateEndCounts, reentry, newProportionsCounts, Dot.newRange, Dot.contains,
    isNonNegativeInteger, instanceofBunnyCounts, clockGeneration,
    JS.after, JS.returns, JS.seq, JS.lift, JS.modify, JS.get, JS.unit_, JS.raise,
    JS.assert, JS.bind, JS.ret, JS.throw in *.

Ltac call_cases := call_unfold; ledger_simpl; repeat (case_step; ledger_simpl).

(** The facts about every run of the listener that the cases mention. *)
Ltac display_facts :=
  repeat match goal with
    | H : determineDisplayedData ?z ?a ?s1 = (?r, ?s2) |- _ =>
        let F := fresh "Hframe" in
        let D := fresh "Hdecides" in
        let L := fresh "Hlive" in
        pose proof (determineDisplayedData_frame a s1) as F;
        pose proof (determineDisplayedData_decides a s1) as D;
        pose proof (determineDisplayedData_liveDisplay a s1) as L;
        rewrite H in F, D, L; cbn [fst snd] in F, D, L;
        destruct F as (? & ? & ? & ? & ? & ?);
        try match type of D with
            | inr ?u = inr tt -> _ => destruct u; specialize (D eq_refl)
            | inl _ = _ -> _ => clear D
            end;
        clear H
    | |- context [determineDisplayedData ?z ?a ?s1] =>
        let F := fresh "Hframe" in
        let L := fresh "Hlive" in
        pose proof (determineDisplayedData_frame a s1) as F;
        pose proof (determineDisplayedData_liveDisplay a s1) as L;
        cbn [fst snd] in F, L;
        destruct F as (? & ? & ? & ? & ? & ?);
        generalize dependent (determineDisplayedData z a s1); intros
    end.

(** *** What a call does to the history *)

Lemma perform_history (assertEnabled : bool) (c : Call) (s : State) :
  match c, fst (perform assertEnabled c s) with
  | CallRecordEndCounts g endCounts, inr _ =>
      previousCounts (JS.after (perform assertEnabled c) s)
      = (previousCounts s ++ [mkProportionsCounts g (currentStartCountsProperty s) endCounts])%list
  | CallReset, inr _ => previousCounts (JS.after (perform assertEnabled c) s) = []
  | _, _ => previousCounts (JS.after (perform assertEnabled c) s) = previousCounts s
  end.
Proof.
  destruct c; call_cases; display_facts; cbn in *; try reflexivity; congruence.
Qed.

Lemma perform_keeps_playingShowsCurrent (assertEnabled : bool) (c : Call) (s : State) :
  playingShowsCurrent s -> playingShowsCurrent (JS.after (perform assertEnabled c) s).
Proof.
  unfold playingShowsCurrent, clockGeneration. intros H.
  destruct c; call_cases; display_facts; cbn in *; tidy; intros;
    try reflexivity; try congruence;
    try (assert (Hs : isPlayingProperty s = true) by congruence;
         specialize (H Hs); congruence).
Qed.

Lemma perform_keeps_liveDisplay (assertEnabled : bool) (c : Call) (s : State) :
  liveDisplay s -> liveDisplay (JS.after (perform assertEnabled c) s).
Proof.
  unfold liveDisplay. intros H.
  destruct c; call_cases; display_facts; cbn in *; tidy; intros;
    try discriminate; try congruence;
    try (repeat split; congruence);
    try (match goal with Hl : liveDisplay _ |- _ => apply Hl; congruence end);
    try (assert (Hs : updateEndCountsLinked s = true) by congruence;
         destruct (H Hs) as (? & ? & ?); repeat split; congruence);
    try (match goal with
         | Hl : liveDisplay ?x, Hk : updateEndCountsLinked ?x = true |- _ =>
             destruct (Hl Hk) as (? & ? & ?); congruence
         end);
    try (destruct (H eq_refl) as (? & ? & ?); repeat split; congruence).
Qed.



Transparent determineDisplayedData.

Lemma perform_keeps_recordsWellFormed (c : Call) (s : State) :
  recordsWellFormed s -> recordsWellFormed (JS.after (perform true c) s).
Proof.
  intros H.
  pose proof (perform_history true c s) as Hh.
  destruct c; try (unfold recordsWellFormed; rewrite Hh; exact H).
  - (* recordEndCounts *)
    clear Hh. ledger_cases; tidy; try exact H.
    unfold recordsWellFormed in *. cbn. intros i counts Hi.
    destruct (Nat.lt_ge_cases i (List.length (previousCounts s))) as [Hlt | Hge].
    + rewrite nth_error_app1 in Hi by exact Hlt. apply H, Hi.
    + rewrite nth_error_app2 in Hi by exact Hge.
      destruct (i - List.length (previousCounts s))%nat as [|k] eqn:Hk.
      * cbn in Hi. injection Hi as <-. cbn. split; [lia | congruence].
      * destruct k; discriminate Hi.
  - (* reset *)
    destruct (fst (perform true CallReset s)).
    + unfold recordsWellFormed; rewrite Hh; exact H.
    + unfold recordsWellFormed. rewrite Hh. intros [|i] counts Hi; discriminate Hi.
Qed.

(** *** The constructed model *)

Lemma constructor_returns (assertEnabled : bool) (live : BunnyCounts) (clock : nat)
      (isPlaying : bool) :
  fst (constructor assertEnabled live clock isPlaying) = inr tt.
Proof. ledger_cases; reflexivity. Qed.

Lemma constructor_state (assertEnabled : bool) (live : BunnyCounts) (clock : nat)
      (isPlaying : bool) :
  let s := snd (constructor assertEnabled live clock isPlaying) in
  previousCounts s = [] /\ currentStartCountsProperty s = None /\
  updateEndCountsLinked s = false /\ playingShowsCurrent s /\
  clockGenerationProperty s = clock.
Proof.
  unfold playingShowsCurrent.
  ledger_cases; tidy; repeat split; try congruence; try lia.
Qed.

(** *** Runs of calls *)

Lemma run_cons (assertEnabled : bool) (c : Call) (calls : list Call) (s : State)
      (completed : list Z) :
  run assertEnabled (c :: calls) s completed
  = run assertEnabled calls (JS.after (perform assertEnabled c) s)
        (completedAfter c (fst (perform assertEnabled c s)) completed).
Proof.
  cbn [ProportionsModel.run]. unfold JS.after.
  destruct (perform assertEnabled c s); reflexivity.
Qed.

Lemma run_app (assertEnabled : bool) (calls1 calls2 : list Call) (s : State)
      (completed : list Z) :
  run assertEnabled (calls1 ++ calls2) s completed
  = run assertEnabled calls2 (fst (run assertEnabled calls1 s completed))
        (snd (run assertEnabled calls1 s completed)).
Proof.
  revert s completed. induction calls1 as [|c calls1 IH]; intros s completed.
  - reflexivity.
  - rewrite <- app_comm_cons, !run_cons. apply IH.
Qed.

Lemma run_keeps (assertEnabled : bool) (P : State -> Prop) :
  (forall c s, P s -> P (JS.after (perform assertEnabled c) s)) ->
  forall calls s completed, P s -> P (fst (run assertEnabled calls s completed)).
Proof.
  intros Hstep calls. induction calls as [|c calls IH]; intros s completed Hs.
  - exact Hs.
  - rewrite run_cons. apply IH, Hstep, Hs.
Qed.

Lemma reachable_keeps (assertEnabled : bool) (P : State -> Prop) :
  (forall live clock isPlaying, P (snd (constructor assertEnabled live clock isPlaying))) ->
  (forall c s, P s -> P (JS.after (perform assertEnabled c) s)) ->
  forall s, reachable assertEnabled s -> P s.
Proof.
  intros Hinit Hstep s (live & clock & isPlaying & calls & completed & Hrun).
  change s with (fst (s, completed)). rewrite <- Hrun.
  apply run_keeps; [exact Hstep | apply Hinit].
Qed.

Lemma reachable_playingShowsCurrent (assertEnabled : bool) (s : State) :
  reachable assertEnabled s -> playingShowsCurrent s.
Proof.
  apply reachable_keeps.
  - intros. apply constructor_state.
  - intros c s'. apply perform_keeps_playingShowsCurrent.
Qed.

Lemma reachable_liveDisplay (assertEnabled : bool) (s : State) :
  reachable assertEnabled s -> liveDisplay s.
Proof.
  apply reachable_keeps.
  - intros live clock isPlaying Hl.
    destruct (constructor_state assertEnabled live clock isPlaying) as (_ & _ & H & _).
    rewrite H in Hl. discriminate Hl.
  - intros c s'. apply perform_keeps_liveDisplay.
Qed.

Lemma reachable_recordsWellFormed (s : State) :
  reachable true s -> recordsWellFormed s.
Proof.
  apply reachable_keeps.
  - intros live clock isPlaying i counts Hi.
    destruct (constructor_state true live clock isPlaying) as (H & _).
    rewrite H in Hi. destruct i; discriminate Hi.
  - intros c s'. apply perform_keeps_recordsWellFormed.
Qed.

(** *** recordEndCounts and recordStartCounts, with assertions running *)

Lemma recordEndCounts_returns (s : State) (g : Z) (endCounts start : BunnyCounts) :
  g = (clockGeneration s - 1)%Z ->
  Z.of_nat (List.length (previousCounts s)) = g ->
  currentStartCountsProperty s = Some start ->
  recordEndCounts true g endCounts s
  = (inr tt,
     withPreviousCounts
       (previousCounts s ++ [mkProportionsCounts g (Some start) endCounts])%list s).
Proof.
  intros Hg Hlen Hstart. ledger_unfold. cbn. rewrite Hstart.
  repeat (case_step; cbn); tidy; try reflexivity; lia.
Qed.

Lemma recordEndCounts_inversion (s : State) (g : Z) (endCounts : BunnyCounts) :
  fst (recordEndCounts true g endCounts s) = inr tt ->
  g = (clockGeneration s - 1)%Z /\
  Z.of_nat (List.length (previousCounts s)) = g /\
  exists start, currentStartCountsProperty s = Some start.
Proof.
  ledger_cases; tidy; intros H; try discriminate H.
  repeat split; try assumption. eexists; reflexivity.
Qed.

Lemma recordEndCounts_rejects (s : State) (g : Z) (endCounts : BunnyCounts) :
  ~ (g = (clockGeneration s - 1)%Z /\ Z.of_nat (List.length (previousCounts s)) = g) ->
  exists msg, recordEndCounts true g endCounts s = (inl (JS.AssertionFailed msg), s).
Proof.
  intros H. ledger_cases; tidy; try (eexists; reflexivity).
  all: exfalso; apply H; split; assumption.
Qed.

Lemma recordStartCounts_rejects (s : State) (g : Z) (startCounts : BunnyCounts) :
  g <> clockGeneration s ->
  exists msg, recordStartCounts BunnyCounts_eq_dec withZero true g startCounts s
              = (inl (JS.AssertionFailed msg), s).
Proof.
  intros H. ledger_cases; tidy; try (eexists; reflexivity).
  all: exfalso; apply H; assumption.
Qed.

Lemma recordStartCounts_stores (assertEnabled : bool) (s : State) (g : Z)
      (startCounts : BunnyCounts) :
  g = clockGeneration s ->
  let s' := JS.after (recordStartCounts BunnyCounts_eq_dec withZero assertEnabled g startCounts) s in
  currentStartCountsProperty s' = Some startCounts /\
  previousCounts s' = previousCounts s /\
  clockGenerationProperty s' = clockGenerationProperty s /\
  proportionsGenerationProperty s' = proportionsGenerationProperty s.
Proof.
  intros H. ledger_cases; tidy; repeat split; try congruence; try lia.
Qed.

Lemma recordStartCounts_returns (assertEnabled : bool) (s : State) (g : Z)
      (startCounts : BunnyCounts) :
  g = clockGeneration s ->
  proportionsGenerationProperty s = clockGeneration s ->
  fst (recordStartCounts BunnyCounts_eq_dec withZero assertEnabled g startCounts s) = inr tt.
Proof.
  intros H Hp. ledger_cases; tidy; try reflexivity; try congruence; try lia.
Qed.

(** *** The history *)

Lemma upTo_succ (n : nat) : upTo (S n) = (upTo n ++ [Z.of_nat n])%list.
Proof. unfold upTo. rewrite seq_S, map_app. reflexivity. Qed.

Lemma seq_nth_error (a n i k : nat) : nth_error (seq a n) i = Some k -> k = (a + i)%nat.
Proof.
  revert a i. induction n as [|n IH]; intros a [|i] H; cbn in H; try discriminate H.
  - injection H as <-. lia.
  - apply IH in H. lia.
Qed.

Lemma upTo_nth (n i : nat) (g : Z) : nth_error (upTo n) i = Some g -> g = Z.of_nat i.
Proof.
  unfold upTo. rewrite nth_error_map.
  destruct (nth_error (seq 0 n) i) as [k|] eqn:E; cbn; [|discriminate].
  intros H. injection H as <-. apply seq_nth_error in E. subst k. reflexivity.
Qed.

(** One call keeps the record of completed generations in step with the
    array: its generations are [0, 1, ...] and are those completed. *)
Lemma perform_ledger (c : Call) (s : State) (completed : list Z) :
  generations s = completed ->
  completed = upTo (List.length completed) ->
  let completed' := completedAfter c (fst (perform true c s)) completed in
  generations (JS.after (perform true c) s) = completed' /\
  completed' = upTo (List.length completed').
Proof.
  intros Hgen Hup. cbn zeta.
  pose proof (perform_history true c s) as Hh.
  unfold generations in *.
  destruct c as [g sc | g ec | | n | b | lc | g | v f e t];
    try (cbn [completedAfter]; rewrite Hh; split; assumption).
  - (* recordEndCounts *)
    destruct (fst (perform true (CallRecordEndCounts g ec) s)) as [e|[]] eqn:Hout;
      cbn [completedAfter].
    + rewrite Hh. split; assumption.
    + destruct (recordEndCounts_inversion s g ec Hout) as (_ & Hlen & _).
      rewrite Hh, map_app. cbn [map generation]. rewrite Hgen.
      split; [reflexivity|].
      rewrite length_app. cbn [List.length]. rewrite Nat.add_1_r, upTo_succ, <- Hup.
      rewrite <- Hgen, length_map, Hlen. reflexivity.
  - (* reset *)
    destruct (fst (perform true CallReset s)) as [e|[]]; cbn [completedAfter].
    + rewrite Hh. split; assumption.
    + rewrite Hh. split; reflexivity.
Qed.

Lemma run_ledger (calls : list Call) (s : State) (completed : list Z) :
  generations s = completed ->
  completed = upTo (List.length completed) ->
  generations (fst (run true calls s completed)) = snd (run true calls s completed) /\
  snd (run true calls s completed)
  = upTo (List.length (snd (run true calls s completed))).
Proof.
  revert s completed. induction calls as [|c calls IH]; intros s completed Hgen Hup.
  - split; assumption.
  - rewrite run_cons.
    destruct (perform_ledger c s completed Hgen Hup) as [Hgen' Hup'].
    apply IH; assumption.
Qed.

(** C1. With assertions running, whatever calls are made on a constructed
    model: every record of [previousCounts] sits at the index of its
    generation, [previousCounts[i].generation = i], and a record for
    generation [g] exists exactly when a call [recordEndCounts( g, ... )] has
    returned since the ledger was constructed or last cleared by [reset]. *)
Theorem ledger_history_invariant
        (liveBunnyCounts : BunnyCounts) (clockGeneration : nat) (isPlaying : bool)
        (calls : list Call) :
  let final := run true calls
                   (snd (constructor true liveBunnyCounts clockGeneration isPlaying)) [] in
  let s := fst final in
  let completed := snd final in
  (forall i counts,
      nth_error (history s) i = Some counts -> generation counts = Z.of_nat i) /\
  (forall g,
      (exists counts, In counts (history s) /\ generation counts = g) <-> In g completed).
Proof.
  intros final s completed.
  destruct (constructor_state true liveBunnyCounts clockGeneration isPlaying)
    as (Hempty & _).
  destruct (run_ledger calls
              (snd (constructor true liveBunnyCounts clockGeneration isPlaying))
              []) as [Hgen Hup].
  { unfold generations. rewrite Hempty. reflexivity. }
  { reflexivity. }
  fold final in Hgen, Hup. fold s in Hgen. fold completed in Hgen, Hup.
  unfold history, generations in *. split.
  - intros i counts Hi.
    apply (map_nth_error (@generation BunnyCounts)) in Hi. rewrite Hgen, Hup in Hi.
    apply upTo_nth in Hi. exact Hi.
  - intros g. rewrite <- Hgen, in_map_iff. split.
    + intros (counts & Hin & Hg). exists counts. split; assumption.
    + intros (counts & Hg & Hin). exists counts. split; assumption.
Qed.

(** What [recordEndCounts] does in a state, with assertions running. *)
Lemma recordEndCounts_on_state (s : State) (g : Z) (endCounts : BunnyCounts) :
  let outcome := fst (recordEndCounts true g endCounts s) in
  let s' := JS.after (recordEndCounts true g endCounts) s in
  (outcome = inr tt ->
   g = (clockGeneration s - 1)%Z /\ Z.of_nat (List.length (history s)) = g) /\
  (g = (clockGeneration s - 1)%Z -> Z.of_nat (List.length (history s)) = g ->
   currentStartCountsProperty s <> None -> outcome = inr tt) /\
  (outcome = inr tt ->
   exists start,
     currentStartCountsProperty s = Some start /\
     history s' = (history s ++ [mkProportionsCounts g (Some start) endCounts])%list) /\
  (~ (g = (clockGeneration s - 1)%Z /\ Z.of_nat (List.length (history s)) = g) ->
   (exists msg, outcome = inl (JS.AssertionFailed msg)) /\ s' = s) /\
  (outcome = inr tt ->
   forall third : BunnyCounts,
     (exists msg, recordEndCounts true g third s' = (inl (JS.AssertionFailed msg), s')) /\
     (exists msg, recordStartCounts BunnyCounts_eq_dec withZero true g third s'
                  = (inl (JS.AssertionFailed msg), s'))).
Proof.
  intros outcome s'. unfold history.
  assert (Hinv : outcome = inr tt ->
                 g = (clockGeneration s - 1)%Z /\
                 Z.of_nat (List.length (previousCounts s)) = g /\
                 exists start, currentStartCountsProperty s = Some start)
    by apply recordEndCounts_inversion.
  assert (Hs' : outcome = inr tt ->
                exists start,
                  currentStartCountsProperty s = Some start /\
                  s' = withPreviousCounts
                         (previousCounts s ++ [mkProportionsCounts g (Some start) endCounts])%list s).
  { intros Hout. destruct (Hinv Hout) as (Hg & Hlen & start & Hstart).
    exists start. split; [exact Hstart|].
    unfold s', JS.after. rewrite (recordEndCounts_returns s g endCounts start Hg Hlen Hstart).
    reflexivity. }
  repeat split.
  - apply Hinv, H.
  - apply Hinv, H.
  - intros Hg Hlen Hstart. destruct (currentStartCountsProperty s) as [start|] eqn:E;
      [|congruence].
    unfold outcome. rewrite (recordEndCounts_returns s g endCounts start Hg Hlen E). reflexivity.
  - intros Hout. destruct (Hs' Hout) as (start & Hstart & Heq).
    exists start. split; [exact Hstart|]. rewrite Heq. reflexivity.
  - destruct (recordEndCounts_rejects s g endCounts H) as (msg & Hmsg).
    exists msg. unfold outcome. rewrite Hmsg. reflexivity.
  - destruct (recordEndCounts_rejects s g endCounts H) as (msg & Hmsg).
    unfold s', JS.after. rewrite Hmsg. reflexivity.
  - destruct (Hs' H) as (start & Hstart & Heq).
    destruct (Hinv H) as (Hg & Hlen & _).
    apply recordEndCounts_rejects. rewrite Heq. cbn.
    rewrite length_app. cbn. lia.
  - destruct (Hs' H) as (start & Hstart & Heq).
    destruct (Hinv H) as (Hg & Hlen & _).
    apply recordStartCounts_rejects. rewrite Heq. cbn. cbn in Hg. lia.
Qed.

(** *** The one place for start counts *)

(** [reset] clears the current start counts when it returns, and leaves them
    as they were when it throws. *)
Lemma reset_currentStartCounts (assertEnabled : bool) (s : State) :
  match fst (reset BunnyCounts_eq_dec withZero assertEnabled s) with
  | inr _ =>
      currentStartCountsProperty (JS.after (reset BunnyCounts_eq_dec withZero assertEnabled) s)
      = None
  | inl _ =>
      currentStartCountsProperty (JS.after (reset BunnyCounts_eq_dec withZero assertEnabled) s)
      = currentStartCountsProperty s
  end.
Proof. ledger_cases; tidy; try reflexivity; congruence. Qed.

Opaque determineDisplayedData.

(** Only [recordStartCounts] and a [reset] that returns change the current
    start counts. *)
Lemma perform_currentStartCounts (assertEnabled : bool) (c : Call) (s : State) :
  match c, fst (perform assertEnabled c s) with
  | CallRecordStartCounts _ _, _ => True
  | CallReset, inr _ => currentStartCountsProperty (JS.after (perform assertEnabled c) s) = None
  | _, _ =>
      currentStartCountsProperty (JS.after (perform assertEnabled c) s)
      = currentStartCountsProperty s
  end.
Proof.
  destruct c; try exact I; try apply reset_currentStartCounts;
    call_cases; display_facts; cbn in *; tidy; try reflexivity; congruence.
Qed.

Transparent determineDisplayedData.

(** With assertions running, the current start counts are those of the start
    record that was stored last. *)
Lemma perform_latestStart (c : Call) (s : State) (latest : option (Z * BunnyCounts)) :
  currentStartCountsProperty s = option_map snd latest ->
  currentStartCountsProperty (JS.after (perform true c) s)
  = option_map snd (startAfter true c s (fst (perform true c s)) latest).
Proof.
  intros H. pose proof (perform_currentStartCounts true c s) as Hc.
  destruct c as [g sc | g ec | | n | b | lc | g | v f e t];
    try (cbn [startAfter]; rewrite Hc; exact H).
  - clear Hc. cbn [startAfter]. unfold passesStartChecks, isNonNegativeInteger.
    cbn [negb orb].
    destruct ((0 <=? g)%Z && (g =? clockGeneration s)%Z) eqn:E.
    + apply andb_true_iff in E. destruct E as [_ E]. apply Z.eqb_eq in E.
      apply (recordStartCounts_stores true s g sc E).
    + assert (Hne : g <> clockGeneration s).
      { intros ->. rewrite Z.eqb_refl, andb_true_r in E. apply Z.leb_gt in E.
        unfold clockGeneration in E. lia. }
      destruct (recordStartCounts_rejects s g sc Hne) as (msg & Hmsg).
      cbn [ProportionsModel.perform]. unfold JS.after. rewrite Hmsg. exact H.
  - cbn [startAfter]. destruct (fst (perform true CallReset s)) as [e|u].
    + rewrite Hc. exact H.
    + rewrite Hc. reflexivity.
Qed.

Lemma run_latestStart (calls : list Call) :
  forall (s : State) (completed : list Z) (latest : option (Z * BunnyCounts)),
    currentStartCountsProperty s = option_map snd latest ->
    currentStartCountsProperty (fst (run true calls s completed))
    = option_map snd (latestStart true calls s latest).
Proof.
  induction calls as [|c calls IH]; intros s completed latest H.
  - exact H.
  - rewrite run_cons. cbn [ProportionsModel.latestStart].
    pose proof (perform_latestStart c s latest H) as Hstep.
    unfold JS.after in *. destruct (perform true c s) as [outcome s1].
    cbn [fst snd] in *. apply IH. exact Hstep.
Qed.

(** C2, as amended. With assertions running, in every state that calls reach
    from a constructed model: the current start counts are those of the
    start record that was stored last, whatever generation it was given for.
    [recordEndCounts( g, endCounts )] returns only when [g] is the clock's
    generation minus 1 and [previousCounts.length] is [g], and it does return
    then if a start record is stored.  When it returns, it has appended
    exactly one record, made of [g], the start counts stored last and
    [endCounts].  Any violation of the two conditions fails with an assertion
    and leaves the whole state, so also the history, as it was.  After it has
    returned, another [recordEndCounts] and another [recordStartCounts] for
    the same [g] both fail in that way. *)
Theorem recordEndCounts_contract
        (liveBunnyCounts : BunnyCounts) (clockGeneration0 : nat) (isPlaying : bool)
        (calls : list Call) (g : Z) (endCounts : BunnyCounts) :
  let s0 := snd (constructor true liveBunnyCounts clockGeneration0 isPlaying) in
  let s := fst (run true calls s0 []) in
  let latest := latestStart true calls s0 None in
  let outcome := fst (recordEndCounts true g endCounts s) in
  let s' := JS.after (recordEndCounts true g endCounts) s in
  currentStartCountsProperty s = option_map snd latest /\
  (outcome = inr tt ->
   g = (clockGeneration s - 1)%Z /\ Z.of_nat (List.length (history s)) = g) /\
  (g = (clockGeneration s - 1)%Z -> Z.of_nat (List.length (history s)) = g ->
   latest <> None -> outcome = inr tt) /\
  (outcome = inr tt ->
   exists stored start,
     latest = Some (stored, start) /\
     history s' = (history s ++ [mkProportionsCounts g (Some start) endCounts])%list) /\
  (~ (g = (clockGeneration s - 1)%Z /\ Z.of_nat (List.length (history s)) = g) ->
   (exists msg, outcome = inl (JS.AssertionFailed msg)) /\ s' = s) /\
  (outcome = inr tt ->
   forall third : BunnyCounts,
     (exists msg, recordEndCounts true g third s' = (inl (JS.AssertionFailed msg), s')) /\
     (exists msg, recordStartCounts BunnyCounts_eq_dec withZero true g third s'
                  = (inl (JS.AssertionFailed msg), s'))).
Proof.
  intros s0 s latest outcome s'.
  assert (Hlatest : currentStartCountsProperty s = option_map snd latest).
  { apply run_latestStart.
    destruct (constructor_state true liveBunnyCounts clockGeneration0 isPlaying)
      as (_ & Hnone & _). exact Hnone. }
  destruct (recordEndCounts_on_state s g endCounts) as (H1 & H2 & H3 & H4 & H5).
  fold outcome in H1, H2, H3, H4, H5. fold s' in H3, H4, H5.
  split; [exact Hlatest|]. split; [exact H1|]. split; [|split; [|split; [exact H4 | exact H5]]].
  - intros Hg Hlen Hsome. apply H2; try assumption.
    rewrite Hlatest. destruct latest; [discriminate | contradiction].
  - intros Hout. destruct (H3 Hout) as (start & Hstart & Hhist).
    rewrite Hlatest in Hstart. destruct latest as [[stored start']|]; [|discriminate Hstart].
    cbn in Hstart. injection Hstart as ->. exists stored, start. split; [reflexivity | exact Hhist].
Qed.

(** C3, as amended. With assertions running, [recordStartCounts( g,
    startCounts )] fails with an assertion, leaving the state as it was,
    unless [g] is the clock's generation.  When [g] is the clock's generation
    the current start counts become [startCounts], and the call returns if
    the graph shows that generation.  The ledger holds one current start
    record: a second call for the same generation is accepted like the first
    and puts its counts in the place of the first. *)
Theorem recordStartCounts_contract (s : State) (g : Z) (startCounts : BunnyCounts) :
  let outcome := fst (recordStartCounts BunnyCounts_eq_dec withZero true g startCounts s) in
  let s' := JS.after (recordStartCounts BunnyCounts_eq_dec withZero true g startCounts) s in
  (g <> clockGeneration s ->
   (exists msg, outcome = inl (JS.AssertionFailed msg)) /\ s' = s) /\
  (outcome = inr tt -> g = clockGeneration s) /\
  (g = clockGeneration s ->
   currentStartCountsProperty s' = Some startCounts /\ history s' = history s) /\
  (g = clockGeneration s -> proportionsGenerationProperty s = clockGeneration s ->
   outcome = inr tt /\
   forall second : BunnyCounts,
     let again := recordStartCounts BunnyCounts_eq_dec withZero true g second in
     fst (again s') = inr tt /\
     currentStartCountsProperty (JS.after again s') = Some second).
Proof.
  intros outcome s'. unfold history.
  split; [|split; [|split]].
  - intros Hne. destruct (recordStartCounts_rejects s g startCounts Hne) as (msg & Hmsg).
    split.
    + exists msg. unfold outcome. rewrite Hmsg. reflexivity.
    + unfold s', JS.after. rewrite Hmsg. reflexivity.
  - intros Hout. destruct (Z.eq_dec g (clockGeneration s)) as [Heq | Hne]; [exact Heq|].
    destruct (recordStartCounts_rejects s g startCounts Hne) as (msg & Hmsg).
    unfold outcome in Hout. rewrite Hmsg in Hout. discriminate Hout.
  - intros Hg. destruct (recordStartCounts_stores true s g startCounts Hg) as (H1 & H2 & _).
    split; assumption.
  - intros Hg Hshown.
    destruct (recordStartCounts_stores true s g startCounts Hg) as (_ & _ & Hc & Hp).
    fold s' in Hc, Hp.
    assert (Hg' : g = clockGeneration s') by (unfold clockGeneration in *; congruence).
    assert (Hshown' : proportionsGenerationProperty s' = clockGeneration s')
      by (unfold clockGeneration in *; congruence).
    split; [apply recordStartCounts_returns; assumption|].
    intros second. cbn zeta. split.
    + apply recordStartCounts_returns; assumption.
    + apply (recordStartCounts_stores true s' g second Hg').
Qed.

(** *** No retention limit *)

Opaque determineDisplayedData.

(** A generation passes in a model that has start counts and whose history
    is complete, playing or paused: the clock moves on, the end counts are
    recorded. *)
Lemma boundary_extends_history (assertEnabled : bool) (s : State) (counts : BunnyCounts)
      (completed : list Z) (k : nat) :
  clockGenerationProperty s = k ->
  List.length (previousCounts s) = k ->
  currentStartCountsProperty s = Some counts ->
  let s' := fst (run assertEnabled
                     [ClockGenerationChanges (S k); CallRecordEndCounts (Z.of_nat k) counts]
                     s completed) in
  clockGenerationProperty s' = S k /\
  List.length (previousCounts s') = S k /\
  currentStartCountsProperty s' = Some counts /\
  isPlayingProperty s' = isPlayingProperty s.
Proof.
  intros Hc Hl Hs. rewrite !run_cons. cbn [ProportionsModel.run fst].
  call_cases; display_facts; cbn in *; tidy; rewrite ?length_app; cbn;
    repeat split; try congruence; try lia.
  all: try (exfalso; lia).
  all: try (match goal with H : (?p =? ?p)%positive = false |- _ =>
              rewrite Pos.eqb_refl in H; discriminate end).
  all: match goal with H : previousCounts _ = previousCounts _ |- _ => rewrite H; lia end.
Qed.

Transparent determineDisplayedData.

Lemma boundaries_extend_history (assertEnabled : bool) (counts : BunnyCounts) (n : nat) :
  forall (s : State) (completed : list Z),
    clockGenerationProperty s = O ->
    previousCounts s = [] ->
    currentStartCountsProperty s = Some counts ->
    let s' := fst (run assertEnabled (boundaries n counts) s completed) in
    clockGenerationProperty s' = n /\
    List.length (previousCounts s') = n /\
    currentStartCountsProperty s' = Some counts /\
    isPlayingProperty s' = isPlayingProperty s.
Proof.
  induction n as [|n IH]; intros s completed Hc Hl Hs.
  - cbn. rewrite Hl. repeat split; assumption.
  - cbn [boundaries]. rewrite run_app. cbn zeta.
    destruct (IH s completed Hc Hl Hs) as (Hc' & Hl' & Hs' & Hp').
    rewrite <- Hp'. apply boundary_extends_history; assumption.
Qed.

(** After [n] generations the history holds [n] records, whether the sim
    plays or not. *)
Lemma manyGenerations_length (assertEnabled : bool) (live counts : BunnyCounts)
      (isPlaying : bool) (n : nat) :
  List.length
    (history (fst (run assertEnabled (manyGenerations n counts)
                       (snd (constructor assertEnabled live O isPlaying)) [])))
  = n.
Proof.
  unfold manyGenerations, history. rewrite run_cons.
  apply boundaries_extend_history.
  - ledger_cases; reflexivity.
  - ledger_cases; reflexivity.
  - ledger_cases; tidy; try reflexivity; try contradiction; try lia.
Qed.

(** C4, as amended. The history is a finite list, and no call evicts a
    record: a call leaves the history as it was, or it is a
    [recordEndCounts] that returns and has appended one record, or it is a
    [reset] that returns and has cleared the history.  With assertions
    running, the history right after a [recordEndCounts] that returned has as
    many records as the clock's generation number. *)
Theorem history_grows_without_eviction (assertEnabled : bool) (c : Call) (s : State) :
  let outcome := fst (perform assertEnabled c s) in
  let s' := JS.after (perform assertEnabled c) s in
  history s' = history s \/
  (exists g endCounts,
      c = CallRecordEndCounts g endCounts /\ outcome = inr tt /\
      history s'
      = (history s ++ [mkProportionsCounts g (currentStartCountsProperty s) endCounts])%list /\
      (assertEnabled = true ->
       Z.of_nat (List.length (history s')) = clockGeneration s)) \/
  (c = CallReset /\ outcome = inr tt /\ history s' = []).
Proof.
  intros outcome s'. unfold history.
  pose proof (perform_history assertEnabled c s) as Hh. fold s' in Hh.
  destruct c as [g sc | g ec | | n | b | lc | g | v f e t]; try (left; exact Hh).
  - subst outcome. revert Hh.
    destruct (fst (perform assertEnabled (CallRecordEndCounts g ec) s)) as [e|[]] eqn:Hout;
      intros Hh; [left; exact Hh|].
    right. left. exists g, ec. repeat split; try assumption.
    intros ->. destruct (recordEndCounts_inversion s g ec Hout) as (Hg & Hlen & _).
    rewrite Hh, length_app. cbn [List.length]. cbn in Hg. cbn. lia.
  - subst outcome. revert Hh.
    destruct (fst (perform assertEnabled CallReset s)) as [e|[]] eqn:Hout;
      intros Hh; [left; exact Hh|].
    right. right. repeat split. exact Hh.
Qed.

(** *** What the graph displays *)

Lemma display_current (assertEnabled : bool) (s : State) (current : BunnyCounts) :
  currentStartCountsProperty s = Some current ->
  proportionsGenerationProperty s = clockGeneration s ->
  let s' := JS.after (determineDisplayedData withZero assertEnabled) s in
  fst (determineDisplayedData withZero assertEnabled s) = inr tt /\
  startCountsProperty s' = Some current /\
  endCountsProperty s' = liveBunnyCountsProperty s /\
  liveBunnyCountsProperty s' = liveBunnyCountsProperty s /\
  updateEndCountsLinked s' = true.
Proof.
  intros Hc Hp. ledger_unfold. cbn. rewrite Hc. cbn.
  apply Z.eqb_eq in Hp. rewrite Hp.
  repeat (case_step; cbn); repeat split.
Qed.

Lemma display_previous (assertEnabled : bool) (s : State) (current : BunnyCounts)
      (counts : ProportionsCounts BunnyCounts) :
  (assertEnabled = true -> recordsWellFormed s) ->
  currentStartCountsProperty s = Some current ->
  proportionsGenerationProperty s <> clockGeneration s ->
  previousCountsAt s (proportionsGenerationProperty s) = Some counts ->
  let s' := JS.after (determineDisplayedData withZero assertEnabled) s in
  fst (determineDisplayedData withZero assertEnabled s) = inr tt /\
  startCountsProperty s' = startCounts counts /\
  endCountsProperty s' = endCounts counts /\
  liveBunnyCountsProperty s' = liveBunnyCountsProperty s /\
  updateEndCountsLinked s' = false /\
  (assertEnabled = true -> generation counts = proportionsGenerationProperty s).
Proof.
  intros Hwf Hc Hp Hat.
  assert (Hrec : assertEnabled = true ->
                 generation counts = proportionsGenerationProperty s /\
                 startCounts counts <> None).
  { intros Ha. specialize (Hwf Ha). unfold previousCountsAt in Hat.
    destruct (proportionsGenerationProperty s <? 0)%Z eqn:E; [discriminate Hat|].
    apply Z.ltb_ge in E. destruct (Hwf _ _ Hat) as [Hg Hs].
    split; [rewrite Hg; apply Z2Nat.id; exact E | exact Hs]. }
  apply Z.eqb_neq in Hp.
  unfold determineDisplayedData, setStartCounts, JS.after, JS.seq, JS.get, JS.modify,
    JS.lift, JS.unit_, JS.raise.
  rewrite Hc, Hp.
  assert (Hat' : forall l, previousCountsAt (withLinked l s) (proportionsGenerationProperty s)
                           = Some counts) by (intros l; exact Hat).
  destruct assertEnabled.
  - destruct (Hrec eq_refl) as [Hg Hs]. apply Z.eqb_eq in Hg.
    destruct (startCounts counts) as [start|] eqn:Es; [|congruence].
    destruct (updateEndCountsLinked s) eqn:El; cbn;
      rewrite ?Hat, ?Hat'; cbn; rewrite Hg, ?Es; cbn; rewrite ?Es; cbn;
      repeat split; try assumption; intros _; apply Z.eqb_eq, Hg.
  - destruct (updateEndCountsLinked s) eqn:El; cbn;
      rewrite ?Hat, ?Hat'; cbn; repeat split; try assumption; intros; discriminate.
Qed.






(** *** reset *)

Lemma reset_clears (assertEnabled : bool) (s : State) :
  fst (reset BunnyCounts_eq_dec withZero assertEnabled s) = inr tt ->
  let s' := JS.after (reset BunnyCounts_eq_dec withZero assertEnabled) s in
  previousCounts s' = [] /\ currentStartCountsProperty s' = None /\
  startCountsProperty s' = Some withZero /\ endCountsProperty s' = withZero.
Proof.
  ledger_cases; tidy; intros H; try discriminate H; repeat split; congruence.
Qed.

Lemma reset_returns (assertEnabled : bool) (s : State) :
  resetSafe assertEnabled s ->
  fst (reset BunnyCounts_eq_dec withZero assertEnabled s) = inr tt.
Proof.
  unfold resetSafe.
  intros [Hp | [Hc | [Hk | (counts & Hat & Hrec)]]].
  - ledger_cases; tidy; try reflexivity; try congruence; try lia.
  - ledger_cases; tidy; try reflexivity; try congruence; try lia.
  - ledger_cases; tidy; try reflexivity; try congruence; try lia.
  - destruct (previousCounts s) as [|first rest] eqn:Eprev; [discriminate Hat|].
    cbn in Hat. injection Hat as ->.
    ledger_cases; tidy; try reflexivity; try congruence; try lia;
      destruct (Hrec eq_refl) as [Hg Hs]; congruence.
Qed.

(** C7, as amended. When [reset()] returns, the history is empty, the current
    start counts are null, so that [hasDataProperty] is false, and the
    displayed start and end counts are the zero counts; a [reset()] that
    follows returns as well.  [reset()] returns from every state in which the
    displayed generation is 0, or no start counts are recorded, or the clock
    is at generation 0, or the ledger holds a record for generation 0. *)
Theorem reset_clears_ledger (assertEnabled : bool) (s : State) :
  let outcome := fst (reset BunnyCounts_eq_dec withZero assertEnabled s) in
  let s' := JS.after (reset BunnyCounts_eq_dec withZero assertEnabled) s in
  (resetSafe assertEnabled s -> outcome = inr tt) /\
  (outcome = inr tt ->
   history s' = [] /\
   currentStartCountsProperty s' = None /\
   hasDataProperty s' = false /\
   startCountsProperty s' = Some withZero /\
   endCountsProperty s' = withZero /\
   fst (reset BunnyCounts_eq_dec withZero assertEnabled s') = inr tt).
Proof.
  intros outcome s'. split.
  - apply reset_returns.
  - intros Hout. destruct (reset_clears assertEnabled s Hout) as (H1 & H2 & H3 & H4).
    fold s' in H1, H2, H3, H4. unfold history, hasDataProperty.
    rewrite H2. repeat split; try assumption.
    apply reset_returns. right. left. exact H2.
Qed.

(** *** Playing and the displayed generation *)

Lemma viewing_another_generation_pauses (assertEnabled : bool) (s : State) (g : Z) :
  playingShowsCurrent s ->
  g <> clockGeneration s ->
  let s' := JS.after (perform assertEnabled (ProportionsGenerationChanges g)) s in
  proportionsGenerationProperty s' = g /\ isPlayingProperty s' = false.
Proof.
  unfold playingShowsCurrent. intros H Hg.
  ledger_cases; tidy; split; try congruence; try reflexivity;
    destruct (isPlayingProperty s); try reflexivity;
    specialize (H eq_refl); congruence.
Qed.

Lemma playing_shows_clock_generation (assertEnabled : bool) (s : State) :
  playingShowsCurrent s ->
  let s' := JS.after (perform assertEnabled (IsPlayingChanges true)) s in
  fst (perform assertEnabled (IsPlayingChanges true) s) = inr tt /\
  isPlayingProperty s' = true /\
  proportionsGenerationProperty s' = clockGeneration s'.
Proof.
  unfold playingShowsCurrent. intros H.
  ledger_cases; tidy; repeat split; try congruence; try reflexivity;
    try (apply H; assumption).
Qed.

(** C9. The constructor establishes, and every call on the model keeps, even
    when the call throws: while [isPlayingProperty] is true,
    [proportionsGenerationProperty] is the clock's generation.  Where this
    holds, setting the displayed generation to another value than the clock's
    generation leaves [isPlayingProperty] false, and setting
    [isPlayingProperty] to true returns with the displayed generation at the
    clock's generation. *)
Theorem playing_displays_current_generation (assertEnabled : bool) (s : State) :
  playingShowsCurrent s ->
  (forall c, playingShowsCurrent (JS.after (perform assertEnabled c) s)) /\
  (forall g,
      g <> clockGeneration s ->
      let s' := JS.after (perform assertEnabled (ProportionsGenerationChanges g)) s in
      proportionsGenerationProperty s' = g /\ isPlayingProperty s' = false) /\
  (let s' := JS.after (perform assertEnabled (IsPlayingChanges true)) s in
   fst (perform assertEnabled (IsPlayingChanges true) s) = inr tt /\
   isPlayingProperty s' = true /\
   proportionsGenerationProperty s' = clockGeneration s') /\
  (forall live clock isPlaying,
      playingShowsCurrent (snd (constructor assertEnabled live clock isPlaying))).
Proof.
  intros H. split; [|split; [|split]].
  - intros c. apply perform_keeps_playingShowsCurrent, H.
  - intros g Hg. apply viewing_another_generation_pauses; assumption.
  - apply playing_shows_clock_generation, H.
  - intros live clock isPlaying. apply constructor_state.
Qed.


(** *** More of the ledger: what it shows without data, and while playing *)

Lemma perform_keeps_noDataDisplay (assertEnabled : bool) (c : Call) (s : State) :
  noDataDisplay withZero s -> noDataDisplay withZero (JS.after (perform assertEnabled c) s).
Proof.
  unfold noDataDisplay. intros H.
  destruct c; ledger_cases; tidy; intros; try discriminate; try congruence;
    try (repeat split; congruence);
    try (match goal with
         | Hn : currentStartCountsProperty s = None |- _ =>
             destruct (H Hn) as (? & ? & ?); repeat split; congruence
         end);
    try (destruct (H eq_refl) as (? & ? & ?); repeat split; congruence).
Qed.

Lemma reachable_noDataDisplay (assertEnabled : bool) (s : State) :
  reachable assertEnabled s -> noDataDisplay withZero s.
Proof.
  apply reachable_keeps.
  - intros live clock isPlaying. unfold noDataDisplay.
    ledger_cases; tidy; intros; repeat split; congruence.
  - intros c s'. apply perform_keeps_noDataDisplay.
Qed.

(** X14. As long as no start counts are recorded, the graph displays the
    zero counts for the start and for the end of the generation, whatever
    generation it is on, and a change of the live counts does not reach the
    display. *)
Theorem no_data_displays_zero (assertEnabled : bool) (s : State) (live : BunnyCounts) :
  reachable assertEnabled s ->
  hasDataProperty s = false ->
  startCountsProperty s = Some withZero /\
  endCountsProperty s = withZero /\
  let s' := JS.after (perform assertEnabled (LiveBunnyCountsChange live)) s in
  fst (perform assertEnabled (LiveBunnyCountsChange live) s) = inr tt /\
  startCountsProperty s' = Some withZero /\
  endCountsProperty s' = withZero.
Proof.
  intros Hr Hno.
  assert (Hnone : currentStartCountsProperty s = None).
  { unfold hasDataProperty, instanceofBunnyCounts in Hno.
    destruct (currentStartCountsProperty s); [discriminate Hno | reflexivity]. }
  destruct (reachable_noDataDisplay assertEnabled s Hr Hnone) as (Hs & He & Hl).
  split; [exact Hs|]. split; [exact He|]. cbn zeta.
  ledger_cases; tidy; repeat split; congruence.
Qed.

Lemma perform_keeps_playingRange (assertEnabled : bool) (c : Call) (s : State) :
  playingShowsCurrent s -> playingRange s ->
  playingRange (JS.after (perform assertEnabled c) s).
Proof.
  unfold playingShowsCurrent, playingRange. intros Hshown H.
  destruct c; ledger_cases; tidy; intros; try discriminate; try congruence;
    try (match goal with
         | Hp : isPlayingProperty s = true |- _ =>
             specialize (H Hp); specialize (Hshown Hp)
         end);
    try (specialize (H eq_refl); specialize (Hshown eq_refl));
    try congruence;
    try (unfold clockGeneration in *; cbn in *; congruence).
  all: assert (E : Z.of_nat (clockGenerationProperty s) = 0%Z) by congruence;
    rewrite E; reflexivity.
Qed.

Lemma reachable_playingRange (assertEnabled : bool) (s : State) :
  reachable assertEnabled s -> playingShowsCurrent s /\ playingRange s.
Proof.
  apply (reachable_keeps assertEnabled (fun s => playingShowsCurrent s /\ playingRange s)).
  - intros live clock isPlaying. split; [apply constructor_state|].
    unfold playingRange. ledger_cases; tidy; intros; try discriminate; try congruence.
  - intros c s' [H1 H2]. split.
    + apply perform_keeps_playingShowsCurrent, H1.
    + apply perform_keeps_playingRange; assumption.
Qed.

(** X15. While the sim plays, the generation of the graph can range from 0
    to the clock's generation, and the generation displayed, the clock's,
    lies in that range. *)
Theorem playing_range_ends_at_the_clock (assertEnabled : bool) (s : State) :
  reachable assertEnabled s ->
  isPlayingProperty s = true ->
  proportionsGenerationRange s = Dot.mkRange 0 (inject_Z (clockGeneration s)) /\
  Dot.contains (proportionsGenerationRange s)
               (inject_Z (proportionsGenerationProperty s)) = true.
Proof.
  intros Hr Hp. destruct (reachable_playingRange assertEnabled s Hr) as [Hshown Hrange].
  specialize (Hshown Hp). specialize (Hrange Hp).
  split; [exact Hrange|]. rewrite Hrange, Hshown. unfold Dot.contains. cbn [Dot.min Dot.max].
  unfold clockGeneration. rewrite zero_le_generation, Qle_bool_refl. reflexivity.
Qed.

Lemma perform_keeps_historyHasData (c : Call) (s : State) :
  historyHasData s -> historyHasData (JS.after (perform true c) s).
Proof.
  unfold historyHasData. intros H.
  destruct c; ledger_cases; tidy; intros; try discriminate; try congruence;
    try (apply H; congruence);
    try (match goal with
         | Hn : _ ++ _ <> [] |- _ => congruence
         end).
  all: exfalso;
    match goal with
    | Hx : ?P -> None <> None, Hy : ?P |- _ => exact (Hx Hy eq_refl)
    end.
Qed.

(** X16. With assertions running, a ledger that holds a record has data:
    the start counts of the current generation are recorded, and so are
    those of every record. *)
Theorem history_implies_data (s : State) :
  reachable true s ->
  history s <> [] ->
  hasDataProperty s = true /\
  forall i counts, nth_error (history s) i = Some counts -> startCounts counts <> None.
Proof.
  intros Hr Hh. split.
  - assert (H : historyHasData s).
    { revert s Hr Hh. intros s Hr _. revert s Hr. apply reachable_keeps.
      - intros live clock isPlaying Hne. exfalso. apply Hne.
        apply (constructor_state true live clock isPlaying).
      - intros c s'. apply perform_keeps_historyHasData. }
    specialize (H Hh). unfold hasDataProperty, instanceofBunnyCounts.
    destruct (currentStartCountsProperty s); [reflexivity | contradiction].
  - intros i counts Hn. apply (reachable_recordsWellFormed s Hr i counts Hn).
Qed.


(** X25. A reset that returns leaves the model as its constructor would
    build it on the three Properties of the environment as they are then:
    all the Properties of the model, the ledger and the link to the live
    counts are those of a new model. *)
Theorem reset_restores_construction (assertEnabled : bool) (s : State) :
  reachable assertEnabled s ->
  fst (reset BunnyCounts_eq_dec withZero assertEnabled s) = inr tt ->
  JS.after (reset BunnyCounts_eq_dec withZero assertEnabled) s
  = snd (constructor assertEnabled (liveBunnyCountsProperty s) (clockGenerationProperty s)
           (isPlayingProperty s)).
Proof.
  intros Hr.
  pose proof (reachable_playingShowsCurrent assertEnabled s Hr) as Hshown.
  pose proof (reachable_noDataDisplay assertEnabled s Hr) as Hno.
  unfold playingShowsCurrent, noDataDisplay in *.
  ledger_cases; tidy; intros; try discriminate; try congruence.
  all: try (match goal with
            | Hn : currentStartCountsProperty _ = None,
              Hz : currentStartCountsProperty _ = None -> _ |- _ =>
                let Hl := fresh "Hl" in
                destruct (Hz Hn) as (_ & _ & Hl); rewrite ?Hn, ?Hl
            end).
  all: try (match goal with
            | Hp : isPlayingProperty _ = _ |- _ => rewrite ?Hp
            end).
  all: try reflexivity.
  all: try (destruct (isPlayingProperty _) eqn:Ep;
            [specialize (Hshown eq_refl); congruence | congruence]).
Qed.

End LedgerFacts.

(* ------------------------------------------------------------------------- *)
(** ** More of the projection: the ground trapezoid *)

(** A strict comparison, as the code tests it. *)
Lemma Qlt_bool_true (a b : Q) : a < b -> negb (Qle_bool b a) = true.
Proof.
  intros H. apply negb_true_iff. destruct (Qle_bool b a) eqn:E; [|reflexivity].
  apply Qle_bool_iff in E. lra.
Qed.

Lemma Qlt_bool_false (a b : Q) : negb (Qle_bool b a) = true -> a < b.
Proof.
  intros H. apply negb_true_iff in H. apply Qnot_le_lt. intros E.
  apply Qle_bool_iff in E. congruence.
Qed.

Lemma Qle_bool_false (a b : Q) : Qle_bool a b = false -> b < a.
Proof.
  intros H. apply Qnot_le_lt. intros E. apply Qle_bool_iff in E. congruence.
Qed.

Lemma Qneq_bool_true (a : Q) : ~ a == 0 -> negb (Qeq_bool a 0) = true.
Proof.
  intros H. apply negb_true_iff. destruct (Qeq_bool a 0) eqn:E; [|reflexivity].
  apply Qeq_bool_iff in E. contradiction.
Qed.

Section GroundFacts.
Import EnvironmentModelViewTransform.
Variable assertEnabled : bool.

(** The half width of the trapezoid at a depth in front of the camera. *)
Lemma getMaximumX_value (zModel : Q) :
  0 < zModel ->
  getMaximumX assertEnabled constructor zModel = inr (zModel * 770 * (1 # 2) / (150 * (310 - 95) / 100)).
Proof.
  intros H. unfold getMaximumX. rewrite (assert_true _ _ _ (Qlt_bool_true _ _ H)).
  reflexivity.
Qed.

Lemma getMinimumX_value (zModel : Q) :
  0 < zModel ->
  getMinimumX assertEnabled constructor zModel
  = inr (- (zModel * 770 * (1 # 2) / (150 * (310 - 95) / 100))).
Proof.
  intros H. unfold getMinimumX. rewrite (getMaximumX_value _ H). reflexivity.
Qed.

Lemma getGroundY_value (zModel : Q) :
  150 <= zModel <= 300 ->
  getGroundY assertEnabled constructor zModel
  = inr (- (300 - zModel) / (300 - 150) * 100).
Proof.
  intros H. unfold getGroundY. rewrite (assert_true _ _ _ (Qle_bool_and _ _ _ H)).
  reflexivity.
Qed.

(** What [isGroundPosition] tests, whatever the position: it never throws,
    because x and y are only looked at for a depth on the ground. *)
Lemma isGroundPosition_value (position : Vector3) :
  isGroundPosition assertEnabled constructor position
  = inr (Qle_bool 150 (z position) && Qle_bool (z position) 300 &&
         (Qle_bool (- (z position * 770 * (1 # 2) / (150 * (310 - 95) / 100))) (x position) &&
          Qle_bool (x position) (z position * 770 * (1 # 2) / (150 * (310 - 95) / 100))) &&
         Qeq_bool (y position) (- (300 - z position) / (300 - 150) * 100)).
Proof.
  unfold isGroundPosition, isGroundZ.
  change (zNearModel constructor) with 150. change (zFarModel constructor) with 300.
  destruct (Qle_bool 150 (z position)) eqn:E1; [|reflexivity].
  destruct (Qle_bool (z position) 300) eqn:E2; [|reflexivity].
  apply Qle_bool_iff in E1, E2.
  assert (Hpos : 0 < z position) by lra.
  unfold isGroundX, isGroundY.
  rewrite (getMinimumX_value _ Hpos), (getMaximumX_value _ Hpos),
    (getGroundY_value _ (conj E1 E2)).
  cbn [JS.bind JS.ret andb].
  destruct (Qle_bool _ (x position)); [|reflexivity].
  cbn [JS.bind JS.ret andb].
  destruct (Qle_bool (x position) _); reflexivity.
Qed.

Lemma isGroundPosition_inversion (position : Vector3) :
  isGroundPosition assertEnabled constructor position = inr true ->
  150 <= z position <= 300 /\
  - (77 # 129) * (2 * z position) <= x position <= (77 # 129) * (2 * z position) /\
  y position == - (300 - z position) / (300 - 150) * 100.
Proof.
  rewrite isGroundPosition_value. intros H. injection H as H.
  apply andb_true_iff in H. destruct H as [H Hy].
  apply andb_true_iff in H. destruct H as [Hz Hx].
  apply andb_true_iff in Hz. destruct Hz as [Hz1 Hz2].
  apply andb_true_iff in Hx. destruct Hx as [Hx1 Hx2].
  apply Qle_bool_iff in Hz1, Hz2, Hx1, Hx2. apply Qeq_bool_iff in Hy.
  assert (E : z position * 770 * (1 # 2) / (150 * (310 - 95) / 100)
              == (77 # 129) * (2 * z position)) by (field).
  rewrite E in Hx1, Hx2.
  repeat split; try assumption; lra.
Qed.


(** X1. A position on the ground trapezoid projects into the view, at or
    below the horizon, and [viewToModelGroundPosition] takes the view point
    back to the position: none of the assertions on the way fails. *)
Theorem ground_position_round_trip (position : Vector3) :
  isGroundPosition assertEnabled constructor position = inr true ->
  exists xView yView position',
    modelToViewX assertEnabled constructor position = inr xView /\
    modelToViewY assertEnabled constructor position = inr yView /\
    0 <= xView <= width (viewSize constructor) /\
    yHorizonView constructor <= yView <= height (viewSize constructor) /\
    viewToModelGroundPosition assertEnabled constructor xView yView = inr position' /\
    x position' == x position /\ y position' == y position /\ z position' == z position.
Proof.
  intros H. apply isGroundPosition_inversion in H.
  destruct position as [px py pz]. cbn [x y z] in H.
  destruct H as ([Hz1 Hz2] & [Hx1 Hx2] & Hy).
  assert (Hnz : ~ pz == 0) by (intro E; rewrite E in Hz1; lra).
  assert (Hpos : 0 < pz) by lra.
  unfold modelToViewX, modelToViewY. cbn [x y z].
  rewrite !(assert_true _ _ _ (Qneq_bool_true _ Hnz)). cbn [JS.bind JS.ret].
  set (xView := width (viewSize constructor) / 2 + px / pz * xyScaleFactor constructor).
  set (yView := yHorizonView constructor - py / pz * xyScaleFactor constructor).
  assert (Ex : xView == 385 + (645 # 2) * (px / pz)) by (unfold xView; cbn; field; exact Hnz).
  assert (Ey : yView == 64500 / pz - 120).
  { unfold yView. cbn. rewrite Hy. field. exact Hnz. }
  assert (Hq1 : - (154 # 129) <= px / pz) by (apply Qle_shift_div_l; lra).
  assert (Hq2 : px / pz <= 154 # 129) by (apply Qle_shift_div_r; lra).
  assert (Hr1 : 215 <= 64500 / pz) by (apply Qle_shift_div_l; lra).
  assert (Hr2 : 64500 / pz <= 430) by (apply Qle_shift_div_r; lra).
  assert (Hxv : 0 <= xView <= width (viewSize constructor)) by (cbn; rewrite Ex; lra).
  assert (Hyv : yHorizonView constructor <= yView <= height (viewSize constructor))
    by (cbn; rewrite Ey; lra).
  destruct (viewToModelZ_value assertEnabled yView Hyv) as (zModel & HzEq & Hz).
  assert (Hzz : zModel == pz).
  { rewrite Hz, Ey. field. split; [exact Hnz|]. intro E.
    assert (E' : 64500 / pz == 0) by lra. lra. }
  assert (Hb : 150 <= zModel <= 300) by (rewrite Hzz; lra).
  exists xView, yView. eexists.
  split; [reflexivity|]. split; [reflexivity|]. split; [exact Hxv|]. split; [exact Hyv|].
  unfold viewToModelGroundPosition.
  rewrite (assert_true _ _ _ (Qle_bool_and _ _ _ Hxv)), (assert_true _ _ _ (Qle_bool_and _ _ _ Hyv)).
  cbn [JS.bind]. rewrite HzEq. cbn [JS.bind].
  rewrite (getGroundY_value _ Hb). cbn [JS.bind JS.ret].
  split; [reflexivity|]. cbn [x y z]. split; [|split].
  - unfold viewToModelX. rewrite Hzz, Ex. cbn. field. exact Hnz.
  - rewrite Hzz, Hy. reflexivity.
  - exact Hzz.
Qed.


(** X2. In exact rational arithmetic, and whatever generator [dotRandom]
    is: for a margin between 0 and 180, when [nextDoubleBetween] returns a
    depth within the bounds it was given, [zNearModel + Z_MARGIN_MODEL] and
    [zFarModel - Z_MARGIN_MODEL], the bounds of the second draw,
    [getMinimumX] plus the margin and [getMaximumX] less the margin at that
    depth, are in order; and when that draw returns an x within them,
    [getRandomGroundPosition] returns the position of that x and depth, which
    is on the ground trapezoid, so that its check of the position passes. *)
Theorem random_ground_position_is_on_ground
        (Random : Type) (nextDoubleBetween : Q -> Q -> JS.Eff Random Q)
        (xMargin : Q) (random : Random) (zModel : Q) (random1 : Random) :
  0 <= xMargin <= 180 ->
  nextDoubleBetween (zNearModel constructor + Z_MARGIN_MODEL)
                    (zFarModel constructor - Z_MARGIN_MODEL) random
  = (inr zModel, random1) ->
  zNearModel constructor + Z_MARGIN_MODEL <= zModel
    <= zFarModel constructor - Z_MARGIN_MODEL ->
  exists xMax,
    getMaximumX assertEnabled constructor zModel = inr xMax /\
    - xMax + xMargin < xMax - xMargin /\
    forall (xModel : Q) (random2 : Random),
      nextDoubleBetween (- xMax + xMargin) (xMax - xMargin) random1 = (inr xModel, random2) ->
      - xMax + xMargin <= xModel <= xMax - xMargin ->
      exists position,
        getRandomGroundPosition assertEnabled constructor nextDoubleBetween xMargin random
        = (inr position, random2) /\
        x position = xModel /\ z position = zModel /\
        isGroundPosition assertEnabled constructor position = inr true.
Proof.
  intros [Hm1 Hm2] Hz1 Hz.
  change (zNearModel constructor + Z_MARGIN_MODEL) with (150 + 1) in *.
  change (zFarModel constructor - Z_MARGIN_MODEL) with (300 - 1) in *.
  assert (Hpos : 0 < zModel) by lra.
  set (xMax := zModel * 770 * (1 # 2) / (150 * (310 - 95) / 100)).
  assert (Emax : xMax == (154 # 129) * zModel) by (unfold xMax; field).
  exists xMax. split; [exact (getMaximumX_value _ Hpos)|].
  split; [rewrite Emax; lra|].
  intros xModel random2 Hx1 Hx.
  assert (Hb : 150 <= zModel <= 300) by lra.
  set (position := mkVector3 xModel (- (300 - zModel) / (300 - 150) * 100) zModel).
  assert (Hground : isGroundPosition assertEnabled constructor position = inr true).
  { rewrite isGroundPosition_value. unfold position. cbn [x y z]. f_equal.
    fold xMax.
    repeat (apply andb_true_intro; split); try (apply Qle_bool_iff; lra).
    apply Qeq_bool_iff. reflexivity. }
  exists position. split; [|split; [reflexivity|split; [reflexivity | exact Hground]]].
  unfold getRandomGroundPosition.
  change (zNearModel constructor + Z_MARGIN_MODEL) with (150 + 1).
  change (zFarModel constructor - Z_MARGIN_MODEL) with (300 - 1).
  unfold JS.seq at 1. rewrite Hz1.
  unfold JS.seq at 1. unfold JS.lift at 1. rewrite (getMinimumX_value _ Hpos).
  unfold JS.seq at 1. unfold JS.lift at 1. rewrite (getMaximumX_value _ Hpos).
  fold xMax.
  unfold JS.seq at 1. rewrite Hx1.
  unfold JS.seq at 1. unfold JS.lift at 1. rewrite (getGroundY_value _ Hb).
  fold position.
  unfold JS.seq at 1. unfold JS.lift at 1.
  destruct assertEnabled.
  - rewrite Hground. reflexivity.
  - reflexivity.
Qed.

(** X3. Farther away is drawn smaller: for two depths on the ground, the
    nearer one first, [getViewScale] returns for both, the scale of the
    farther one is at most that of the nearer one, and both lie between one
    half (at the far plane) and [NEAR_SCALE] (at the near plane). *)
Theorem view_scale_shrinks_with_depth (zNearer zFarther : Q) :
  zNearModel constructor <= zNearer ->
  zNearer <= zFarther ->
  zFarther <= zFarModel constructor ->
  exists scaleNearer scaleFarther,
    getViewScale assertEnabled constructor zNearer = inr scaleNearer /\
    getViewScale assertEnabled constructor zFarther = inr scaleFarther /\
    1 # 2 <= scaleFarther /\ scaleFarther <= scaleNearer /\ scaleNearer <= NEAR_SCALE /\
    (zNearer == zNearModel constructor -> scaleNearer == NEAR_SCALE) /\
    (zFarther == zFarModel constructor -> scaleFarther == 1 # 2).
Proof.
  cbn [zNearModel zFarModel constructor]. intros H1 H2 H3.
  assert (Hn : 0 < zNearer) by lra. assert (Hf : 0 < zFarther) by lra.
  unfold getViewScale.
  rewrite (assert_true _ _ _ (Qlt_bool_true 0 zNearer Hn)).
  rewrite (assert_true _ _ _ (Qlt_bool_true 0 zFarther Hf)).
  cbn [JS.bind JS.ret zNearModel constructor].
  do 2 eexists. split; [reflexivity|]. split; [reflexivity|].
  unfold NEAR_SCALE.
  assert (Hinv : / zFarther <= / zNearer).
  { apply Qle_shift_inv_l; [exact Hn|].
    setoid_replace (/ zFarther * zNearer) with (zNearer / zFarther) by (field; lra).
    apply Qle_shift_div_r; lra. }
  assert (Ea : 1 * 150 / zNearer == 150 * / zNearer) by (field; lra).
  assert (Eb : 1 * 150 / zFarther == 150 * / zFarther) by (field; lra).
  split; [|split; [|split; [|split]]].
  - apply Qle_shift_div_l; lra.
  - rewrite Ea, Eb. lra.
  - apply Qle_shift_div_r; lra.
  - intros E. rewrite E. reflexivity.
  - intros E. rewrite E. reflexivity.
Qed.

(** X4. In exact rational arithmetic: at every depth in front of the
    camera, the left and the right edge of the trapezoid, [getMinimumX] and
    [getMaximumX], project onto the left and the right edge of the view,
    whatever the height. *)
Theorem trapezoid_edges_project_to_view_edges (zModel yModel : Q) :
  0 < zModel ->
  exists xMin xMax xLeft xRight,
    getMinimumX assertEnabled constructor zModel = inr xMin /\
    getMaximumX assertEnabled constructor zModel = inr xMax /\
    modelToViewX assertEnabled constructor (mkVector3 xMin yModel zModel) = inr xLeft /\
    modelToViewX assertEnabled constructor (mkVector3 xMax yModel zModel) = inr xRight /\
    xLeft == 0 /\ xRight == width (viewSize constructor).
Proof.
  intros Hpos. assert (Hnz : ~ zModel == 0) by lra.
  rewrite (getMinimumX_value _ Hpos), (getMaximumX_value _ Hpos).
  unfold modelToViewX. cbn [x y z].
  rewrite !(assert_true _ _ _ (Qneq_bool_true _ Hnz)). cbn [JS.bind JS.ret].
  do 4 eexists. repeat (split; [reflexivity|]).
  cbn. split; field; exact Hnz.
Qed.

(** X5. In exact rational arithmetic, distances at a depth: moving a
    position right by [viewToModelDistance( d, z )] moves its projection
    right by [d], moving it down by that much moves its projection down by
    [d], and [viewToModelX] takes the projected x back to the model x at that
    depth.  The depth is any but 0. *)
Theorem view_distance_is_model_distance (position : Vector3) (distanceView : Q) :
  ~ z position == 0 ->
  let distanceModel := viewToModelDistance constructor distanceView (z position) in
  exists xView yView xMoved yMoved,
    modelToViewX assertEnabled constructor position = inr xView /\
    modelToViewY assertEnabled constructor position = inr yView /\
    modelToViewX assertEnabled constructor
      (mkVector3 (x position + distanceModel) (y position) (z position)) = inr xMoved /\
    modelToViewY assertEnabled constructor
      (mkVector3 (x position) (y position - distanceModel) (z position)) = inr yMoved /\
    xMoved == xView + distanceView /\
    yMoved == yView + distanceView /\
    viewToModelX constructor xView (z position) == x position.
Proof.
  intros Hnz. cbn zeta. unfold modelToViewX, modelToViewY. cbn [x y z].
  rewrite !(assert_true _ _ _ (Qneq_bool_true _ Hnz)). cbn [JS.bind JS.ret].
  do 4 eexists. repeat (split; [reflexivity|]).
  unfold viewToModelDistance, viewToModelX. cbn.
  repeat split; field; exact Hnz.
Qed.

(** X6. [isGroundPosition] returns for every position, also where
    [getMaximumX] and [getGroundY] would fail their assertions, since the
    depth is tested first.  It returns true exactly for a depth between the
    near and the far plane, an x between [getMinimumX] and [getMaximumX] at
    that depth, and the y of the ground at that depth. *)
Theorem isGroundPosition_never_throws (position : Vector3) :
  exists onGround,
    isGroundPosition assertEnabled constructor position = inr onGround /\
    (onGround = true <->
     zNearModel constructor <= z position <= zFarModel constructor /\
     (exists xMin xMax yGround,
         getMinimumX assertEnabled constructor (z position) = inr xMin /\
         getMaximumX assertEnabled constructor (z position) = inr xMax /\
         getGroundY assertEnabled constructor (z position) = inr yGround /\
         xMin <= x position <= xMax /\ y position == yGround)).
Proof.
  rewrite isGroundPosition_value. eexists. split; [reflexivity|].
  cbn [zNearModel zFarModel constructor]. split.
  - intros H.
    apply andb_true_iff in H. destruct H as [H Hy].
    apply andb_true_iff in H. destruct H as [Hz Hx].
    apply andb_true_iff in Hz. destruct Hz as [Hz1 Hz2].
    apply andb_true_iff in Hx. destruct Hx as [Hx1 Hx2].
    apply Qle_bool_iff in Hz1, Hz2, Hx1, Hx2. apply Qeq_bool_iff in Hy.
    assert (Hpos : 0 < z position) by lra.
    split; [split; assumption|].
    rewrite (getMinimumX_value _ Hpos), (getMaximumX_value _ Hpos),
      (getGroundY_value _ (conj Hz1 Hz2)).
    do 3 eexists. repeat (split; [reflexivity|]). repeat split; assumption.
  - intros ([Hz1 Hz2] & xMin & xMax & yGround & Hmin & Hmax & Hg & [Hx1 Hx2] & Hy).
    assert (Hpos : 0 < z position) by lra.
    rewrite (getMinimumX_value _ Hpos) in Hmin. rewrite (getMaximumX_value _ Hpos) in Hmax.
    rewrite (getGroundY_value _ (conj Hz1 Hz2)) in Hg.
    injection Hmin as <-. injection Hmax as <-. injection Hg as <-.
    repeat (apply andb_true_intro; split); try (apply Qle_bool_iff; assumption).
    apply Qeq_bool_iff. exact Hy.
Qed.

(** X7. The ground rises from [-riseModel] at the near plane to 0 at the
    far plane: for a depth between the planes [getGroundPosition] returns a
    position at that x and depth whose y lies between [-riseModel] and 0,
    and of two depths the farther one is at least as high. *)
Theorem ground_rises_with_depth (xModel zNearer zFarther : Q) :
  zNearModel constructor <= zNearer ->
  zNearer <= zFarther ->
  zFarther <= zFarModel constructor ->
  exists nearer farther,
    getGroundPosition assertEnabled constructor xModel zNearer = inr nearer /\
    getGroundPosition assertEnabled constructor xModel zFarther = inr farther /\
    x nearer = xModel /\ z nearer = zNearer /\
    - riseModel constructor <= y nearer /\ y nearer <= y farther /\ y farther <= 0 /\
    (zNearer == zNearModel constructor -> y nearer == - riseModel constructor) /\
    (zFarther == zFarModel constructor -> y farther == 0).
Proof.
  cbn [zNearModel zFarModel riseModel constructor]. intros H1 H2 H3.
  assert (Hn : 150 <= zNearer <= 300) by lra.
  assert (Hf : 150 <= zFarther <= 300) by lra.
  unfold getGroundPosition.
  change (zNearModel constructor) with 150. change (zFarModel constructor) with 300.
  rewrite (assert_true _ _ _ (Qle_bool_and 150 zNearer 300 Hn)).
  rewrite (assert_true _ _ _ (Qle_bool_and 150 zFarther 300 Hf)).
  cbn [JS.bind].
  rewrite (getGroundY_value zNearer Hn), (getGroundY_value zFarther Hf). cbn [JS.bind JS.ret].
  do 2 eexists. repeat (split; [reflexivity|]). cbn [x y z].
  assert (En : - (300 - zNearer) / (300 - 150) * 100 == (2 # 3) * zNearer - 200) by field.
  assert (Ef : - (300 - zFarther) / (300 - 150) * 100 == (2 # 3) * zFarther - 200) by field.
  rewrite En, Ef.
  repeat split; try lra; intros E; rewrite E; reflexivity.
Qed.

End GroundFacts.


(** The position (0, -50, 225), half way up the ground, with assertions
    running. *)
Lemma ground_position_round_trip_witness :
  let position := EnvironmentModelViewTransform.mkVector3 0 (-50) 225 in
  exists xView yView position',
    EnvironmentModelViewTransform.modelToViewX true
      EnvironmentModelViewTransform.constructor position = inr xView /\
    EnvironmentModelViewTransform.modelToViewY true
      EnvironmentModelViewTransform.constructor position = inr yView /\
    0 <= xView <= 770 /\
    95 <= yView <= 310 /\
    EnvironmentModelViewTransform.viewToModelGroundPosition true
      EnvironmentModelViewTransform.constructor xView yView = inr position' /\
    EnvironmentModelViewTransform.x position' == 0 /\
    EnvironmentModelViewTransform.y position' == -50 /\
    EnvironmentModelViewTransform.z position' == 225.
Proof.
  intros position.
  apply (ground_position_round_trip true position). vm_compute. reflexivity.
Defined.

(** A generator that counts its calls and returns the middle of its
    bounds, with a margin of 10. *)
Lemma random_ground_position_is_on_ground_witness :
  let nextDoubleBetween :=
    fun (min max : Q) (calls : nat) => (inr (min + (1 # 2) * (max - min)), S calls) in
  exists position,
    EnvironmentModelViewTransform.getRandomGroundPosition true
      EnvironmentModelViewTransform.constructor nextDoubleBetween 10 0%nat
    = (inr position, 2%nat) /\
    EnvironmentModelViewTransform.z position == 225 /\
    EnvironmentModelViewTransform.isGroundPosition true
      EnvironmentModelViewTransform.constructor position = inr true.
Proof.
  intros nextDoubleBetween.
  destruct (random_ground_position_is_on_ground true nat nextDoubleBetween 10 0%nat
              (150 + 1 + (1 # 2) * (300 - 1 - (150 + 1))) 1%nat)
    as (xMax & HxMax & Horder & Hsecond);
    [lra | reflexivity
     | change (150 + 1 <= 150 + 1 + (1 # 2) * (300 - 1 - (150 + 1)) <= 300 - 1); lra |].
  destruct (Hsecond (- xMax + 10 + (1 # 2) * (xMax - 10 - (- xMax + 10))) 2%nat)
    as (position & Hposition & _ & Hz & Hground);
    [reflexivity | lra |].
  exists position. split; [exact Hposition|]. split; [rewrite Hz; reflexivity | exact Hground].
Defined.

(** The depths 200 and 250. *)
Lemma view_scale_shrinks_with_depth_witness :
  exists scaleNearer scaleFarther,
    EnvironmentModelViewTransform.getViewScale true
      EnvironmentModelViewTransform.constructor 200 = inr scaleNearer /\
    EnvironmentModelViewTransform.getViewScale true
      EnvironmentModelViewTransform.constructor 250 = inr scaleFarther /\
    1 # 2 <= scaleFarther /\ scaleFarther <= scaleNearer /\ scaleNearer <= 1.
Proof.
  destruct (view_scale_shrinks_with_depth true 200 250) as (n & f & Hn & Hf & H1 & H2 & H3 & _);
    [cbn; lra | lra | cbn; lra |].
  exists n, f. repeat split; assumption.
Defined.

(** The depth 200 at the height -10. *)
Lemma trapezoid_edges_project_to_view_edges_witness :
  exists xMin xMax xLeft xRight,
    EnvironmentModelViewTransform.getMinimumX true
      EnvironmentModelViewTransform.constructor 200 = inr xMin /\
    EnvironmentModelViewTransform.getMaximumX true
      EnvironmentModelViewTransform.constructor 200 = inr xMax /\
    EnvironmentModelViewTransform.modelToViewX true
      EnvironmentModelViewTransform.constructor
      (EnvironmentModelViewTransform.mkVector3 xMin (-10) 200) = inr xLeft /\
    EnvironmentModelViewTransform.modelToViewX true
      EnvironmentModelViewTransform.constructor
      (EnvironmentModelViewTransform.mkVector3 xMax (-10) 200) = inr xRight /\
    xLeft == 0 /\ xRight == 770.
Proof.
  apply (trapezoid_edges_project_to_view_edges true 200 (-10)). lra.
Defined.

(** A view distance of 30 at the position (20, -40, 240). *)
Lemma view_distance_is_model_distance_witness :
  let position := EnvironmentModelViewTransform.mkVector3 20 (-40) 240 in
  let distanceModel :=
    EnvironmentModelViewTransform.viewToModelDistance
      EnvironmentModelViewTransform.constructor 30 240 in
  exists xView yView xMoved yMoved,
    EnvironmentModelViewTransform.modelToViewX true
      EnvironmentModelViewTransform.constructor position = inr xView /\
    EnvironmentModelViewTransform.modelToViewY true
      EnvironmentModelViewTransform.constructor position = inr yView /\
    EnvironmentModelViewTransform.modelToViewX true
      EnvironmentModelViewTransform.constructor
      (EnvironmentModelViewTransform.mkVector3 (20 + distanceModel) (-40) 240) = inr xMoved /\
    EnvironmentModelViewTransform.modelToViewY true
      EnvironmentModelViewTransform.constructor
      (EnvironmentModelViewTransform.mkVector3 20 (-40 - distanceModel) 240) = inr yMoved /\
    xMoved == xView + 30 /\
    yMoved == yView + 30 /\
    EnvironmentModelViewTransform.viewToModelX
      EnvironmentModelViewTransform.constructor xView 240 == 20.
Proof.
  intros position distanceModel.
  apply (view_distance_is_model_distance true position 30). cbn. lra.
Defined.

(** The depths 150 and 300, the two planes, at x = 5. *)
Lemma ground_rises_with_depth_witness :
  exists nearer farther,
    EnvironmentModelViewTransform.getGroundPosition true
      EnvironmentModelViewTransform.constructor 5 150 = inr nearer /\
    EnvironmentModelViewTransform.getGroundPosition true
      EnvironmentModelViewTransform.constructor 5 300 = inr farther /\
    EnvironmentModelViewTransform.y nearer == -100 /\
    EnvironmentModelViewTransform.y farther == 0.
Proof.
  destruct (ground_rises_with_depth true 5 150 300)
    as (n & f & Hn & Hf & _ & _ & _ & _ & _ & Hnear & Hfar);
    [cbn; lra | lra | cbn; lra |].
  exists n, f. split; [exact Hn|]. split; [exact Hf|].
  split; [apply Hnear | apply Hfar]; reflexivity.
Defined.

(* ------------------------------------------------------------------------- *)
(** ** More of the scroller: its buttons *)

Section ScrollerButtonFacts.
Import PopulationGenerationScroller.
Variable assertEnabled : bool.

Lemma setRange_follows (range : Dot.Range) (s : State) :
  buttonsFollowRange (JS.after (setRange range) s).
Proof. split; reflexivity. Qed.

Lemma act_follows (this : Closure) (a : Action) (s : State) :
  buttonsFollowRange s -> buttonsFollowRange (JS.after (act assertEnabled this a) s).
Proof.
  intros H. destruct a as [ | | range | m | b ].
  - unfold act, back, JS.after, JS.seq, JS.modify, JS.get, JS.lift. cbn [fst snd].
    destruct (Dot.newRange _ _ _) as [e|range]; cbn [fst snd].
    + exact H.
    + apply setRange_follows.
  - unfold act, forward, JS.after, JS.seq, JS.modify, JS.get, JS.lift. cbn [fst snd].
    destruct (Dot.newRange _ _ _) as [e|range]; cbn [fst snd].
    + exact H.
    + apply setRange_follows.
  - apply setRange_follows.
  - unfold act, JS.after, JS.seq, JS.get. cbn [fst snd].
    destruct (Qeq_bool (maxProperty s) m); [exact H | split; reflexivity].
  - exact H.
Qed.

(** X8. From its construction on, whatever is pressed and whatever the
    owners of the Properties set, the back button is enabled exactly when
    the range starts after 0 and the forward button exactly when the range
    ends before [maxProperty.value]. *)
Theorem buttons_follow_range
        (options_step : Q) (s0 s1 : State) (this : Closure) (actions : list Action) :
  constructor options_step s0 = (inr this, s1) ->
  let s := run assertEnabled this actions s1 in
  (backButtonEnabled s = true <-> 0 < Dot.min (rangeProperty s)) /\
  (forwardButtonEnabled s = true <-> Dot.max (rangeProperty s) < maxProperty s).
Proof.
  intros Hctor.
  assert (H1 : buttonsFollowRange s1).
  { unfold constructor, JS.seq, JS.get in Hctor. cbn [fst snd] in Hctor.
    injection Hctor as _ <-. split; reflexivity. }
  clear Hctor. cbn zeta. revert s1 H1.
  induction actions as [|a actions IH]; intros s1 H1.
  - cbn [run]. destruct H1 as [-> ->].
    split; (split; [apply Qlt_bool_false | apply Qlt_bool_true]).
  - cbn [run]. apply IH, act_follows, H1.
Qed.

(** X9. With a step of at least 1, the back callback pauses the sim and
    moves the end of the range strictly back, by no more than the step, onto
    an integer; [maxProperty] is left as it is, and the callback returns
    when the range had a [min] at most its [max] at construction. *)
Theorem back_pauses_and_snaps
        (options_step : Q) (s0 s1 : State) (this : Closure) (s : State) :
  Dot.min (rangeProperty s0) <= Dot.max (rangeProperty s0) ->
  constructor options_step s0 = (inr this, s1) ->
  1 <= options_step ->
  let s' := JS.after (back assertEnabled this) s in
  fst (back assertEnabled this s) = inr tt /\
  isPlayingProperty s' = false /\
  isInteger (Dot.max (rangeProperty s')) /\
  Dot.max (rangeProperty s) - options_step <= Dot.max (rangeProperty s') /\
  Dot.max (rangeProperty s') < Dot.max (rangeProperty s) - options_step + 1 /\
  Dot.max (rangeProperty s') < Dot.max (rangeProperty s) /\
  maxProperty s' = maxProperty s.
Proof.
  intros Hvalid Hctor Hstep.
  unfold constructor, JS.seq, JS.get, enableButtons, JS.modify, JS.unit_ in Hctor.
  injection Hctor as Hthis _. subst this.
  assert (Hlen : 0 <= Dot.getLength (rangeProperty s0))
    by (unfold Dot.getLength; lra).
  cbn zeta.
  unfold back, JS.after, JS.seq, JS.modify, JS.get, JS.lift. cbn [rangeLength step fst snd].
  rewrite (newRange_of_length assertEnabled _ _ Hlen).
  unfold setRange, JS.seq, JS.modify, enableButtons. cbn.
  set (m := Dot.max (rangeProperty s)).
  pose proof (Qle_ceiling (m - options_step)) as Hc1.
  pose proof (Qceiling_lt (m - options_step)) as Hc2.
  unfold ceil. unfold Z.sub in Hc2. rewrite inject_Z_plus, inject_Z_opp in Hc2.
  change (inject_Z 1) with 1 in Hc2.
  repeat split; try lra.
  exists (Qceiling (m - options_step)). reflexivity.
Qed.

(** X10. With a step of at least 1 and a range that ends at or before
    [maxProperty.value], the forward callback never moves the end of the
    range back and never past [maxProperty.value]; it moves it strictly
    forward unless the range already ends at [maxProperty.value], where
    pressing forward leaves the end in place.  The play state is left as it
    is. *)
Theorem forward_advances_up_to_max
        (options_step : Q) (s0 s1 : State) (this : Closure) (s : State) :
  Dot.min (rangeProperty s0) <= Dot.max (rangeProperty s0) ->
  constructor options_step s0 = (inr this, s1) ->
  1 <= options_step ->
  Dot.max (rangeProperty s) <= maxProperty s ->
  let s' := JS.after (forward assertEnabled this) s in
  fst (forward assertEnabled this s) = inr tt /\
  Dot.max (rangeProperty s) <= Dot.max (rangeProperty s') <= maxProperty s /\
  (Dot.max (rangeProperty s) < maxProperty s ->
   Dot.max (rangeProperty s) < Dot.max (rangeProperty s')) /\
  (Dot.max (rangeProperty s) == maxProperty s ->
   Dot.max (rangeProperty s') == Dot.max (rangeProperty s)) /\
  isPlayingProperty s' = isPlayingProperty s.
Proof.
  intros Hvalid Hctor Hstep Hmax.
  unfold constructor, JS.seq, JS.get, enableButtons, JS.modify, JS.unit_ in Hctor.
  injection Hctor as Hthis _. subst this.
  assert (Hlen : 0 <= Dot.getLength (rangeProperty s0))
    by (unfold Dot.getLength; lra).
  cbn zeta.
  unfold forward, JS.after, JS.seq, JS.modify, JS.get, JS.lift. cbn [rangeLength step fst snd].
  rewrite (newRange_of_length assertEnabled _ _ Hlen).
  unfold setRange, JS.seq, JS.modify, enableButtons. cbn.
  set (m := Dot.max (rangeProperty s)) in *.
  pose proof (Qlt_floor (m + options_step)) as Hf.
  rewrite inject_Z_plus in Hf. change (inject_Z 1) with 1 in Hf.
  unfold floor.
  set (f := inject_Z (Qfloor (m + options_step))) in *.
  assert (Hmf : m < f) by lra.
  split; [reflexivity|]. split; [split|split; [|split]].
  - apply Q.min_glb; lra.
  - apply Q.le_min_l.
  - intros Hlt. apply Q.min_glb_lt; assumption.
  - intros E. rewrite Q.min_l; lra.
  - reflexivity.
Qed.

(** X11. Back and then forward is a round trip for the end of the range:
    with an integer step and a range that ends on an integer at or before
    [maxProperty.value], pressing back and then forward puts the end of the
    range where it was, with the length of the range at construction, and
    leaves the sim paused. *)
Theorem back_then_forward_restores_range
        (options_step : Q) (s0 s1 : State) (this : Closure) (s : State) :
  Dot.min (rangeProperty s0) <= Dot.max (rangeProperty s0) ->
  constructor options_step s0 = (inr this, s1) ->
  isInteger options_step ->
  isInteger (Dot.max (rangeProperty s)) ->
  Dot.max (rangeProperty s) <= maxProperty s ->
  let s' := run assertEnabled this [PressBack; PressForward] s in
  Dot.max (rangeProperty s') == Dot.max (rangeProperty s) /\
  Dot.getLength (rangeProperty s') == Dot.getLength (rangeProperty s0) /\
  isPlayingProperty s' = false.
Proof.
  intros Hvalid Hctor [k Hk] [n Hn] Hmax.
  unfold constructor, JS.seq, JS.get, enableButtons, JS.modify, JS.unit_ in Hctor.
  injection Hctor as Hthis _. subst this.
  assert (Hlen : 0 <= Dot.getLength (rangeProperty s0))
    by (unfold Dot.getLength; lra).
  cbn zeta. cbn [run act].
  unfold back, forward, JS.after, JS.seq, JS.modify, JS.get, JS.lift.
  cbn [rangeLength step fst snd].
  rewrite (newRange_of_length assertEnabled _ _ Hlen).
  unfold setRange, JS.seq, JS.modify, enableButtons. cbn.
  rewrite (newRange_of_length assertEnabled _ _ Hlen). cbn.
  set (m := Dot.max (rangeProperty s)) in *.
  assert (Eback : ceil (m - options_step) == inject_Z (n - k)).
  { unfold ceil.
    assert (E : m - options_step == inject_Z (n - k))
      by (rewrite Hn, Hk; unfold Qminus; rewrite <- inject_Z_opp, <- inject_Z_plus; reflexivity).
    rewrite E, Qceiling_Z. reflexivity. }
  assert (Efwd : floor (ceil (m - options_step) + options_step) == m).
  { unfold floor.
    assert (E : ceil (m - options_step) + options_step == inject_Z n).
    { rewrite Eback, Hk, <- inject_Z_plus. apply inject_Z_injective. ring. }
    rewrite E, Qfloor_Z, Hn. reflexivity. }
  split; [|split; [|reflexivity]].
  - rewrite Efwd. apply Q.min_r. exact Hmax.
  - unfold Dot.getLength. cbn. ring.
Qed.

End ScrollerButtonFacts.


(** A scroller on the range [0, 5] with step 1: forward is pressed, the
    maximum moves to 8, forward and back are pressed. *)
Lemma buttons_follow_range_witness :
  let s0 := PopulationGenerationScroller.mkState (Dot.mkRange 0 5) 0 true false false in
  let this := PopulationGenerationScroller.mkClosure 1 (5 - 0) in
  let s1 := JS.after (PopulationGenerationScroller.constructor 1) s0 in
  let s := PopulationGenerationScroller.run true this
             [PopulationGenerationScroller.PressForward;
              PopulationGenerationScroller.MaxIsSet 8;
              PopulationGenerationScroller.PressForward;
              PopulationGenerationScroller.PressBack] s1 in
  (PopulationGenerationScroller.backButtonEnabled s = true
   <-> 0 < Dot.min (PopulationGenerationScroller.rangeProperty s)) /\
  (PopulationGenerationScroller.forwardButtonEnabled s = true
   <-> Dot.max (PopulationGenerationScroller.rangeProperty s)
       < PopulationGenerationScroller.maxProperty s).
Proof.
  intros s0 this s1 s.
  apply (buttons_follow_range true 1 s0 s1 this). reflexivity.
Defined.

(** The same scroller, scrolled back from the range [7/2, 17/2]. *)
Lemma back_pauses_and_snaps_witness :
  let s0 := PopulationGenerationScroller.mkState (Dot.mkRange 0 5) 0 true false false in
  let s := PopulationGenerationScroller.mkState (Dot.mkRange (7 # 2) (17 # 2)) 9 true true true in
  let this := PopulationGenerationScroller.mkClosure 1 (5 - 0) in
  let s' := JS.after (PopulationGenerationScroller.back true this) s in
  PopulationGenerationScroller.isPlayingProperty s' = false /\
  PopulationGenerationScroller.isInteger
    (Dot.max (PopulationGenerationScroller.rangeProperty s')) /\
  Dot.max (PopulationGenerationScroller.rangeProperty s') < 17 # 2.
Proof.
  intros s0 s this s'.
  assert (Hvalid : Dot.min (PopulationGenerationScroller.rangeProperty s0)
                   <= Dot.max (PopulationGenerationScroller.rangeProperty s0))
    by (cbn; lra).
  assert (Hctor : PopulationGenerationScroller.constructor 1 s0
                  = (inr this, JS.after (PopulationGenerationScroller.constructor 1) s0))
    by reflexivity.
  assert (Hstep : 1 <= 1) by lra.
  destruct (back_pauses_and_snaps true 1 s0 _ this s Hvalid Hctor Hstep)
    as (_ & Hpaused & Hint & _ & _ & Hlt & _).
  split; [exact Hpaused|]. split; [exact Hint | exact Hlt].
Defined.

(** The same scroller, scrolled forward from the range [7/2, 17/2] while
    the maximum is 9. *)
Lemma forward_advances_up_to_max_witness :
  let s0 := PopulationGenerationScroller.mkState (Dot.mkRange 0 5) 0 true false false in
  let s := PopulationGenerationScroller.mkState (Dot.mkRange (7 # 2) (17 # 2)) 9 true true true in
  let this := PopulationGenerationScroller.mkClosure 1 (5 - 0) in
  let s' := JS.after (PopulationGenerationScroller.forward true this) s in
  17 # 2 < Dot.max (PopulationGenerationScroller.rangeProperty s') /\
  Dot.max (PopulationGenerationScroller.rangeProperty s') <= 9.
Proof.
  intros s0 s this s'.
  assert (Hvalid : Dot.min (PopulationGenerationScroller.rangeProperty s0)
                   <= Dot.max (PopulationGenerationScroller.rangeProperty s0))
    by (cbn; lra).
  assert (Hctor : PopulationGenerationScroller.constructor 1 s0
                  = (inr this, JS.after (PopulationGenerationScroller.constructor 1) s0))
    by reflexivity.
  assert (Hstep : 1 <= 1) by lra.
  assert (Hmax : Dot.max (PopulationGenerationScroller.rangeProperty s)
                 <= PopulationGenerationScroller.maxProperty s) by (cbn; lra).
  destruct (forward_advances_up_to_max true 1 s0 _ this s Hvalid Hctor Hstep Hmax)
    as (_ & [_ Hle] & Hlt & _).
  split; [apply Hlt; cbn; lra | exact Hle].
Defined.

(** The same scroller on the range [3, 8] while the maximum is 9. *)
Lemma back_then_forward_restores_range_witness :
  let s0 := PopulationGenerationScroller.mkState (Dot.mkRange 0 5) 0 true false false in
  let s := PopulationGenerationScroller.mkState (Dot.mkRange 3 8) 9 true true true in
  let this := PopulationGenerationScroller.mkClosure 1 (5 - 0) in
  let s' := PopulationGenerationScroller.run true this
              [PopulationGenerationScroller.PressBack;
               PopulationGenerationScroller.PressForward] s in
  Dot.max (PopulationGenerationScroller.rangeProperty s') == 8 /\
  Dot.getLength (PopulationGenerationScroller.rangeProperty s') == 5 - 0 /\
  PopulationGenerationScroller.isPlayingProperty s' = false.
Proof.
  intros s0 s this s'.
  assert (Hvalid : Dot.min (PopulationGenerationScroller.rangeProperty s0)
                   <= Dot.max (PopulationGenerationScroller.rangeProperty s0))
    by (cbn; lra).
  assert (Hctor : PopulationGenerationScroller.constructor 1 s0
                  = (inr this, JS.after (PopulationGenerationScroller.constructor 1) s0))
    by reflexivity.
  assert (Hstep : PopulationGenerationScroller.isInteger 1) by (exists 1%Z; reflexivity).
  assert (Hend : PopulationGenerationScroller.isInteger
                   (Dot.max (PopulationGenerationScroller.rangeProperty s)))
    by (exists 8%Z; reflexivity).
  assert (Hmax : Dot.max (PopulationGenerationScroller.rangeProperty s)
                 <= PopulationGenerationScroller.maxProperty s) by (cbn; lra).
  exact (back_then_forward_restores_range true 1 s0 _ this s Hvalid Hctor Hstep Hend Hmax).
Defined.

(* ------------------------------------------------------------------------- *)
(** ** More of the screen view: graphs, dialogs and sprites *)

Section ScreenViewGraphFacts.
Import NaturalSelectionScreenView.

Ltac view_unfold :=
  unfold handle, allBunniesHaveDied, bunniesHaveTakenOverTheWorld, memoryLimit,
    endSimulation, setSimulationMode, enableControls, setGraphChoice, showGraph,
    reset, step, showDied, showWorld, showMemoryLimit, interruptSubtreeInput,
    moveBunniesToGround, updateSprites,
    JS.after, JS.seq, JS.get, JS.modify, JS.unit_;
  cbn; repeat (case_step; cbn).

(** The writes of the model leave the graphs alone. *)
Lemma modelWrites_visibleGraphs (writes : list ModelWrite) (s : State) :
  let s' := JS.after (modelWrites writes) (JS.after interruptSubtreeInput s) in
  visibleGraphs s' = visibleGraphs s /\ graphChoiceProperty s' = graphChoiceProperty s.
Proof.
  destruct (modelWrites_effects writes (JS.after interruptSubtreeInput s))
    as (_ & _ & _ & _ & Hg & Hv1 & Hv2 & Hv3 & _).
  cbn zeta in *. unfold visibleGraphs. rewrite Hg, Hv1, Hv2, Hv3. split; reflexivity.
Qed.

Lemma handle_visibleGraphs (e : Event) (s : State) :
  visibleGraphs s = [graphChoiceProperty s] ->
  visibleGraphs (JS.after (handle e) s) = [graphChoiceProperty (JS.after (handle e) s)].
Proof.
  intros H.
  destruct e as [ | | | mode | b | graph | | | writes | writes ].
  9: { rewrite resetAll_after.
       destruct (modelWrites_visibleGraphs writes s) as [Hv Hg]. cbn zeta in Hv, Hg.
       rewrite <- Hv, <- Hg in H. revert H.
       generalize (JS.after (modelWrites writes) (JS.after interruptSubtreeInput s)).
       intros s1 H. unfold visibleGraphs in *. view_unfold; try exact H; reflexivity. }
  9: { rewrite startOver_after.
       destruct (modelWrites_visibleGraphs writes s) as [Hv Hg]. cbn zeta in Hv, Hg.
       rewrite Hv, Hg. exact H. }
  all: unfold visibleGraphs in *; view_unfold; try exact H;
    try (destruct graph; cbn in *; try discriminate; reflexivity); reflexivity.
Qed.

(** X12. From the construction of the view on, whatever it handles, exactly
    one of the three graphs is visible, the one that [graphChoiceProperty]
    names; after a reset of the view that is the Population graph. *)
Theorem the_chosen_graph_is_the_visible_one
        (mode : SimulationMode) (isPlaying : bool) (events : list Event) :
  let s := run events (constructor mode isPlaying) in
  visibleGraphs s = [graphChoiceProperty s] /\
  graphChoiceProperty (JS.after reset s) = POPULATION /\
  visibleGraphs (JS.after reset s) = [POPULATION].
Proof.
  cbn zeta.
  assert (H : visibleGraphs (run events (constructor mode isPlaying))
              = [graphChoiceProperty (run events (constructor mode isPlaying))]).
  { generalize (constructor mode isPlaying) (eq_refl : visibleGraphs (constructor mode isPlaying)
                                                       = [graphChoiceProperty (constructor mode isPlaying)]).
    induction events as [|e events IH]; intros s Hs; cbn [run].
    - exact Hs.
    - apply IH, handle_visibleGraphs, Hs. }
  split; [exact H|].
  pose proof (handle_visibleGraphs ResetView _ H) as Hr. cbn [handle] in Hr.
  assert (Hg : graphChoiceProperty (JS.after reset (run events (constructor mode isPlaying)))
               = POPULATION).
  { generalize (run events (constructor mode isPlaying)). intros s.
    unfold reset, setGraphChoice, showGraph, JS.after, JS.seq, JS.get, JS.modify, JS.unit_.
    cbn. destruct (graphChoiceProperty s) eqn:E; cbn; try reflexivity. exact E. }
  split; [exact Hg|]. rewrite Hr, Hg. reflexivity.
Qed.

(** What the events leave of the dialogs and the counters. *)
Lemma handle_effects (e : Event) (s : State) :
  let s' := JS.after (handle e) s in
  inputInterrupts s'
  = (inputInterrupts s + (if isTerminal e then 1 else 0)
     + (if isRestart e then 1 else 0))%nat /\
  bunniesMovedToGround s' = (bunniesMovedToGround s + if isTerminal e then 1 else 0)%nat /\
  (spriteUpdates s'
   = spriteUpdates s + (if isTerminal e then 1 else 0)
     + (if isStep e && isPlayingProperty s then 1 else 0))%nat /\
  (isTerminal e = false -> dialogs s' = dialogs s).
Proof.
  destruct e as [ | | | mode | b | graph | | | writes | writes ].
  9: { cbn zeta. rewrite resetAll_after.
       destruct (modelWrites_effects writes (JS.after interruptSubtreeInput s))
         as (_ & _ & _ & _ & _ & _ & _ & _ & Hd & Hi & Hb & Hu).
       cbn zeta in *. revert Hd Hi Hb Hu.
       generalize (JS.after (modelWrites writes) (JS.after interruptSubtreeInput s)).
       intros s1 Hd Hi Hb Hu.
       assert (Hr : inputInterrupts (JS.after reset s1) = inputInterrupts s1 /\
                    bunniesMovedToGround (JS.after reset s1) = bunniesMovedToGround s1 /\
                    spriteUpdates (JS.after reset s1) = spriteUpdates s1 /\
                    dialogs (JS.after reset s1) = dialogs s1)
         by (view_unfold; repeat split).
       destruct Hr as (-> & -> & -> & ->). rewrite Hi, Hb, Hu, Hd. cbn.
       repeat split; lia. }
  9: { cbn zeta. rewrite startOver_after.
       destruct (modelWrites_effects writes (JS.after interruptSubtreeInput s))
         as (_ & _ & _ & _ & _ & _ & _ & _ & Hd & Hi & Hb & Hu).
       cbn zeta in *. rewrite Hi, Hb, Hu, Hd. cbn. repeat split; lia. }
  all: view_unfold; repeat split; try lia; try reflexivity; try discriminate.
Qed.

(** X13. The view interrupts input once for each terminal event and once
    for each press of Reset All or Start Over, and never otherwise; it moves
    the bunnies to the ground once for each terminal event and never
    otherwise, and it updates the sprites once for each terminal event and at
    most once for each step.  As long as no terminal event has fired, none of
    the three dialogs has been shown, and the simulation mode is the one the
    model wrote last. *)
Theorem only_terminal_events_end_the_simulation
        (mode : SimulationMode) (isPlaying : bool) (events : list Event) :
  let s := run events (constructor mode isPlaying) in
  inputInterrupts s
  = (List.length (terminalEvents events) + List.length (filter isRestart events))%nat /\
  bunniesMovedToGround s = List.length (terminalEvents events) /\
  (List.length (terminalEvents events) <= spriteUpdates s
   <= List.length (terminalEvents events) + List.length (filter isStep events))%nat /\
  (terminalEvents events = [] ->
   dialogs s = mkDialogs false false false /\
   simulationModeProperty s = last (flat_map modelModes events) mode).
Proof.
  cbn zeta.
  assert (Hgen : forall (s : State) (current : SimulationMode),
             simulationModeProperty s = current ->
             let s' := run events s in
             inputInterrupts s'
             = (inputInterrupts s + List.length (terminalEvents events)
                + List.length (filter isRestart events))%nat /\
             bunniesMovedToGround s'
             = (bunniesMovedToGround s + List.length (terminalEvents events))%nat /\
             (spriteUpdates s + List.length (terminalEvents events) <= spriteUpdates s'
              <= spriteUpdates s + List.length (terminalEvents events)
                 + List.length (filter isStep events))%nat /\
             (terminalEvents events = [] ->
              dialogs s' = dialogs s /\
              simulationModeProperty s' = last (flat_map modelModes events) current)).
  { induction events as [|e events IH]; intros s current Hcur; cbn zeta.
    - cbn. repeat split; try lia. exact Hcur.
    - cbn [run]. destruct (handle_effects e s) as (Hi & Hb & Hu & Hd).
      cbn zeta in Hi, Hb, Hu, Hd.
      pose proof (handle_mode e s) as Hm.
      specialize (IH (JS.after (handle e) s)
                     (simulationModeProperty (JS.after (handle e) s)) eq_refl).
      cbn zeta in IH. destruct IH as (IHi & IHb & IHu & IHd).
      unfold terminalEvents in *. cbn [filter].
      assert (Hupdates :
                (spriteUpdates s + (if isTerminal e then 1 else 0)
                 <= spriteUpdates (JS.after (handle e) s)
                 <= spriteUpdates s + (if isTerminal e then 1 else 0)
                    + (if isStep e then 1 else 0))%nat).
      { rewrite Hu. destruct (isStep e); cbn [andb]; destruct (isPlayingProperty s); lia. }
      destruct (isTerminal e) eqn:Et; cbn [List.length].
      + split; [destruct (isRestart e); cbn [List.length]; lia|]. split; [lia|]. split.
        * destruct (isStep e); cbn [List.length]; lia.
        * intros Hnone. discriminate Hnone.
      + split; [destruct (isRestart e); cbn [List.length]; lia|]. split; [lia|]. split.
        * destruct (isStep e); cbn [List.length]; lia.
        * intros Hnone. destruct (IHd Hnone) as [Hdd Hmm]. split.
          -- rewrite Hdd. apply Hd. reflexivity.
          -- rewrite Hmm, Hm, Hcur. cbn [flat_map].
             generalize (flat_map modelModes events) (modelModes e). clear.
             intros after now. revert current.
             induction now as [|m now IHnow]; intros current; [reflexivity|].
             cbn [app]. rewrite !last_cons. apply IHnow. }
  destruct (Hgen (constructor mode isPlaying) mode) as (Hi & Hb & Hu & Hd).
  { destruct mode; reflexivity. }
  cbn zeta in Hi, Hb, Hu, Hd.
  assert (E0 : inputInterrupts (constructor mode isPlaying) = O) by (destruct mode; reflexivity).
  assert (E1 : bunniesMovedToGround (constructor mode isPlaying) = O)
    by (destruct mode; reflexivity).
  assert (E2 : spriteUpdates (constructor mode isPlaying) = O) by (destruct mode; reflexivity).
  assert (E3 : dialogs (constructor mode isPlaying) = mkDialogs false false false)
    by (destruct mode; reflexivity).
  rewrite E0 in Hi. rewrite E1 in Hb. rewrite E2 in Hu. rewrite E3 in Hd.
  repeat split; try lia; try (apply Hd; assumption).
Qed.


(** X26. In every state that the view reaches from its construction, the
    mutation, environmental-factor, time and environment controls are all
    enabled when the simulation mode is not COMPLETED and all disabled when
    it is; so when the model sets a completed simulation to another mode,
    the four controls are enabled again. *)
Theorem controls_follow_the_mode
        (mode : SimulationMode) (isPlaying : bool) (events : list Event)
        (next : SimulationMode) :
  let s := run events (constructor mode isPlaying) in
  let s' := JS.after (handle (ModelSetsSimulationMode next)) s in
  (simulationModeProperty s = COMPLETED -> allDisabled (controls s)) /\
  (simulationModeProperty s <> COMPLETED -> allEnabled (controls s)) /\
  simulationModeProperty s' = next /\
  (next <> COMPLETED -> allEnabled (controls s')).
Proof.
  cbn zeta.
  assert (Hs : controlsFollowMode (run events (constructor mode isPlaying)))
    by apply run_controlsFollowMode, constructor_controlsFollowMode.
  set (s := run events (constructor mode isPlaying)) in *.
  assert (Hs' : controlsFollowMode (JS.after (handle (ModelSetsSimulationMode next)) s))
    by apply handle_controlsFollowMode, Hs.
  assert (Hnext : simulationModeProperty (JS.after (handle (ModelSetsSimulationMode next)) s)
                  = next).
  { unfold handle, setSimulationMode, JS.after, JS.seq, JS.get, JS.modify, JS.unit_,
      enableControls.
    cbn. destruct (SimulationMode_eqb (simulationModeProperty s) next) eqn:E; cbn.
    - destruct (simulationModeProperty s), next; try discriminate E; reflexivity.
    - reflexivity. }
  assert (Henabled : forall state : State,
             controlsFollowMode state ->
             simulationModeProperty state <> COMPLETED -> allEnabled (controls state)).
  { intros state Hc Hm. unfold controlsFollowMode in Hc. rewrite Hc.
    destruct (simulationModeProperty state); try contradiction; repeat split. }
  split; [apply completed_allDisabled, Hs|].
  split; [apply Henabled, Hs|].
  split; [exact Hnext|].
  intros Hne. apply Henabled; [exact Hs' | rewrite Hnext; exact Hne].
Qed.

End ScreenViewGraphFacts.

(* ------------------------------------------------------------------------- *)
(** ** A branch of the Pedigree graph *)

Section PedigreeFacts.
Import PedigreeBranchNode.
Variable Bunny : Type.
Variable Bunny_eq_dec : forall a b : Bunny, {a = b} + {a <> b}.
Variable father : Bunny -> option Bunny.
Variable mother : Bunny -> option Bunny.
Variable centerX : PedigreeBunnyNode Bunny -> Q.
Variable bottom : PedigreeBunnyNode Bunny -> Q.
Variable nodeY : Node Bunny -> Q.

Local Abbreviation new := (constructor Bunny_eq_dec father mother centerX bottom nodeY).

Lemma optionsOf_constructor (branchDepth : nat) (bunny : Bunny) (selectedBunny : option Bunny)
      (providedOptions : ProvidedOptions) :
  optionsOf (new branchDepth bunny selectedBunny providedOptions) = merge providedOptions.
Proof.
  destruct branchDepth as [|[|d]]; cbn; try reflexivity.
  destruct (father bunny), (mother bunny); reflexivity.
Qed.

Lemma isSelected_iff (selectedBunny : option Bunny) (bunny : Bunny) :
  isSelected Bunny_eq_dec selectedBunny bunny = true <-> selectedBunny = Some bunny.
Proof.
  unfold isSelected. destruct selectedBunny as [selected|].
  - destruct (Bunny_eq_dec selected bunny) as [->|Hne]; split; intros H;
      try reflexivity; try discriminate H.
    injection H as H. contradiction.
  - split; intros H; discriminate H.
Qed.

(** The constructor at a depth above 1. *)
Lemma constructor_above_one (parentsDepth : nat) (bunny : Bunny)
      (selectedBunny : option Bunny) (providedOptions : ProvidedOptions) :
  new (S (S parentsDepth)) bunny selectedBunny providedOptions
  = let options := merge providedOptions in
    let bunnyNode := mkPedigreeBunnyNode bunny (isSelected Bunny_eq_dec selectedBunny bunny) in
    match father bunny, mother bunny with
    | Some bunnyFather, Some bunnyMother =>
        let fatherNode :=
          new (S parentsDepth) bunnyFather selectedBunny
            (mkProvidedOptions (Some (X_SPACING_SCALE * xSpacing options)) None
               (Some PARENTS_SCALE)
               (Some (centerX bunnyNode - xSpacing options))
               (Some (bottom bunnyNode - ySpacing options))) in
        let motherNode :=
          new (S parentsDepth) bunnyMother selectedBunny
            (mkProvidedOptions (Some (X_SPACING_SCALE * xSpacing options)) None
               (Some PARENTS_SCALE)
               (Some (centerX bunnyNode + xSpacing options))
               (Some (bottom bunnyNode - ySpacing options))) in
        WithParents options bunnyNode fatherNode motherNode
          (mkShape
             (nodeX fatherNode + T_X_OFFSET, nodeY fatherNode - T_Y_OFFSET)
             (nodeX motherNode - T_X_OFFSET, nodeY fatherNode - T_Y_OFFSET)
             (centerX bunnyNode, nodeY fatherNode - T_Y_OFFSET)
             (centerX bunnyNode, nodeY fatherNode - T_Y_OFFSET + T_HEIGHT))
    | _, _ => Alone options bunnyNode
    end.
Proof. reflexivity. Qed.

Lemma constructor_without_parents (parentsDepth : nat) (bunny : Bunny)
      (selectedBunny : option Bunny) (providedOptions : ProvidedOptions) :
  father bunny = None \/ mother bunny = None ->
  new (S (S parentsDepth)) bunny selectedBunny providedOptions
  = Alone (merge providedOptions)
      (mkPedigreeBunnyNode bunny (isSelected Bunny_eq_dec selectedBunny bunny)).
Proof.
  intros H. rewrite constructor_above_one. cbn zeta.
  destruct H as [H|H]; rewrite H; [reflexivity|].
  destruct (father bunny); reflexivity.
Qed.

(** The bunny nodes of a branch that shows [generations] generations. *)
Lemma dispose_generations (selectedBunny : option Bunny) (generations : nat) :
  forall (bunny : Bunny) (providedOptions : ProvidedOptions),
    let disposed := dispose (new (S generations) bunny selectedBunny providedOptions) in
    (List.length disposed + 1 <= 2 ^ S generations)%nat /\
    forall bunnyNode,
      In bunnyNode disposed ->
      (exists above, (above <= generations)%nat /\
                     ancestor father mother above bunny (PedigreeBranchNode.bunny bunnyNode)) /\
      (bunnyIsSelected bunnyNode = true <->
       selectedBunny = Some (PedigreeBranchNode.bunny bunnyNode)).
Proof.
  induction generations as [|g IH]; intros bunny providedOptions.
  - cbn. split; [lia|]. intros bunnyNode [<-|[]]. cbn. split.
    + exists O. split; [lia | reflexivity].
    + apply isSelected_iff.
  - cbn zeta.
    destruct (father bunny) as [bunnyFather|] eqn:Ef;
      [destruct (mother bunny) as [bunnyMother|] eqn:Em|].
    + rewrite constructor_above_one, Ef, Em.
      cbn zeta. cbn [dispose]. cbn zeta in IH.
      match goal with
      | |- context [dispose (new (S g) bunnyFather selectedBunny ?o)] =>
          destruct (IH bunnyFather o) as [Hlf Hinf]
      end.
      match goal with
      | |- context [dispose (new (S g) bunnyMother selectedBunny ?o)] =>
          destruct (IH bunnyMother o) as [Hlm Hinm]
      end.
      split.
      * cbn [List.length]. rewrite length_app.
        change (2 ^ S (S g))%nat with (2 * 2 ^ S g)%nat. lia.
      * intros bunnyNode [<-|Hin].
        -- cbn. split; [exists O; split; [lia | reflexivity] | apply isSelected_iff].
        -- apply in_app_or in Hin. destruct Hin as [Hin|Hin].
           ++ destruct (Hinf bunnyNode Hin) as [(above & Hle & Ha) Hsel].
              split; [|exact Hsel].
              exists (S above). split; [lia|]. cbn.
              exists bunnyFather. split; [left; exact Ef | exact Ha].
           ++ destruct (Hinm bunnyNode Hin) as [(above & Hle & Ha) Hsel].
              split; [|exact Hsel].
              exists (S above). split; [lia|]. cbn.
              exists bunnyMother. split; [right; exact Em | exact Ha].
    + rewrite (constructor_without_parents g bunny selectedBunny providedOptions
                 (or_intror Em)).
      cbn [dispose List.length]. split; [pose proof (Nat.pow_nonzero 2 g); cbn; lia|].
      intros bunnyNode [<-|[]]. cbn. split.
      * exists O. split; [lia | reflexivity].
      * apply isSelected_iff.
    + rewrite (constructor_without_parents g bunny selectedBunny providedOptions
                 (or_introl Ef)).
      cbn [dispose List.length]. split; [pose proof (Nat.pow_nonzero 2 g); cbn; lia|].
      intros bunnyNode [<-|[]]. cbn. split.
      * exists O. split; [lia | reflexivity].
      * apply isSelected_iff.
Qed.

(** The bunny nodes of a branch are the nodes of the ancestors that it
    reaches. *)
Lemma dispose_shown (selectedBunny : option Bunny) (generations : nat) :
  forall (bunny : Bunny) (providedOptions : ProvidedOptions)
         (bunnyNode : PedigreeBunnyNode Bunny),
    In bunnyNode (dispose (new (S generations) bunny selectedBunny providedOptions)) <->
    exists above ancestorBunny,
      (above <= generations)%nat /\
      shownAncestor father mother above bunny ancestorBunny /\
      bunnyNode = mkPedigreeBunnyNode ancestorBunny
                    (isSelected Bunny_eq_dec selectedBunny ancestorBunny).
Proof.
  induction generations as [|g IH]; intros bunny providedOptions bunnyNode.
  - cbn. split.
    + intros [<-|[]]. exists O, bunny. split; [lia|]. split; reflexivity.
    + intros (above & a & Hle & Ha & ->).
      assert (above = O) by lia. subst above. cbn in Ha. subst a. left. reflexivity.
  - destruct (father bunny) as [bunnyFather|] eqn:Ef;
      [destruct (mother bunny) as [bunnyMother|] eqn:Em|].
    + rewrite constructor_above_one, Ef, Em. cbn zeta. cbn [dispose]. split.
      * intros [<-|Hin].
        -- exists O, bunny. split; [lia|]. split; reflexivity.
        -- apply in_app_or in Hin. destruct Hin as [Hin|Hin];
             apply IH in Hin; destruct Hin as (above & a & Hle & Ha & ->);
             exists (S above), a; (split; [lia|]); (split; [|reflexivity]);
             cbn; exists bunnyFather, bunnyMother; (split; [exact Ef|]);
             (split; [exact Em|]); [left | right]; exact Ha.
      * intros (above & a & Hle & Ha & ->). destruct above as [|above].
        -- cbn in Ha. subst a. left. reflexivity.
        -- cbn in Ha. destruct Ha as (f & m & Hf & Hm & Ha).
           rewrite Ef in Hf. rewrite Em in Hm. injection Hf as <-. injection Hm as <-.
           right. apply in_or_app.
           destruct Ha as [Ha|Ha]; [left | right]; apply IH; exists above, a;
             (split; [lia|]); (split; [exact Ha | reflexivity]).
    + rewrite (constructor_without_parents g bunny selectedBunny providedOptions
                 (or_intror Em)).
      cbn [dispose]. split.
      * intros [<-|[]]. exists O, bunny. split; [lia|]. split; reflexivity.
      * intros (above & a & Hle & Ha & ->). destruct above as [|above].
        -- cbn in Ha. subst a. left. reflexivity.
        -- cbn in Ha. destruct Ha as (f & m & Hf & Hm & _). congruence.
    + rewrite (constructor_without_parents g bunny selectedBunny providedOptions
                 (or_introl Ef)).
      cbn [dispose]. split.
      * intros [<-|[]]. exists O, bunny. split; [lia|]. split; reflexivity.
      * intros (above & a & Hle & Ha & ->). destruct above as [|above].
        -- cbn in Ha. subst a. left. reflexivity.
        -- cbn in Ha. destruct Ha as (f & m & Hf & Hm & _). congruence.
Qed.

(** A branch in which every bunny that is reached below the top generation
    has both parents is complete. *)
Lemma dispose_complete (selectedBunny : option Bunny) (generations : nat) :
  forall (bunny : Bunny) (providedOptions : ProvidedOptions),
    (forall above ancestorBunny,
        (above < generations)%nat ->
        shownAncestor father mother above bunny ancestorBunny ->
        father ancestorBunny <> None /\ mother ancestorBunny <> None) ->
    (List.length (dispose (new (S generations) bunny selectedBunny providedOptions)) + 1
     = 2 ^ S generations)%nat.
Proof.
  induction generations as [|g IH]; intros bunny providedOptions Hall.
  - reflexivity.
  - destruct (Hall O bunny) as [Hf Hm]; [lia | reflexivity |].
    destruct (father bunny) as [bunnyFather|] eqn:Ef; [|contradiction].
    destruct (mother bunny) as [bunnyMother|] eqn:Em; [|contradiction].
    rewrite constructor_above_one, Ef, Em. cbn zeta. cbn [dispose List.length].
    rewrite length_app.
    match goal with
    | |- context [dispose (new (S g) bunnyFather selectedBunny ?o)] =>
        pose proof (IH bunnyFather o) as Hlf
    end.
    match goal with
    | |- context [dispose (new (S g) bunnyMother selectedBunny ?o)] =>
        pose proof (IH bunnyMother o) as Hlm
    end.
    assert (Hfa : forall above a, (above < g)%nat ->
                    shownAncestor father mother above bunnyFather a ->
                    father a <> None /\ mother a <> None).
    { intros above a Hlt Ha. apply (Hall (S above) a); [lia|].
      cbn. exists bunnyFather, bunnyMother. split; [exact Ef|]. split; [exact Em|].
      left. exact Ha. }
    assert (Hma : forall above a, (above < g)%nat ->
                    shownAncestor father mother above bunnyMother a ->
                    father a <> None /\ mother a <> None).
    { intros above a Hlt Ha. apply (Hall (S above) a); [lia|].
      cbn. exists bunnyFather, bunnyMother. split; [exact Ef|]. split; [exact Em|].
      right. exact Ha. }
    specialize (Hlf Hfa). specialize (Hlm Hma).
    change (2 ^ S (S g))%nat with (2 * 2 ^ S g)%nat. lia.
Qed.

(** X17. A branch of depth [branchDepth] holds at most [2 ^ branchDepth - 1]
    bunny nodes, a single one for a depth of 0 or 1 and for a bunny that
    lacks a parent, and exactly [2 ^ branchDepth - 1] when every bunny that it
    reaches below its top generation has both parents.  Its bunny nodes,
    which are the ones that [dispose] disposes, are exactly the nodes of the
    bunny and of the ancestors fewer than [branchDepth] generations up that
    are reached through bunnies with both parents; each is marked as selected
    exactly when its bunny is the selected one.  With both parents and a
    depth above 1, [dispose] disposes the node of the bunny, then the branch
    of the father, then the branch of the mother, both of depth
    [branchDepth - 1]. *)
Theorem branch_holds_the_ancestors_within_depth
        (branchDepth : nat) (bunny : Bunny) (selectedBunny : option Bunny)
        (providedOptions : ProvidedOptions) :
  let node := new branchDepth bunny selectedBunny providedOptions in
  let disposed := dispose node in
  (List.length disposed + 1 <= 2 ^ Nat.max 1 branchDepth)%nat /\
  ((branchDepth <= 1)%nat \/ father bunny = None \/ mother bunny = None ->
   disposed = [mkPedigreeBunnyNode bunny (isSelected Bunny_eq_dec selectedBunny bunny)]) /\
  (forall bunnyNode,
      In bunnyNode disposed ->
      (exists above, (above < Nat.max 1 branchDepth)%nat /\
                     ancestor father mother above bunny (PedigreeBranchNode.bunny bunnyNode)) /\
      (bunnyIsSelected bunnyNode = true <->
       selectedBunny = Some (PedigreeBranchNode.bunny bunnyNode))) /\
  (forall bunnyNode,
      In bunnyNode disposed <->
      exists above ancestorBunny,
        (above < Nat.max 1 branchDepth)%nat /\
        shownAncestor father mother above bunny ancestorBunny /\
        bunnyNode = mkPedigreeBunnyNode ancestorBunny
                      (isSelected Bunny_eq_dec selectedBunny ancestorBunny)) /\
  ((forall above ancestorBunny,
       (above + 1 < branchDepth)%nat ->
       shownAncestor father mother above bunny ancestorBunny ->
       father ancestorBunny <> None /\ mother ancestorBunny <> None) ->
   (List.length disposed + 1 = 2 ^ Nat.max 1 branchDepth)%nat) /\
  (forall bunnyFather bunnyMother,
      (1 < branchDepth)%nat ->
      father bunny = Some bunnyFather -> mother bunny = Some bunnyMother ->
      exists fatherOptions motherOptions,
        disposed
        = (mkPedigreeBunnyNode bunny (isSelected Bunny_eq_dec selectedBunny bunny)
           :: dispose (new (branchDepth - 1) bunnyFather selectedBunny fatherOptions)
           ++ dispose (new (branchDepth - 1) bunnyMother selectedBunny motherOptions))%list).
Proof.
  cbn zeta. split; [|split; [|split; [|split; [|split]]]].
  - destruct branchDepth as [|g].
    + cbn. lia.
    + replace (Nat.max 1 (S g)) with (S g) by lia.
      apply (dispose_generations selectedBunny g bunny providedOptions).
  - intros H. destruct branchDepth as [|[|d]]; try reflexivity.
    destruct H as [H|H]; [lia|].
    rewrite (constructor_without_parents d bunny selectedBunny providedOptions H).
    reflexivity.
  - intros bunnyNode Hin. destruct branchDepth as [|g].
    + cbn in Hin. destruct Hin as [<-|[]]. cbn. split.
      * exists O. split; [lia | reflexivity].
      * apply isSelected_iff.
    + replace (Nat.max 1 (S g)) with (S g) by lia.
      destruct (dispose_generations selectedBunny g bunny providedOptions) as [_ H].
      destruct (H bunnyNode Hin) as [(above & Hle & Ha) Hsel].
      split; [|exact Hsel]. exists above. split; [lia | exact Ha].
  - intros bunnyNode. destruct branchDepth as [|g].
    + cbn. split.
      * intros [<-|[]]. exists O, bunny. split; [lia|]. split; reflexivity.
      * intros (above & a & Hle & Ha & ->).
        assert (above = O) by lia. subst above. cbn in Ha. subst a. left. reflexivity.
    + replace (Nat.max 1 (S g)) with (S g) by lia.
      rewrite (dispose_shown selectedBunny g bunny providedOptions bunnyNode).
      split; intros (above & a & Hle & Ha & Hn); exists above, a;
        (split; [lia|]); split; assumption.
  - intros Hall. destruct branchDepth as [|g].
    + reflexivity.
    + replace (Nat.max 1 (S g)) with (S g) by lia.
      apply dispose_complete. intros above a Hlt Ha. apply (Hall above a); [lia | exact Ha].
  - intros bunnyFather bunnyMother Hdepth Ef Em.
    destruct branchDepth as [|[|d]]; try lia.
    rewrite constructor_above_one, Ef, Em. cbn zeta. cbn [dispose].
    replace (S (S d) - 1)%nat with (S d) by lia.
    do 2 eexists. reflexivity.
Qed.


Lemma spacing_scale_succ (level : nat) :
  X_SPACING_SCALE ^ Z.of_nat (S level) == X_SPACING_SCALE * X_SPACING_SCALE ^ Z.of_nat level.
Proof.
  rewrite Nat2Z.inj_succ. unfold Z.succ.
  rewrite Qpower_plus by (unfold X_SPACING_SCALE; lra).
  change (X_SPACING_SCALE ^ 1) with X_SPACING_SCALE. ring.
Qed.

Lemma spacing_scale_small (level : nat) :
  0 < X_SPACING_SCALE ^ Z.of_nat (3 + level) /\
  X_SPACING_SCALE ^ Z.of_nat (3 + level) <= 166375 # 1000000.
Proof.
  induction level as [|level [IH1 IH2]].
  - assert (E : X_SPACING_SCALE ^ Z.of_nat (3 + 0) == 166375 # 1000000)
      by (vm_compute; reflexivity).
    rewrite E. split; lra.
  - replace (3 + S level)%nat with (S (3 + level)) by lia.
    rewrite spacing_scale_succ. unfold X_SPACING_SCALE in *. split.
    + apply Qmult_lt_0_compat; lra.
    + assert (H : (55 # 100) * (55 # 100) ^ Z.of_nat (3 + level)
                  <= 1 * (55 # 100) ^ Z.of_nat (3 + level))
        by (apply Qmult_le_compat_r; lra).
      lra.
Qed.

(** Every branch of a branch was constructed, with an x spacing scaled once
    per level; above the first level the caller's [ySpacing] and [scale] are
    gone. *)
Lemma branchesAt_constructed (selectedBunny : option Bunny) (level : nat) :
  forall (branchDepth : nat) (bunny : Bunny) (providedOptions : ProvidedOptions)
         (branch : Node Bunny),
    In branch (branchesAt level (new branchDepth bunny selectedBunny providedOptions)) ->
    exists depth' bunny' options',
      branch = new depth' bunny' selectedBunny options' /\
      xSpacing (merge options')
      == xSpacing (merge providedOptions) * X_SPACING_SCALE ^ Z.of_nat level /\
      (level = O -> options' = providedOptions) /\
      ((1 <= level)%nat ->
       provided_ySpacing options' = None /\ provided_scale options' = Some PARENTS_SCALE).
Proof.
  induction level as [|level IH]; intros branchDepth bunny providedOptions branch Hin.
  - destruct Hin as [<-|[]]. exists branchDepth, bunny, providedOptions.
    split; [reflexivity|]. split; [cbn; ring|]. split; [reflexivity | lia].
  - destruct branchDepth as [|[|d]]; try (cbn in Hin; contradiction).
    rewrite constructor_above_one in Hin. cbn zeta in Hin.
    destruct (father bunny) as [bunnyFather|]; [|cbn in Hin; contradiction].
    destruct (mother bunny) as [bunnyMother|]; [|cbn in Hin; contradiction].
    cbn [branchesAt] in Hin. apply in_app_or in Hin.
    destruct Hin as [Hin|Hin];
      apply IH in Hin; destruct Hin as (d' & b' & o' & Hb & Hx & H0 & H1);
      exists d', b', o'; (split; [exact Hb|]);
      (split; [rewrite Hx, spacing_scale_succ; cbn; ring|]);
      (split; [lia|]); intros _;
      (destruct level as [|level]; [rewrite (H0 eq_refl); split; reflexivity | apply H1; lia]).
Qed.

(** X18. In a branch, the x spacing of the parents shrinks by
    [X_SPACING_SCALE] per level, and a [ySpacing] or [scale] of the caller
    stays with the branch it was given to: from level 1 on every branch has
    [DEFAULT_Y_SPACING] and [PARENTS_SCALE].  The T of a branch has its stem
    at the centre of the bunny node and its bar centred there, as wide as
    twice the x spacing less [T_X_OFFSET] at each end.  With the default x
    spacing the bar runs from left to right up to level 2, and from level 3
    on its father's end lies right of its mother's end. *)
Theorem t_bar_by_level
        (branchDepth : nat) (bunny : Bunny) (selectedBunny : option Bunny)
        (providedOptions : ProvidedOptions) (level : nat) (branch : Node Bunny) :
  In branch (branchesAt level (new branchDepth bunny selectedBunny providedOptions)) ->
  xSpacing (optionsOf branch)
  == xSpacing (merge providedOptions) * X_SPACING_SCALE ^ Z.of_nat level /\
  ((1 <= level)%nat ->
   ySpacing (optionsOf branch) = DEFAULT_Y_SPACING /\
   scale (optionsOf branch) = Some PARENTS_SCALE) /\
  forall options bunnyNode fatherNode motherNode tShape,
    branch = WithParents options bunnyNode fatherNode motherNode tShape ->
    fst (stemFrom tShape) = centerX bunnyNode /\
    fst (stemTo tShape) = centerX bunnyNode /\
    (fst (barFrom tShape) + fst (barTo tShape)) / 2 == centerX bunnyNode /\
    fst (barTo tShape) - fst (barFrom tShape) == 2 * (xSpacing options - T_X_OFFSET) /\
    (provided_xSpacing providedOptions = None ->
     ((level <= 2)%nat -> fst (barFrom tShape) < fst (barTo tShape)) /\
     ((3 <= level)%nat -> fst (barTo tShape) < fst (barFrom tShape))).
Proof.
  intros Hin.
  destruct (branchesAt_constructed selectedBunny level branchDepth bunny providedOptions
              branch Hin) as (d' & b' & o' & -> & Hx & _ & H1).
  rewrite optionsOf_constructor.
  split; [exact Hx|]. split.
  - intros Hl. destruct (H1 Hl) as [Hy Hs]. unfold merge. cbn. rewrite Hy, Hs.
    split; reflexivity.
  - intros options bunnyNode fatherNode motherNode tShape Hb.
    destruct d' as [|[|d']]; try discriminate Hb.
    rewrite constructor_above_one in Hb. cbn zeta in Hb.
    destruct (father b') as [bunnyFather|]; [|discriminate Hb].
    destruct (mother b') as [bunnyMother|]; [|discriminate Hb].
    match type of Hb with
    | WithParents _ _ ?f ?m _ = _ =>
        remember f as fatherNode' eqn:Ef'; remember m as motherNode' eqn:Em'
    end.
    injection Hb as <- <- <- <- <-.
    unfold nodeX. subst fatherNode' motherNode'. rewrite !optionsOf_constructor.
    remember (xSpacing (merge o')) as xs eqn:Exs in *.
    cbn.
    split; [reflexivity|]. split; [reflexivity|].
    split; [unfold T_X_OFFSET; field|]. split; [unfold T_X_OFFSET; ring|].
    intros Hdefault.
    assert (Htop : xSpacing (merge providedOptions) = DEFAULT_X_SPACING)
      by (unfold merge; cbn; rewrite Hdefault; reflexivity).
    rewrite Htop in Hx. unfold DEFAULT_X_SPACING, T_X_OFFSET in *.
    split.
    + intros Hl.
      assert (E0 : X_SPACING_SCALE ^ Z.of_nat 0 == 1) by (vm_compute; reflexivity).
      assert (E1 : X_SPACING_SCALE ^ Z.of_nat 1 == 55 # 100) by (vm_compute; reflexivity).
      assert (E2 : X_SPACING_SCALE ^ Z.of_nat 2 == 3025 # 10000) by (vm_compute; reflexivity).
      destruct level as [|[|[|level]]]; [rewrite E0 in Hx | rewrite E1 in Hx | rewrite E2 in Hx | lia];
        lra.
    + intros Hl. replace level with (3 + (level - 3))%nat in Hx by lia.
      destruct (spacing_scale_small (level - 3)) as [Hp1 Hp2].
      set (p := X_SPACING_SCALE ^ Z.of_nat (3 + (level - 3))) in *. lra.
Qed.

End PedigreeFacts.


(** A family in which bunny [b] has the parents [2 b + 1] and [2 b + 2],
    with every node laid out at the origin: the branch of the father of
    bunny 0 in a tree of depth 3. *)
Lemma t_bar_by_level_witness :
  let father := fun b : nat => Some (2 * b + 1)%nat in
  let mother := fun b : nat => Some (2 * b + 2)%nat in
  let new := PedigreeBranchNode.constructor Nat.eq_dec father mother
               (fun _ => 0) (fun _ => 0) (fun _ => 0) in
  let tree := new 3%nat 0%nat None (PedigreeBranchNode.noOptions) in
  let branch :=
    new 2%nat 1%nat None
        (PedigreeBranchNode.mkProvidedOptions
           (Some (PedigreeBranchNode.X_SPACING_SCALE * PedigreeBranchNode.DEFAULT_X_SPACING))
           None (Some PedigreeBranchNode.PARENTS_SCALE)
           (Some (0 - PedigreeBranchNode.DEFAULT_X_SPACING))
           (Some (0 - PedigreeBranchNode.DEFAULT_Y_SPACING))) in
  In branch (PedigreeBranchNode.branchesAt 1 tree) /\
  PedigreeBranchNode.xSpacing (PedigreeBranchNode.optionsOf branch)
  == PedigreeBranchNode.DEFAULT_X_SPACING * PedigreeBranchNode.X_SPACING_SCALE ^ 1 /\
  PedigreeBranchNode.ySpacing (PedigreeBranchNode.optionsOf branch)
  = PedigreeBranchNode.DEFAULT_Y_SPACING.
Proof.
  intros father mother new tree branch.
  assert (Hin : In branch (PedigreeBranchNode.branchesAt 1 tree)) by (left; reflexivity).
  destruct (t_bar_by_level nat Nat.eq_dec father mother (fun _ => 0) (fun _ => 0)
              (fun _ => 0) 3%nat 0%nat None PedigreeBranchNode.noOptions 1%nat branch Hin)
    as (Hx & Hy & _).
  split; [exact Hin|]. split; [exact Hx|]. apply Hy. lia.
Defined.

(** The same family, with bunny 5 selected: the branch of bunny 0 of depth
    3 holds seven bunny nodes, those of the bunny, its parents and its
    grandparents, and the node of bunny 5, the father of the mother, is
    among them and marked as selected. *)
Lemma branch_holds_the_ancestors_within_depth_witness :
  let father := fun b : nat => Some (2 * b + 1)%nat in
  let mother := fun b : nat => Some (2 * b + 2)%nat in
  let new := PedigreeBranchNode.constructor Nat.eq_dec father mother
               (fun _ => 0) (fun _ => 0) (fun _ => 0) in
  let disposed :=
    PedigreeBranchNode.dispose (new 3%nat 0%nat (Some 5%nat) PedigreeBranchNode.noOptions) in
  List.length disposed = 7%nat /\
  In (PedigreeBranchNode.mkPedigreeBunnyNode 5%nat true) disposed.
Proof.
  intros father mother new disposed.
  destruct (branch_holds_the_ancestors_within_depth nat Nat.eq_dec father mother
              (fun _ => 0) (fun _ => 0) (fun _ => 0) 3%nat 0%nat (Some 5%nat)
              PedigreeBranchNode.noOptions)
    as (_ & _ & _ & Hshown & Hcomplete & _).
  split.
  - assert (H : (List.length disposed + 1 = 2 ^ Nat.max 1 3)%nat).
    { apply Hcomplete. intros above a _ _. split; discriminate. }
    change (2 ^ Nat.max 1 3)%nat with 8%nat in H. lia.
  - apply Hshown. exists 2%nat, 5%nat. split; [cbn; lia|]. split; [|reflexivity].
    exists 1%nat, 2%nat. split; [reflexivity|]. split; [reflexivity|]. right.
    exists 5%nat, 6%nat. split; [reflexivity|]. split; [reflexivity|]. left. reflexivity.
Defined.


(* ------------------------------------------------------------------------- *)
(** ** A bar of the Proportions graph *)

Section BarFacts.
Import ProportionsBarNode.
Variable assertEnabled : bool.

Lemma isNonNegativeInteger_of_nat (n : nat) :
  ProportionsModel.isNonNegativeInteger (Z.of_nat n) = true.
Proof. unfold ProportionsModel.isNonNegativeInteger. apply Z.leb_le. lia. Qed.

(** The percentage of a count in a total that is not 0. *)
Lemma percentage_value (count total : nat) :
  (0 < total)%nat ->
  percentage count total
  = Some (100 * inject_Z (Z.of_nat count) / inject_Z (Z.of_nat total)).
Proof. intros H. destruct total; [lia | reflexivity]. Qed.

Lemma inject_nat_pos (n : nat) : (0 < n)%nat -> 0 < inject_Z (Z.of_nat n).
Proof.
  intros H. change 0 with (inject_Z 0). rewrite <- Zlt_Qlt. lia.
Qed.

Lemma inject_nat_nonneg (n : nat) : 0 <= inject_Z (Z.of_nat n).
Proof. change 0 with (inject_Z 0). rewrite <- Zle_Qle. lia. Qed.

(** The two percentages are not negative and add up to 100. *)
Lemma percentages_facts (normal mutant : nat) :
  (0 < normal + mutant)%nat ->
  let total := inject_Z (Z.of_nat (normal + mutant)) in
  let p := 100 * inject_Z (Z.of_nat normal) / total in
  let q := 100 * inject_Z (Z.of_nat mutant) / total in
  0 <= p /\ 0 <= q /\ p + q == 100 /\
  ((0 < normal)%nat -> 0 < p) /\ ((0 < mutant)%nat -> 0 < q) /\
  (normal = O -> p == 0) /\ (mutant = O -> q == 0).
Proof.
  intros Hpos. cbn zeta.
  pose proof (inject_nat_pos _ Hpos) as Ht.
  pose proof (inject_nat_nonneg normal) as Hn.
  pose proof (inject_nat_nonneg mutant) as Hm.
  set (total := inject_Z (Z.of_nat (normal + mutant))) in *.
  assert (Hsum : inject_Z (Z.of_nat normal) + inject_Z (Z.of_nat mutant) == total).
  { unfold total. rewrite Nat2Z.inj_add, inject_Z_plus. reflexivity. }
  split; [apply Qle_shift_div_l; lra|].
  split; [apply Qle_shift_div_l; lra|].
  split.
  { setoid_replace (100 * inject_Z (Z.of_nat normal) / total
                    + 100 * inject_Z (Z.of_nat mutant) / total)
      with (100 * (inject_Z (Z.of_nat normal) + inject_Z (Z.of_nat mutant)) / total)
      by (field; lra).
    rewrite Hsum. field. lra. }
  split.
  { intros H. pose proof (inject_nat_pos _ H). apply Qlt_shift_div_l; lra. }
  split.
  { intros H. pose proof (inject_nat_pos _ H). apply Qlt_shift_div_l; lra. }
  split; intros ->; cbn; unfold Qdiv; ring.
Qed.

(** Rounding a number from 1 on gives an integer from 1 on, and rounding
    keeps the order. *)
Lemma Math_round_le (a b : Q) : a <= b -> (Math_round a <= Math_round b)%Z.
Proof. intros H. apply Qfloor_resp_le. lra. Qed.

Lemma Math_round_integer (n : Z) : Math_round (inject_Z n) = n.
Proof.
  unfold Math_round. apply Z.le_antisymm.
  - apply Z.lt_succ_r. rewrite Zlt_Qlt.
    apply Qle_lt_trans with (inject_Z n + (1 # 2)); [apply Qfloor_le|].
    unfold Z.succ. rewrite inject_Z_plus. change (inject_Z 1) with 1. lra.
  - rewrite <- (Qfloor_Z n) at 1. apply Qfloor_resp_le. lra.
Qed.

Lemma roundSymmetric_nonneg (q : Q) :
  0 <= q -> roundSymmetric (Some q) = Some (Math_round q).
Proof.
  intros H. unfold roundSymmetric.
  assert (E : Qle_bool 0 q = true) by (apply Qle_bool_iff; exact H).
  rewrite E. cbn [negb]. rewrite Z.mul_1_l.
  assert (Ea : Qabs q == q) by (apply Qabs_pos; exact H).
  unfold Math_round. f_equal. apply Qfloor_comp. rewrite Ea. reflexivity.
Qed.

Ltac bar_unfold :=
  unfold setCounts, JS.after, JS.seq, JS.lift, JS.modify, JS.get;
  rewrite !(assert_true _ _ _ (isNonNegativeInteger_of_nat _));
  cbn [fst snd].


Lemma greaterThanZero_iff (q : Q) : greaterThanZero (Some q) = true <-> 0 < q.
Proof.
  unfold greaterThanZero. split; [apply Qlt_bool_false | apply Qlt_bool_true].
Qed.

Lemma lessThanOne_iff (q : Q) : lessThanOne (Some q) = true <-> q < 1.
Proof.
  unfold lessThanOne. split; [apply Qlt_bool_false | apply Qlt_bool_true].
Qed.

Lemma greaterThanZero_nat (count total : nat) :
  (0 < total)%nat ->
  greaterThanZero (Some (100 * inject_Z (Z.of_nat count) / inject_Z (Z.of_nat total)))
  = (0 <? count)%nat.
Proof.
  intros Ht. pose proof (inject_nat_pos _ Ht) as Hq.
  destruct (0 <? count)%nat eqn:E.
  - apply Nat.ltb_lt in E. apply greaterThanZero_iff.
    pose proof (inject_nat_pos _ E). apply Qlt_shift_div_l; lra.
  - apply Nat.ltb_ge in E. assert (count = O) by lia. subst count.
    destruct (greaterThanZero _) eqn:G; [|reflexivity].
    apply greaterThanZero_iff in G. exfalso.
    assert (E0 : 100 * inject_Z (Z.of_nat 0) / inject_Z (Z.of_nat total) == 0)
      by (cbn; unfold Qdiv; ring).
    rewrite E0 in G. lra.
Qed.

(** The width of the mutant rectangle, as a share of the bar: a number from
    1 to 99 hundredths when the rounded percentage is. *)
Lemma share_bounds (rounded : Z) (width : Q) :
  (1 <= rounded <= 99)%Z -> 0 <= width ->
  (1 # 100) * width <= inject_Z rounded / 100 * width <= (99 # 100) * width.
Proof.
  intros [H1 H2] Hw.
  rewrite Zle_Qle in H1, H2. change (inject_Z 1) with 1 in H1.
  change (inject_Z 99) with 99 in H2.
  set (r := inject_Z rounded) in *.
  assert (E : r / 100 * width == (r * width) / 100) by field.
  assert (Ha : 1 * width <= r * width) by (apply Qmult_le_compat_r; assumption).
  assert (Hb : r * width <= 99 * width) by (apply Qmult_le_compat_r; assumption).
  rewrite E. split.
  - apply Qle_shift_div_l; lra.
  - apply Qle_shift_div_r; lra.
Qed.

(** X19. When both alleles are present, no portion of the bar vanishes:
    [setCounts] returns with both rectangles visible and the mutant
    rectangle between 1 and 99 hundredths of the bar wide, for a bar width
    that is not negative. *)
Theorem both_alleles_keep_a_portion (normal mutant : nat) (s : State) :
  (0 < normal)%nat -> (0 < mutant)%nat -> 0 <= barWidth s ->
  let s' := JS.after (setCounts assertEnabled normal mutant) s in
  fst (setCounts assertEnabled normal mutant s) = inr tt /\
  normalRectangleVisible s' = true /\
  mutantRectangleVisible s' = true /\
  exists rectWidth,
    mutantRectangleRectWidth s' = Some rectWidth /\
    (1 # 100) * barWidth s <= rectWidth <= (99 # 100) * barWidth s.
Proof.
  intros Hn Hm Hw. cbn zeta.
  assert (Ht : (0 < normal + mutant)%nat) by lia.
  destruct (percentages_facts normal mutant Ht) as (Hp0 & Hq0 & Hsum & Hp & Hq & _).
  specialize (Hp Hn). specialize (Hq Hm).
  bar_unfold. rewrite !(percentage_value _ _ Ht).
  set (p := 100 * inject_Z (Z.of_nat normal) / inject_Z (Z.of_nat (normal + mutant))) in *.
  set (q := 100 * inject_Z (Z.of_nat mutant) / inject_Z (Z.of_nat (normal + mutant))) in *.
  assert (Gp : greaterThanZero (Some p) = true) by (apply greaterThanZero_iff; exact Hp).
  assert (Gq : greaterThanZero (Some q) = true) by (apply greaterThanZero_iff; exact Hq).
  rewrite Gp, Gq. cbn [andb].
  destruct (lessThanOne (Some q)) eqn:Lq; cbn [fst snd].
  - repeat (split; [reflexivity|]). eexists. split; [reflexivity|]. cbn [barWidth withVisible withCounts withBar]. lra.
  - destruct (lessThanOne (Some p)) eqn:Lp; cbn [fst snd].
    + repeat (split; [reflexivity|]). eexists. split; [reflexivity|]. cbn [barWidth withVisible withCounts withBar]. lra.
    + repeat (split; [reflexivity|]).
      cbn [mutantRectangleVisible withVisible withCounts].
      rewrite (roundSymmetric_nonneg q Hq0).
      eexists. split; [reflexivity|]. cbn [barWidth withVisible withCounts withBar].
      apply share_bounds; [|exact Hw].
      assert (Hq1 : 1 <= q).
      { apply Qnot_lt_le. intros H. apply lessThanOne_iff in H. congruence. }
      assert (Hp1 : 1 <= p).
      { apply Qnot_lt_le. intros H. apply lessThanOne_iff in H. congruence. }
      split.
      * rewrite <- (Math_round_integer 1). apply Math_round_le. exact Hq1.
      * rewrite <- (Math_round_integer 99). apply Math_round_le.
        change (inject_Z 99) with 99. lra.
Qed.

(** What is rounded to the two texts adds up to 100, or to 101 when both
    percentages end in one half. *)
Lemma rounded_sum (p q : Q) :
  0 <= p -> 0 <= q -> p + q == 100 ->
  (0 <= Math_round p)%Z /\ (0 <= Math_round q)%Z /\
  (Math_round p + Math_round q = 100 \/ Math_round p + Math_round q = 101)%Z.
Proof.
  intros Hp Hq Hsum. unfold Math_round.
  pose proof (Qfloor_le (p + (1 # 2))) as Ha1.
  pose proof (Qlt_floor (p + (1 # 2))) as Ha2.
  pose proof (Qfloor_le (q + (1 # 2))) as Hb1.
  pose proof (Qlt_floor (q + (1 # 2))) as Hb2.
  rewrite inject_Z_plus in Ha2, Hb2. change (inject_Z 1) with 1 in Ha2, Hb2.
  set (a := Qfloor (p + (1 # 2))) in *. set (b := Qfloor (q + (1 # 2))) in *.
  assert (H0a : (0 <= a)%Z).
  { apply Z.lt_succ_r. rewrite Zlt_Qlt. unfold Z.succ. rewrite inject_Z_plus.
    change (inject_Z 0) with 0. change (inject_Z 1) with 1. lra. }
  assert (H0b : (0 <= b)%Z).
  { apply Z.lt_succ_r. rewrite Zlt_Qlt. unfold Z.succ. rewrite inject_Z_plus.
    change (inject_Z 0) with 0. change (inject_Z 1) with 1. lra. }
  assert (Hle : (a + b <= 101)%Z).
  { rewrite Zle_Qle, inject_Z_plus. change (inject_Z 101) with 101. lra. }
  assert (Hgt : (99 < a + b)%Z).
  { rewrite Zlt_Qlt, inject_Z_plus. change (inject_Z 99) with 99. lra. }
  split; [exact H0a|]. split; [exact H0b|]. lia.
Qed.

(** X20. For a population that is not empty, the two texts are "> 99%" with
    "< 1%", which is shown exactly for a count that is not 0 and less than a
    hundredth of the total, or two rounded percentages, neither negative,
    that add up to 100 or to 101. *)
Theorem percentage_texts_add_up (normal mutant : nat) (s : State) :
  (0 < normal + mutant)%nat ->
  let s' := JS.after (setCounts assertEnabled normal mutant) s in
  (normalPercentageNodeText s' = greaterThanValuePercent 99 /\
   mutantPercentageNodeText s' = lessThanValuePercent 1 /\
   (0 < mutant)%nat /\ (100 * mutant < normal + mutant)%nat) \/
  (normalPercentageNodeText s' = lessThanValuePercent 1 /\
   mutantPercentageNodeText s' = greaterThanValuePercent 99 /\
   (0 < normal)%nat /\ (100 * normal < normal + mutant)%nat) \/
  (exists shownNormal shownMutant,
      normalPercentageNodeText s' = valuePercent (Some shownNormal) /\
      mutantPercentageNodeText s' = valuePercent (Some shownMutant) /\
      (0 <= shownNormal)%Z /\ (0 <= shownMutant)%Z /\
      (shownNormal + shownMutant = 100 \/ shownNormal + shownMutant = 101)%Z /\
      ~ (0 < mutant /\ 100 * mutant < normal + mutant)%nat /\
      ~ (0 < normal /\ 100 * normal < normal + mutant)%nat).
Proof.
  intros Ht. cbn zeta.
  destruct (percentages_facts normal mutant Ht) as (Hp0 & Hq0 & Hsum & _).
  pose proof (inject_nat_pos _ Ht) as Htot.
  assert (Hshare : forall count : nat,
             100 * inject_Z (Z.of_nat count) / inject_Z (Z.of_nat (normal + mutant)) < 1
             <-> (100 * count < normal + mutant)%nat).
  { intros count. split.
    - intros H.
      assert (Hm : 100 * inject_Z (Z.of_nat count) / inject_Z (Z.of_nat (normal + mutant))
                   * inject_Z (Z.of_nat (normal + mutant))
                   < 1 * inject_Z (Z.of_nat (normal + mutant)))
        by (apply Qmult_lt_compat_r; assumption).
      assert (E : 100 * inject_Z (Z.of_nat count) / inject_Z (Z.of_nat (normal + mutant))
                  * inject_Z (Z.of_nat (normal + mutant))
                  == 100 * inject_Z (Z.of_nat count)) by (field; lra).
      rewrite E in Hm.
      apply Nat2Z.inj_lt. rewrite Zlt_Qlt, Nat2Z.inj_mul, inject_Z_mult.
      change (inject_Z (Z.of_nat 100)) with 100. lra.
    - intros H. apply Qlt_shift_div_r; [exact Htot|].
      apply Nat2Z.inj_lt in H. rewrite Zlt_Qlt, Nat2Z.inj_mul, inject_Z_mult in H.
      change (inject_Z (Z.of_nat 100)) with 100 in H. lra. }
  bar_unfold. rewrite !(percentage_value _ _ Ht).
  rewrite !(greaterThanZero_nat _ _ Ht).
  set (p := 100 * inject_Z (Z.of_nat normal) / inject_Z (Z.of_nat (normal + mutant))) in *.
  set (q := 100 * inject_Z (Z.of_nat mutant) / inject_Z (Z.of_nat (normal + mutant))) in *.
  destruct ((0 <? mutant)%nat && lessThanOne (Some q)) eqn:E1; cbn [fst snd].
  - left. apply andb_true_iff in E1. destruct E1 as [E1 E2].
    apply Nat.ltb_lt in E1. apply lessThanOne_iff in E2.
    repeat split; try reflexivity; [exact E1 | apply Hshare; exact E2].
  - destruct ((0 <? normal)%nat && lessThanOne (Some p)) eqn:E2; cbn [fst snd].
    + right. left. apply andb_true_iff in E2. destruct E2 as [E2 E3].
      apply Nat.ltb_lt in E2. apply lessThanOne_iff in E3.
      repeat split; try reflexivity; [exact E2 | apply Hshare; exact E3].
    + right. right.
      rewrite (roundSymmetric_nonneg p Hp0), (roundSymmetric_nonneg q Hq0).
      destruct (rounded_sum p q Hp0 Hq0 Hsum) as (Ha & Hb & Hab).
      exists (Math_round p), (Math_round q).
      cbn [normalPercentageNodeText mutantPercentageNodeText withBar].
      repeat (split; [first [reflexivity | assumption]|]).
      split.
      * intros [H1 H2]. apply Nat.ltb_lt in H1. apply Hshare in H2.
        apply lessThanOne_iff in H2. change (lessThanOne (Some q) = true) in H2.
        rewrite H1, H2 in E1. discriminate E1.
      * intros [H1 H2]. apply Nat.ltb_lt in H1. apply Hshare in H2.
        apply lessThanOne_iff in H2. change (lessThanOne (Some p) = true) in H2.
        rewrite H1, H2 in E2. discriminate E2.
Qed.

(** What [setCounts] leaves visible. *)
Lemma setCounts_visible (normal mutant : nat) (s : State) :
  let s' := JS.after (setCounts assertEnabled normal mutant) s in
  fst (setCounts assertEnabled normal mutant s) = inr tt /\
  normalRectangleVisible s' = (0 <? normal)%nat /\
  mutantRectangleVisible s' = (0 <? mutant)%nat /\
  normalPercentageNodeVisible s' = valuesVisibleProperty s && (0 <? normal)%nat /\
  mutantPercentageNodeVisible s' = valuesVisibleProperty s && (0 <? mutant)%nat.
Proof.
  cbn zeta. destruct (Nat.eq_dec (normal + mutant) 0) as [Hzero|Hpos].
  - assert (normal = O) by lia. assert (mutant = O) by lia. subst normal mutant.
    bar_unfold. cbn. rewrite !andb_false_r. repeat split; reflexivity.
  - assert (Ht : (0 < normal + mutant)%nat) by lia.
    bar_unfold. rewrite !(percentage_value _ _ Ht).
    rewrite !(greaterThanZero_nat _ _ Ht).
    repeat (case_step; cbn [fst snd]); repeat split; reflexivity.
Qed.

(** X21. [setCounts] returns for all counts, and what is visible follows
    the counts: a rectangle is visible exactly when its count is not 0, its
    text exactly when values are visible as well; for an empty population
    nothing is.  The mutant rectangle is 1 wide when there is no mutant, and
    for a bar of positive width its width is a positive number in every
    case. *)
Theorem visibility_follows_counts (normal mutant : nat) (s : State) :
  let s' := JS.after (setCounts assertEnabled normal mutant) s in
  fst (setCounts assertEnabled normal mutant s) = inr tt /\
  normalCount s' = normal /\ mutantCount s' = mutant /\
  normalRectangleVisible s' = (0 <? normal)%nat /\
  mutantRectangleVisible s' = (0 <? mutant)%nat /\
  normalPercentageNodeVisible s' = valuesVisibleProperty s && (0 <? normal)%nat /\
  mutantPercentageNodeVisible s' = valuesVisibleProperty s && (0 <? mutant)%nat /\
  (mutant = O -> mutantRectangleRectWidth s' = Some 1) /\
  (0 < barWidth s ->
   exists rectWidth, mutantRectangleRectWidth s' = Some rectWidth /\ 0 < rectWidth).
Proof.
  cbn zeta. destruct (Nat.eq_dec (normal + mutant) 0) as [Hzero|Hpos].
  - assert (normal = O) by lia. assert (mutant = O) by lia. subst normal mutant.
    bar_unfold. cbn. rewrite !andb_false_r.
    repeat (split; [reflexivity|]).
    intros _. exists 1. split; [reflexivity | lra].
  - assert (Ht : (0 < normal + mutant)%nat) by lia.
    destruct (percentages_facts normal mutant Ht) as (Hp0 & Hq0 & Hsum & Hp & Hq & Hpz & Hqz).
    bar_unfold. rewrite !(percentage_value _ _ Ht).
    rewrite !(greaterThanZero_nat _ _ Ht).
    set (p := 100 * inject_Z (Z.of_nat normal) / inject_Z (Z.of_nat (normal + mutant))) in *.
    set (q := 100 * inject_Z (Z.of_nat mutant) / inject_Z (Z.of_nat (normal + mutant))) in *.
    destruct ((0 <? mutant)%nat && lessThanOne (Some q)) eqn:E1; cbn [fst snd].
    + apply andb_true_iff in E1. destruct E1 as [E1 E2]. apply Nat.ltb_lt in E1.
      repeat (split; [reflexivity|]). split; [intros; lia|].
      intros Hw. eexists. split; [reflexivity|]. cbn [barWidth withVisible withCounts withBar]. lra.
    + destruct ((0 <? normal)%nat && lessThanOne (Some p)) eqn:E2; cbn [fst snd].
      * apply andb_true_iff in E2. destruct E2 as [E2 E3].
        apply Nat.ltb_lt in E2. apply lessThanOne_iff in E3.
        repeat (split; [reflexivity|]). split.
        -- intros ->. exfalso. rewrite (Hqz eq_refl) in Hsum. lra.
        -- intros Hw. eexists. split; [reflexivity|]. cbn [barWidth withVisible withCounts withBar]. lra.
      * repeat (split; [reflexivity|]).
        cbn [mutantRectangleVisible mutantRectangleRectWidth withBar withVisible withCounts
             barWidth].
        destruct (0 <? mutant)%nat eqn:Em.
        -- apply Nat.ltb_lt in Em. split; [intros; lia|].
           intros Hw. rewrite (roundSymmetric_nonneg q Hq0).
           eexists. split; [reflexivity|].
           cbn [andb] in E1.
           assert (Hq1 : 1 <= q).
           { apply Qnot_lt_le. intros H. apply lessThanOne_iff in H. congruence. }
           assert (Hr : (1 <= Math_round q)%Z)
             by (rewrite <- (Math_round_integer 1); apply Math_round_le; exact Hq1).
           rewrite Zle_Qle in Hr. change (inject_Z 1) with 1 in Hr.
           apply Qmult_lt_0_compat; [|exact Hw].
           apply Qlt_shift_div_l; lra.
        -- split; [intros _; reflexivity|]. intros _. exists 1. split; [reflexivity | lra].
Qed.


(** What [setCounts] keeps. *)
Lemma setCounts_keeps (normal mutant : nat) (s : State) :
  let s' := JS.after (setCounts assertEnabled normal mutant) s in
  barWidth s' = barWidth s /\ valuesVisibleProperty s' = valuesVisibleProperty s /\
  normalCount s' = normal /\ mutantCount s' = mutant.
Proof.
  cbn zeta. bar_unfold. unfold withVisible, withCounts, withBar. cbn.
  repeat (case_step; cbn); repeat split; reflexivity.
Qed.

(** X24. Showing or hiding the values changes only whether the two texts
    are visible: after [setCounts], a change of [valuesVisibleProperty] runs
    [setCounts] again with the counts of the bar, which returns and leaves
    the rectangles, the width of the mutant rectangle and the two texts as
    they were; a text is then visible exactly when values are and its count
    is not 0. *)
Theorem showing_values_changes_only_the_texts
        (normal mutant : nat) (visible : bool) (s : State) :
  let shown := JS.after (setCounts assertEnabled normal mutant) s in
  let toggled := JS.after (setValuesVisible assertEnabled visible) shown in
  fst (setValuesVisible assertEnabled visible shown) = inr tt /\
  valuesVisibleProperty toggled = visible /\
  normalCount toggled = normal /\ mutantCount toggled = mutant /\
  normalRectangleVisible toggled = normalRectangleVisible shown /\
  mutantRectangleVisible toggled = mutantRectangleVisible shown /\
  mutantRectangleRectWidth toggled = mutantRectangleRectWidth shown /\
  normalPercentageNodeText toggled = normalPercentageNodeText shown /\
  mutantPercentageNodeText toggled = mutantPercentageNodeText shown /\
  normalPercentageNodeVisible toggled = visible && (0 <? normal)%nat /\
  mutantPercentageNodeVisible toggled = visible && (0 <? mutant)%nat.
Proof.
  cbn zeta.
  destruct (setCounts_keeps normal mutant s) as (Hw & Hv & Hn & Hm). cbn zeta in Hw, Hv, Hn, Hm.
  destruct (setCounts_visible normal mutant s) as (_ & Hnr & Hmr & Hnt & Hmt).
  cbn zeta in Hnr, Hmr, Hnt, Hmt.
  set (shown := JS.after (setCounts assertEnabled normal mutant) s) in *.
  unfold setValuesVisible, JS.after, JS.seq, JS.get, JS.unit_. cbn [fst snd].
  destruct (Bool.eqb (valuesVisibleProperty shown) visible) eqn:E; cbn [fst snd].
  - apply Bool.eqb_prop in E. rewrite Hv in E. subst visible.
    repeat (split; [first [reflexivity | assumption]|]). assumption.
  - unfold JS.modify, valuesVisibleListener, JS.seq, JS.get. cbn [fst snd].
    cbn [normalCount mutantCount withValuesVisible]. rewrite Hn, Hm.
    set (flipped := withValuesVisible visible shown).
    destruct (setCounts_visible normal mutant flipped)
      as (Hret & Hnr' & Hmr' & Hnt' & Hmt').
    cbn zeta in Hret, Hnr', Hmr', Hnt', Hmt'.
    destruct (setCounts_keeps normal mutant flipped) as (Hw' & Hv' & Hn' & Hm').
    cbn zeta in Hw', Hv', Hn', Hm'.
    change (snd (setCounts assertEnabled normal mutant flipped))
      with (JS.after (setCounts assertEnabled normal mutant) flipped).
    split; [exact Hret|]. split; [rewrite Hv'; reflexivity|].
    split; [exact Hn'|]. split; [exact Hm'|].
    split; [congruence|]. split; [congruence|].
    assert (Hbar : mutantRectangleRectWidth
                     (JS.after (setCounts assertEnabled normal mutant) flipped)
                   = mutantRectangleRectWidth shown /\
                   normalPercentageNodeText
                     (JS.after (setCounts assertEnabled normal mutant) flipped)
                   = normalPercentageNodeText shown /\
                   mutantPercentageNodeText
                     (JS.after (setCounts assertEnabled normal mutant) flipped)
                   = mutantPercentageNodeText shown).
    { unfold flipped, shown. clear. bar_unfold.
      unfold withValuesVisible, withVisible, withCounts, withBar. cbn.
      repeat (case_step; cbn); repeat split; reflexivity. }
    destruct Hbar as (Hb1 & Hb2 & Hb3).
    split; [exact Hb1|]. split; [exact Hb2|]. split; [exact Hb3|].
    split; [exact Hnt' | exact Hmt'].
Qed.

End BarFacts.


(** A bar 120 wide that is set to 3 bunnies with the normal allele and 1
    with the mutant allele. *)
Lemma both_alleles_keep_a_portion_witness :
  let s := ProportionsBarNode.mkState 120 0 0 true true true (Some 120) true true
             ProportionsBarNode.emptyText ProportionsBarNode.emptyText in
  let s' := JS.after (ProportionsBarNode.setCounts true 3 1) s in
  fst (ProportionsBarNode.setCounts true 3 1 s) = inr tt /\
  ProportionsBarNode.normalRectangleVisible s' = true /\
  ProportionsBarNode.mutantRectangleVisible s' = true /\
  exists rectWidth,
    ProportionsBarNode.mutantRectangleRectWidth s' = Some rectWidth /\
    (1 # 100) * 120 <= rectWidth <= (99 # 100) * 120.
Proof.
  intros s s'.
  apply (both_alleles_keep_a_portion true 3 1 s); [lia | lia | cbn; lra].
Defined.

(** The same bar, set to 1 and 7 bunnies. *)
Lemma percentage_texts_add_up_witness :
  let s := ProportionsBarNode.mkState 120 0 0 true true true (Some 120) true true
             ProportionsBarNode.emptyText ProportionsBarNode.emptyText in
  let s' := JS.after (ProportionsBarNode.setCounts true 1 7) s in
  (ProportionsBarNode.normalPercentageNodeText s'
   = ProportionsBarNode.greaterThanValuePercent 99 /\
   ProportionsBarNode.mutantPercentageNodeText s'
   = ProportionsBarNode.lessThanValuePercent 1 /\
   (0 < 7)%nat /\ (100 * 7 < 1 + 7)%nat) \/
  (ProportionsBarNode.normalPercentageNodeText s'
   = ProportionsBarNode.lessThanValuePercent 1 /\
   ProportionsBarNode.mutantPercentageNodeText s'
   = ProportionsBarNode.greaterThanValuePercent 99 /\
   (0 < 1)%nat /\ (100 * 1 < 1 + 7)%nat) \/
  (exists shownNormal shownMutant,
      ProportionsBarNode.normalPercentageNodeText s'
      = ProportionsBarNode.valuePercent (Some shownNormal) /\
      ProportionsBarNode.mutantPercentageNodeText s'
      = ProportionsBarNode.valuePercent (Some shownMutant) /\
      (0 <= shownNormal)%Z /\ (0 <= shownMutant)%Z /\
      (shownNormal + shownMutant = 100 \/ shownNormal + shownMutant = 101)%Z /\
      ~ (0 < 7 /\ 100 * 7 < 1 + 7)%nat /\
      ~ (0 < 1 /\ 100 * 1 < 1 + 7)%nat).
Proof.
  intros s s'. apply (percentage_texts_add_up true 1 7 s). lia.
Defined.

(** With 1 and 7 bunnies the two texts are 13% and 88%: 101 together. *)
Lemma percentage_texts_of_one_and_seven :
  let s := ProportionsBarNode.mkState 120 0 0 true true true (Some 120) true true
             ProportionsBarNode.emptyText ProportionsBarNode.emptyText in
  let s' := JS.after (ProportionsBarNode.setCounts true 1 7) s in
  ProportionsBarNode.normalPercentageNodeText s'
  = ProportionsBarNode.valuePercent (Some 13%Z) /\
  ProportionsBarNode.mutantPercentageNodeText s'
  = ProportionsBarNode.valuePercent (Some 88%Z).
Proof. vm_compute. split; reflexivity. Qed.

(* ------------------------------------------------------------------------- *)
(** ** The rows of the alleles panel *)

Section AllelesFacts.
Import AllelesPanel.
Variable Gene : Type.
Variable Gene_eq_dec : forall a b : Gene, {a = b} + {a <> b}.
Variable Allele : Type.
Variable Allele_eq_dec : forall a b : Allele, {a = b} + {a <> b}.
Variable Image : Type.
Variable normalAllele : Gene -> Allele.
Variable mutantAllele : Gene -> Allele.
Variable image : Allele -> Image.
Variable assertEnabled : bool.

Local Abbreviation Row := (AllelesPanel.Row Gene Image).
Local Abbreviation Rows := (AllelesPanel.Rows Gene Image).

Lemma findRow_none (g : Gene) (rows : Rows) :
  ~ In g (map (@gene Gene Image) rows) -> findRow Gene_eq_dec g rows = None.
Proof.
  unfold findRow. induction rows as [|row rows IH]; intros Hnot; cbn.
  - reflexivity.
  - destruct (Gene_eq_dec (gene row) g) as [E|E].
    + exfalso. apply Hnot. left. exact E.
    + apply IH. intros Hin. apply Hnot. right. exact Hin.
Qed.

Lemma findRow_some (g : Gene) (rows : Rows) :
  In g (map (@gene Gene Image) rows) ->
  exists row, findRow Gene_eq_dec g rows = Some row /\ gene row = g.
Proof.
  unfold findRow. induction rows as [|row rows IH]; intros Hin; cbn.
  - destruct Hin.
  - destruct (Gene_eq_dec (gene row) g) as [E|E].
    + exists row. split; [reflexivity | exact E].
    + destruct Hin as [Hin|Hin]; [contradiction|]. apply IH, Hin.
Qed.

Lemma setVisibleOfFirst_other (g : Gene) (v : bool) (rows : Rows) :
  ~ In g (map (@gene Gene Image) rows) -> setVisibleOfFirst Gene_eq_dec g v rows = rows.
Proof.
  induction rows as [|row rows IH]; intros Hnot; cbn.
  - reflexivity.
  - destruct (Gene_eq_dec (gene row) g) as [E|E].
    + exfalso. apply Hnot. left. exact E.
    + f_equal. apply IH. intros Hin. apply Hnot. right. exact Hin.
Qed.

Lemma setVisibleOfFirst_map (g : Gene) (v : bool) (rows : Rows) :
  NoDup (map (@gene Gene Image) rows) ->
  setVisibleOfFirst Gene_eq_dec g v rows
  = map (fun row => if Gene_eq_dec (gene row) g then withVisible v row else row) rows.
Proof.
  induction rows as [|row rows IH]; intros Hnd; cbn.
  - reflexivity.
  - inversion Hnd as [|? ? Hnotin Hnd']. subst.
    destruct (Gene_eq_dec (gene row) g) as [E|E].
    + f_equal. rewrite <- E in *.
      clear IH Hnd Hnd'. induction rows as [|row' rows IH]; cbn.
      * reflexivity.
      * destruct (Gene_eq_dec (gene row') (gene row)) as [E'|E'].
        -- exfalso. apply Hnotin. left. exact E'.
        -- f_equal. apply IH. intros Hin. apply Hnotin. right. exact Hin.
    + f_equal. apply IH, Hnd'.
Qed.

(** X22. In a panel whose rows are for different genes, [setGeneVisible]
    returns for the gene of a row, sets [visible] of that row and leaves the
    other rows as they are.  For a gene without a row it throws, the failed
    assertion or, without assertions, the TypeError of the assignment to
    [undefined], and no row is changed. *)
Theorem setGeneVisible_sets_the_row_of_the_gene (g : Gene) (v : bool) (rows : Rows) :
  NoDup (map (@gene Gene Image) rows) ->
  (In g (map (@gene Gene Image) rows) ->
   setGeneVisible Gene_eq_dec assertEnabled g v rows
   = (inr tt,
      map (fun row => if Gene_eq_dec (gene row) g then withVisible v row else row) rows)) /\
  (~ In g (map (@gene Gene Image) rows) ->
   setGeneVisible Gene_eq_dec assertEnabled g v rows
   = (inl (if assertEnabled then JS.AssertionFailed "row not found for gene"
           else JS.TypeError "Cannot set properties of undefined"),
      rows)).
Proof.
  intros Hnd. unfold setGeneVisible, JS.seq, JS.get, JS.lift, JS.modify, JS.raise.
  cbn [fst snd]. split.
  - intros Hin. destruct (findRow_some g rows Hin) as (row & -> & _).
    rewrite assert_true by reflexivity. cbn. rewrite (setVisibleOfFirst_map g v rows Hnd).
    reflexivity.
  - intros Hnot. rewrite (findRow_none g rows Hnot).
    destruct assertEnabled; reflexivity.
Qed.

Local Abbreviation listener :=
  (dominantAlleleListener Allele_eq_dec normalAllele mutantAllele image).

Local Abbreviation shows := (AllelesPanel.shows Allele_eq_dec normalAllele mutantAllele image).

Lemma listener_shows (g : Gene) (isSettingPhetioState : bool)
      (dominantAllele before : option Allele) (current : option Allele) (row : Row) :
  (forall dominant, dominantAllele = Some dominant ->
                    dominant = normalAllele g \/ dominant = mutantAllele g) ->
  shows g row current before ->
  shows g (listener isSettingPhetioState dominantAllele row) dominantAllele
        (match dominantAllele with Some d => Some d | None => before end).
Proof.
  intros Hd (Hg & Hv & _ & _ & Himg).
  unfold shows, dominantAlleleListener.
  destruct dominantAllele as [dominant|].
  - destruct isSettingPhetioState; cbn; rewrite Hg;
      (split; [reflexivity|]); (split; [exact Hv|]);
      (split; [reflexivity|]); (split; [reflexivity|]);
      unfold recessiveTo;
      destruct (Allele_eq_dec dominant (mutantAllele g)) as [-> | Hne];
      try (split; reflexivity);
      destruct (Hd dominant eq_refl) as [-> | ->]; try contradiction; split; reflexivity.
  - destruct isSettingPhetioState; cbn;
      (split; [exact Hg|]); (split; [exact Hv|]);
      (split; [reflexivity|]); (split; [reflexivity|]); exact Himg.
Qed.

Lemma changes_show (g : Gene) (changes : list (bool * option Allele)) :
  forall (row : Row) (current before : option Allele),
    (forall dominant, In (Some dominant) (map snd changes) ->
                      dominant = normalAllele g \/ dominant = mutantAllele g) ->
    shows g row current before ->
    shows g (dominantAlleleChanges Allele_eq_dec normalAllele mutantAllele image true
               changes row)
          (last (map snd changes) current) (lastMutation changes before).
Proof.
  induction changes as [|[isSetting dominantAllele] changes IH];
    intros row current before Hd Hs.
  - exact Hs.
  - cbn [dominantAlleleChanges].
    assert (Hstep : shows g (listener isSetting dominantAllele row) dominantAllele
                          (match dominantAllele with Some d => Some d | None => before end)).
    { apply (listener_shows g isSetting dominantAllele before current row); [|exact Hs].
      intros dominant ->. apply Hd. left. reflexivity. }
    assert (Hrest : forall dominant, In (Some dominant) (map snd changes) ->
                                     dominant = normalAllele g \/ dominant = mutantAllele g)
      by (intros dominant Hin; apply Hd; right; exact Hin).
    specialize (IH _ _ _ Hrest Hstep).
    replace (last (map snd ((isSetting, dominantAllele) :: changes)) current)
      with (last (map snd changes) dominantAllele).
    + destruct dominantAllele; exact IH.
    + cbn [map snd]. symmetry. apply last_cons.
Qed.

(** X23. With the query parameter, a row follows the dominant allele of its
    gene from its construction on, as long as that allele is null, the
    normal or the mutant allele of the gene: the checkbox is enabled and the
    icons are visible exactly when the allele is not null, the dominant icon
    shows the image of the last dominant allele that was not null and the
    recessive icon that of the other allele of the gene; before any
    mutation they show the normal and the mutant allele.  The row itself
    stays visible. *)
Theorem row_follows_the_dominant_allele
        (g : Gene) (visibleProperty0 isSettingPhetioState0 : bool)
        (dominantAllele0 : option Allele) (changes : list (bool * option Allele)) :
  (forall dominant, In (Some dominant) (dominantAllele0 :: map snd changes) ->
                    dominant = normalAllele g \/ dominant = mutantAllele g) ->
  let row :=
    dominantAlleleChanges Allele_eq_dec normalAllele mutantAllele image true changes
      (newRow Allele_eq_dec normalAllele mutantAllele image true g visibleProperty0
              isSettingPhetioState0 dominantAllele0) in
  let hasMutation :=
    match last (map snd changes) dominantAllele0 with Some _ => true | None => false end in
  gene row = g /\ visible row = true /\
  checkboxEnabled row = hasMutation /\ hBoxVisible row = hasMutation /\
  match lastMutation changes dominantAllele0 with
  | Some dominant =>
      dominantAlleleNodeImage row = image dominant /\
      recessiveAlleleNodeImage row
      = image (recessiveTo Allele_eq_dec normalAllele mutantAllele g dominant)
  | None =>
      dominantAlleleNodeImage row = image (normalAllele g) /\
      recessiveAlleleNodeImage row = image (mutantAllele g)
  end.
Proof.
  intros Hd. cbn zeta.
  apply (changes_show g changes _ dominantAllele0 dominantAllele0).
  - intros dominant Hin. apply Hd. right. exact Hin.
  - unfold newRow.
    pose proof (listener_shows g isSettingPhetioState0 dominantAllele0 None
                  (Some (normalAllele g))
                  (mkRow g true visibleProperty0 true true
                         (image (normalAllele g)) (image (mutantAllele g)))) as H.
    destruct dominantAllele0 as [d|].
    + apply H.
      * intros dominant E. apply Hd. left. exact E.
      * repeat split.
    + apply H.
      * intros dominant E. discriminate E.
      * repeat split.
Qed.

End AllelesFacts.


(** A panel for the genes 0, 1 and 2, whose alleles are the numbers
    [2 g] and [2 g + 1] and whose images are the alleles: the row of gene 1
    is hidden. *)
Lemma setGeneVisible_sets_the_row_of_the_gene_witness :
  let rows :=
    AllelesPanel.constructor Nat.eq_dec (fun g : nat => (2 * g)%nat)
      (fun g : nat => (2 * g + 1)%nat) (fun a : nat => a) true
      0%nat 1%nat 2%nat true true true false None None None in
  AllelesPanel.setGeneVisible Nat.eq_dec true 1%nat false rows
  = (inr tt,
     map (fun row => if Nat.eq_dec (AllelesPanel.gene row) 1%nat
                     then AllelesPanel.withVisible false row else row) rows).
Proof.
  intros rows.
  assert (Hnd : NoDup (map (@AllelesPanel.gene nat nat) rows)).
  { cbn. repeat constructor; cbn; intuition discriminate. }
  destruct (setGeneVisible_sets_the_row_of_the_gene nat Nat.eq_dec nat true 1%nat false
              rows Hnd) as [Hin _].
  apply Hin. cbn. right. left. reflexivity.
Defined.

(** The row of gene 0 of that family, constructed before any mutation;
    then the mutant allele becomes the dominant one. *)
Lemma row_follows_the_dominant_allele_witness :
  let row :=
    AllelesPanel.dominantAlleleChanges Nat.eq_dec (fun g : nat => (2 * g)%nat)
      (fun g : nat => (2 * g + 1)%nat) (fun a : nat => a) true
      [(false, Some 1%nat)]
      (AllelesPanel.newRow Nat.eq_dec (fun g : nat => (2 * g)%nat)
         (fun g : nat => (2 * g + 1)%nat) (fun a : nat => a) true
         0%nat false false None) in
  AllelesPanel.checkboxEnabled row = true /\
  AllelesPanel.hBoxVisible row = true /\
  AllelesPanel.dominantAlleleNodeImage row = 1%nat /\
  AllelesPanel.recessiveAlleleNodeImage row = 0%nat.
Proof.
  intros row.
  destruct (row_follows_the_dominant_allele nat nat Nat.eq_dec nat
              (fun g : nat => (2 * g)%nat) (fun g : nat => (2 * g + 1)%nat)
              (fun a : nat => a) 0%nat false false None [(false, Some 1%nat)])
    as (_ & _ & Hc & Hh & Hd & Hr).
  { intros dominant [E|[E|[]]]; [discriminate E|]. injection E as <-. right. reflexivity. }
  split; [exact Hc|]. split; [exact Hh|]. split; [exact Hd | exact Hr].
Defined.

(* ------------------------------------------------------------------------- *)
(** ** The ledger on examples *)

Open Scope nat_scope.

Lemma afterFirstGeneration_reachable :
  ProportionsModel.reachable Nat.eq_dec 0 true afterFirstGeneration.
Proof.
  exists 0%nat, 0%nat, false,
    [ProportionsModel.CallRecordStartCounts 0 5;
     ProportionsModel.ClockGenerationChanges 1], [].
  vm_compute. reflexivity.
Qed.

(** Two generations pass; a late [recordEndCounts] for generation 0 is
    refused. *)
Lemma ledger_history_invariant_witness :
  let final :=
    ProportionsModel.run Nat.eq_dec 0 true
      [ProportionsModel.CallRecordStartCounts 0 5;
       ProportionsModel.ClockGenerationChanges 1;
       ProportionsModel.CallRecordEndCounts 0 4;
       ProportionsModel.CallRecordStartCounts 1 4;
       ProportionsModel.ClockGenerationChanges 2;
       ProportionsModel.CallRecordEndCounts 1 7;
       ProportionsModel.CallRecordEndCounts 0 3]
      (snd (ProportionsModel.constructor 0 true 0 0 false)) [] in
  snd final = [0; 1]%Z /\
  forall i counts,
    nth_error (ProportionsModel.history (fst final)) i = Some counts ->
    ProportionsModel.generation counts = Z.of_nat i.
Proof.
  split; [vm_compute; reflexivity|].
  apply (ledger_history_invariant nat Nat.eq_dec 0 0 0%nat false).
Defined.

(** The end counts of generation 0 are recorded once, with the start counts
    stored last; a second record and a late start record for generation 0 are
    refused. *)
Lemma recordEndCounts_contract_witness :
  let calls := [ProportionsModel.CallRecordStartCounts 0 5;
                ProportionsModel.ClockGenerationChanges 1] in
  let s0 := snd (ProportionsModel.constructor 0 true 0 0 false) in
  let s := fst (ProportionsModel.run Nat.eq_dec 0 true calls s0 []) in
  let s' := JS.after (ProportionsModel.recordEndCounts true 0 4) s in
  ProportionsModel.latestStart Nat.eq_dec 0 true calls s0 None = Some (0%Z, 5) /\
  ProportionsModel.history s'
  = [ProportionsModel.mkProportionsCounts 0 (Some 5%nat) 4%nat] /\
  forall third : nat,
    (exists msg,
        ProportionsModel.recordEndCounts true 0 third s'
        = (inl (JS.AssertionFailed msg), s')) /\
    (exists msg,
        ProportionsModel.recordStartCounts Nat.eq_dec 0 true 0 third s'
        = (inl (JS.AssertionFailed msg), s')).
Proof.
  split; [vm_compute; reflexivity|]. split; [vm_compute; reflexivity|].
  apply (recordEndCounts_contract nat Nat.eq_dec 0 0 0%nat false
           [ProportionsModel.CallRecordStartCounts 0 5;
            ProportionsModel.ClockGenerationChanges 1] 0 4).
  vm_compute. reflexivity.
Defined.

(** C2, the counterexample. The sim plays.  Start counts 5 are recorded for
    generation 0, the clock moves to generation 1, and start counts 6 are
    recorded for generation 1 before the end counts of generation 0 are.
    Every call returns, [recordEndCounts( 0, 4 )] too, and the record it
    appends for generation 0 holds the start counts 6 that were recorded for
    generation 1, not the 5 that were recorded for generation 0. *)
Lemma end_record_takes_the_latest_start_counts :
  let s0 := snd (ProportionsModel.constructor 0 true 3 0 true) in
  let s1 := JS.after (ProportionsModel.recordStartCounts Nat.eq_dec 0 true 0 5) s0 in
  let s2 := JS.after (ProportionsModel.perform Nat.eq_dec 0 true
                        (ProportionsModel.ClockGenerationChanges 1)) s1 in
  let s3 := JS.after (ProportionsModel.recordStartCounts Nat.eq_dec 0 true 1 6) s2 in
  let s4 := JS.after (ProportionsModel.recordEndCounts true 0 4) s3 in
  fst (ProportionsModel.recordStartCounts Nat.eq_dec 0 true 0 5 s0) = inr tt /\
  ProportionsModel.currentStartCountsProperty s1 = Some 5%nat /\
  fst (ProportionsModel.perform Nat.eq_dec 0 true
         (ProportionsModel.ClockGenerationChanges 1) s1) = inr tt /\
  fst (ProportionsModel.recordStartCounts Nat.eq_dec 0 true 1 6 s2) = inr tt /\
  fst (ProportionsModel.recordEndCounts true 0 4 s3) = inr tt /\
  ProportionsModel.history s4
  = [ProportionsModel.mkProportionsCounts 0 (Some 6%nat) 4%nat] /\
  ProportionsModel.history s4
  <> [ProportionsModel.mkProportionsCounts 0 (Some 5%nat) 4%nat].
Proof. vm_compute. repeat split. discriminate. Qed.

(** C3, the counterexample. In a model at generation 0, two start records
    for generation 0 are made one after the other: both calls return, and the
    second one has replaced the first. *)
Lemma second_start_record_accepted :
  let s0 := snd (ProportionsModel.constructor 0 true 0 0 false) in
  let s1 := JS.after (ProportionsModel.recordStartCounts Nat.eq_dec 0 true 0 5) s0 in
  let s2 := JS.after (ProportionsModel.recordStartCounts Nat.eq_dec 0 true 0 6) s1 in
  fst (ProportionsModel.recordStartCounts Nat.eq_dec 0 true 0 5 s0) = inr tt /\
  fst (ProportionsModel.recordStartCounts Nat.eq_dec 0 true 0 6 s1) = inr tt /\
  ProportionsModel.currentStartCountsProperty s1 = Some 5%nat /\
  ProportionsModel.currentStartCountsProperty s2 = Some 6%nat.
Proof. vm_compute. repeat split. Qed.

(** A start record for generation 1 is refused while the clock is at 0; the
    start record for generation 0 is made, and made again. *)
Lemma recordStartCounts_contract_witness :
  let s0 := snd (ProportionsModel.constructor 0 true 0 0 false) in
  let s1 := JS.after (ProportionsModel.recordStartCounts Nat.eq_dec 0 true 0 5) s0 in
  (exists msg,
      fst (ProportionsModel.recordStartCounts Nat.eq_dec 0 true 1 5 s0)
      = inl (JS.AssertionFailed msg)) /\
  ProportionsModel.currentStartCountsProperty s1 = Some 5%nat /\
  forall second : nat,
    fst (ProportionsModel.recordStartCounts Nat.eq_dec 0 true 0 second s1) = inr tt /\
    ProportionsModel.currentStartCountsProperty
      (JS.after (ProportionsModel.recordStartCounts Nat.eq_dec 0 true 0 second) s1)
    = Some second.
Proof.
  intros s0 s1.
  assert (Hother : 1%Z <> ProportionsModel.clockGeneration s0)
    by (vm_compute; discriminate).
  assert (Hclock : 0%Z = ProportionsModel.clockGeneration s0)
    by (vm_compute; reflexivity).
  assert (Hshown : ProportionsModel.proportionsGenerationProperty s0
                   = ProportionsModel.clockGeneration s0)
    by (vm_compute; reflexivity).
  destruct (recordStartCounts_contract nat Nat.eq_dec 0 s0 1 5) as (Hrejects & _).
  destruct (recordStartCounts_contract nat Nat.eq_dec 0 s0 0 5)
    as (_ & _ & Hstores & Hagain).
  split; [|split].
  - exact (proj1 (Hrejects Hother)).
  - exact (proj1 (Hstores Hclock)).
  - exact (proj2 (Hagain Hclock Hshown)).
Defined.

(** C4, the counterexample. No limit bounds the length of the history: for
    every limit, the generations that pass while the sim plays leave more
    records than that. *)
Lemma history_exceeds_every_limit :
  ~ exists limit : nat,
      forall calls : list (ProportionsModel.Call nat),
        (List.length
           (ProportionsModel.history
              (fst (ProportionsModel.run Nat.eq_dec 0 true calls
                      (snd (ProportionsModel.constructor 0 true 0 0 true)) [])))
         <= limit)%nat.
Proof.
  intros [limit H].
  specialize (H (ProportionsModel.manyGenerations (S limit) 1%nat)).
  rewrite (manyGenerations_length nat Nat.eq_dec 0 true 0 1 true (S limit))%nat in H.
  lia.
Qed.

(** The end counts of generation 0 are appended to an empty history, and the
    history then has one record, as the clock is at generation 1. *)
Lemma history_grows_without_eviction_witness :
  let c := ProportionsModel.CallRecordEndCounts 0 4%nat in
  let s' := JS.after (ProportionsModel.perform Nat.eq_dec 0 true c) afterFirstGeneration in
  ProportionsModel.history afterFirstGeneration = [] /\
  (ProportionsModel.history s' = ProportionsModel.history afterFirstGeneration \/
   (exists g endCounts,
       c = ProportionsModel.CallRecordEndCounts g endCounts /\
       fst (ProportionsModel.perform Nat.eq_dec 0 true c afterFirstGeneration) = inr tt /\
       ProportionsModel.history s'
       = (ProportionsModel.history afterFirstGeneration ++
          [ProportionsModel.mkProportionsCounts g
             (ProportionsModel.currentStartCountsProperty afterFirstGeneration)
             endCounts])%list /\
       (true = true ->
        Z.of_nat (List.length (ProportionsModel.history s'))
        = ProportionsModel.clockGeneration afterFirstGeneration)) \/
   (c = ProportionsModel.CallReset /\
    fst (ProportionsModel.perform Nat.eq_dec 0 true c afterFirstGeneration) = inr tt /\
    ProportionsModel.history s' = [])).
Proof.
  split; [vm_compute; reflexivity|].
  apply (history_grows_without_eviction nat Nat.eq_dec 0 true
           (ProportionsModel.CallRecordEndCounts 0 4%nat) afterFirstGeneration).
Defined.

Lemma viewingGenerationZero_reachable :
  ProportionsModel.reachable Nat.eq_dec 0 true viewingGenerationZero.
Proof.
  exists 0%nat, 0%nat, false,
    [ProportionsModel.CallRecordStartCounts 0 5;
     ProportionsModel.ClockGenerationChanges 1;
     ProportionsModel.CallRecordEndCounts 0 4;
     ProportionsModel.CallRecordStartCounts 1 4;
     ProportionsModel.LiveBunnyCountsChange 3], [0%Z].
  vm_compute. reflexivity.
Qed.



(** C7, the counterexample. The sim plays, the clock is at generation 1, and
    start counts are recorded while the ledger has no record: every call so
    far has returned, but [reset()] throws in the listener that decides what
    to display, and leaves the current start counts as they were. *)
Lemma reset_can_throw :
  let s0 := snd (ProportionsModel.constructor 0 true 0 0 true) in
  let s1 := JS.after (ProportionsModel.perform Nat.eq_dec 0 true
                        (ProportionsModel.ClockGenerationChanges 1)) s0 in
  let s2 := JS.after (ProportionsModel.perform Nat.eq_dec 0 true
                        (ProportionsModel.CallRecordStartCounts 1 7)) s1 in
  fst (ProportionsModel.perform Nat.eq_dec 0 true
         (ProportionsModel.ClockGenerationChanges 1) s0) = inr tt /\
  fst (ProportionsModel.perform Nat.eq_dec 0 true
         (ProportionsModel.CallRecordStartCounts 1 7) s1) = inr tt /\
  fst (ProportionsModel.reset Nat.eq_dec 0 true s2)
  = inl (JS.TypeError "counts is undefined") /\
  ProportionsModel.currentStartCountsProperty
    (JS.after (ProportionsModel.reset Nat.eq_dec 0 true) s2) = Some 7%nat /\
  ProportionsModel.hasDataProperty
    (JS.after (ProportionsModel.reset Nat.eq_dec 0 true) s2) = true.
Proof. vm_compute. repeat split. Qed.

(** [reset()] while generation 0 is viewed at clock generation 1. *)
Lemma reset_clears_ledger_witness :
  let s' := JS.after (ProportionsModel.reset Nat.eq_dec 0 true) viewingGenerationZero in
  ProportionsModel.history viewingGenerationZero <> [] /\
  ProportionsModel.history s' = [] /\
  ProportionsModel.currentStartCountsProperty s' = None /\
  ProportionsModel.hasDataProperty s' = false /\
  ProportionsModel.startCountsProperty s' = Some 0%nat /\
  ProportionsModel.endCountsProperty s' = 0%nat /\
  fst (ProportionsModel.reset Nat.eq_dec 0 true s') = inr tt.
Proof.
  intros s'. split; [vm_compute; discriminate|].
  destruct (reset_clears_ledger nat Nat.eq_dec 0 true viewingGenerationZero)
    as [Hreturns Hclears].
  apply Hclears, Hreturns. left. vm_compute. reflexivity.
Defined.

(** A playing model at generation 2: looking at generation 1 pauses it, and
    playing again shows generation 2. *)
Lemma playing_displays_current_generation_witness :
  let s := JS.after (ProportionsModel.perform Nat.eq_dec 0 true
                       (ProportionsModel.ClockGenerationChanges 2))
                    (snd (ProportionsModel.constructor 0 true 0 0 true)) in
  let paused := JS.after (ProportionsModel.perform Nat.eq_dec 0 true
                            (ProportionsModel.ProportionsGenerationChanges 1)) s in
  ProportionsModel.isPlayingProperty s = true /\
  ProportionsModel.proportionsGenerationProperty s = 2%Z /\
  ProportionsModel.proportionsGenerationProperty paused = 1%Z /\
  ProportionsModel.isPlayingProperty paused = false.
Proof.
  intros s paused. split; [vm_compute; reflexivity|]. split; [vm_compute; reflexivity|].
  assert (H : ProportionsModel.playingShowsCurrent s)
    by (intros _; vm_compute; reflexivity).
  destruct (playing_displays_current_generation nat Nat.eq_dec 0 true s H)
    as (_ & Hpause & _).
  apply (Hpause 1%Z). vm_compute. discriminate.
Defined.

(* ------------------------------------------------------------------------- *)
(** ** More of the ledger on examples *)

(** A model that was just constructed, with 7 live bunnies, has no data;
    then the live counts change to 9. *)
Lemma no_data_displays_zero_witness :
  let s := snd (ProportionsModel.constructor 0 true 7 0 false) in
  let s' := JS.after (ProportionsModel.perform Nat.eq_dec 0 true
                        (ProportionsModel.LiveBunnyCountsChange 9)) s in
  ProportionsModel.startCountsProperty s = Some 0 /\
  ProportionsModel.endCountsProperty s = 0 /\
  fst (ProportionsModel.perform Nat.eq_dec 0 true
         (ProportionsModel.LiveBunnyCountsChange 9) s) = inr tt /\
  ProportionsModel.startCountsProperty s' = Some 0 /\
  ProportionsModel.endCountsProperty s' = 0.
Proof.
  intros s s'.
  assert (Hr : ProportionsModel.reachable Nat.eq_dec 0 true s)
    by (exists 7, 0, false, [], []; reflexivity).
  assert (Hno : ProportionsModel.hasDataProperty s = false) by (vm_compute; reflexivity).
  exact (no_data_displays_zero nat Nat.eq_dec 0 true s 9 Hr Hno).
Defined.

(** A model constructed while the sim plays, after the clock has moved to
    generation 1. *)
Lemma playing_range_ends_at_the_clock_witness :
  let s := fst (ProportionsModel.run Nat.eq_dec 0 true
                  [ProportionsModel.ClockGenerationChanges 1]
                  (snd (ProportionsModel.constructor 0 true 0 0 true)) []) in
  ProportionsModel.proportionsGenerationRange s = Dot.mkRange 0 (inject_Z 1) /\
  Dot.contains (ProportionsModel.proportionsGenerationRange s)
               (inject_Z (ProportionsModel.proportionsGenerationProperty s)) = true.
Proof.
  intros s.
  assert (Hr : ProportionsModel.reachable Nat.eq_dec 0 true s).
  { exists 0, 0, true, [ProportionsModel.ClockGenerationChanges 1], [].
    vm_compute. reflexivity. }
  assert (Hp : ProportionsModel.isPlayingProperty s = true) by (vm_compute; reflexivity).
  exact (playing_range_ends_at_the_clock nat Nat.eq_dec 0 true s Hr Hp).
Defined.

(** The ledger that views generation 0 holds one record. *)
Lemma history_implies_data_witness :
  ProportionsModel.hasDataProperty viewingGenerationZero = true /\
  forall i counts,
    nth_error (ProportionsModel.history viewingGenerationZero) i = Some counts ->
    ProportionsModel.startCounts counts <> None.
Proof.
  apply (history_implies_data nat Nat.eq_dec 0 viewingGenerationZero
           viewingGenerationZero_reachable).
  vm_compute. discriminate.
Defined.

(** The ledger that views generation 0 is reset: it is then the model that
    the constructor builds for 3 live bunnies with the clock at generation 1
    and the sim paused. *)
Lemma reset_restores_construction_witness :
  JS.after (ProportionsModel.reset Nat.eq_dec 0 true) viewingGenerationZero
  = snd (ProportionsModel.constructor 0 true 3 1 false).
Proof.
  assert (Hret : fst (ProportionsModel.reset Nat.eq_dec 0 true viewingGenerationZero)
                 = inr tt) by (vm_compute; reflexivity).
  exact (reset_restores_construction nat Nat.eq_dec 0 true viewingGenerationZero
           viewingGenerationZero_reachable Hret).
Defined.
